(** * The gateway's transaction relay: queue, nonce manager, worker, XP ledger

    A shallow embedding of the relay core of the gateway
    (gateway/database.py, gateway/contract.py, gateway/tx_worker.py and the
    game endpoints of gateway/main.py), and the properties its
    specification states about it.

    Conventions of the embedding:
    - Python [int] is [Z]; [time.time()] is a [Z] number of seconds;
    - an [INTEGER] column holds a [Z]: the driver refuses to bind an
      integer outside 64 bits, which [award_xp], whose amounts the caller
      chooses, checks with [bind_integers], and the properties about sums
      state that the sums stay inside;
    - a nullable SQL column is an [option];
    - the store is one connection, whose open transaction is the flag
      [in_transaction]: a refused [INSERT] leaves it open, a commit or a
      rollback closes it, and [begin] raises when it is open;
    - a table with a primary key that the code looks up by key is a [gmap],
      a table that is scanned, counted or appended to is a [list] of rows
      kept in insertion order;
    - a Python function that can raise returns in the monad [M], whose
      result is [inl e] for a raised exception [e];
    - a coroutine whose interleaving matters is a step function with one
      step per [await], run under a schedule. *)

From Stdlib Require Import ZArith Lia Ascii String.
From stdpp Require Import base strings list gmap pretty sorting.

#[local] Set Warnings "-register-all".
Local Open Scope string_scope.
Local Open Scope Z_scope.

(** ** Exceptions and the state-and-exception monad *)

Inductive Exn :=
| IntegrityError (msg : string)
| TypeError (msg : string)
| RuntimeError (msg : string)
| Web3Error (msg : string)
| HTTPException (status_code : Z) (detail : string)
| OperationalError (msg : string)
| OverflowError (msg : string)
| NameError (msg : string).

(** [str(e)] *)
Definition str (e : Exn) : string :=
  match e with
  | IntegrityError m | TypeError m | RuntimeError m | Web3Error m => m
  | HTTPException _ d => d
  | OperationalError m | OverflowError m | NameError m => m
  end.

Definition M (S A : Type) : Type := S -> (Exn + A) * S.

Definition ret {S A} (a : A) : M S A := fun s => (inr a, s).

Definition bind {S A B} (c : M S A) (k : A -> M S B) : M S B :=
  fun s => match c s with
           | (inr a, s') => k a s'
           | (inl e, s') => (inl e, s')
           end.

Definition raise {S A} (e : Exn) : M S A := fun s => (inl e, s).

(** [try: body except Exception as e: handler e] *)
Definition try_except {S A} (body : M S A) (handler : Exn -> M S A) : M S A :=
  fun s => match body s with
           | (inr a, s') => (inr a, s')
           | (inl e, s') => handler e s'
           end.

Definition get {S} : M S S := fun s => (inr s, s).
Definition put {S} (s : S) : M S unit := fun _ => (inr tt, s).
Definition modify {S} (f : S -> S) : M S unit := fun s => (inr tt, f s).

Declare Scope relay_scope.
Delimit Scope relay_scope with relay.
Notation "'let*' x ':=' c 'in' k" := (bind c (fun x => k))
  (at level 10, x name, c at level 100, k at level 200, only parsing) : relay_scope.
Local Open Scope relay_scope.

(** ** Strings: [s.lower()] and [needle in s] *)

Definition lower_ascii (c : ascii) : ascii :=
  let n := nat_of_ascii c in
  if (Nat.leb 65 n && Nat.leb n 90)%bool then ascii_of_nat (n + 32) else c.

Fixpoint lower (s : string) : string :=
  match s with
  | EmptyString => EmptyString
  | String c r => String (lower_ascii c) (lower r)
  end.

Fixpoint contains (needle hay : string) : bool :=
  if String.prefix needle hay then true
  else match hay with
       | EmptyString => false
       | String _ r => contains needle r
       end.

(** ** Rows of the store (gateway/db_backend.py, the schema) *)

Inductive Json :=
| JInt (n : Z)
| JStr (s : string)
| JNull
| JList (l : list Json).

Inductive Status := pending | submitting | submitted | mined | failed.

Global Instance Status_eq_dec : EqDecision Status.
Proof. solve_decision. Defined.

(** A row of [tx_queue]. [params] is the JSON text the handlers write with
    [json.dumps] and the worker reads back with [json.loads]; it is kept
    as the list it encodes. *)
Record TxRow := {
  tx_id : Z;
  tx_action_id : string;
  tx_moltbook_id : string;
  tx_method : string;
  tx_params : list Json;
  tx_status : Status;
  tx_hash : option string;
  tx_error : option string;
  tx_created_at : Z;
  tx_updated_at : Z
}.

(** A row of [xp_events]. *)
Record XpEvent := {
  xe_idempotency_key : string;
  xe_moltbook_id : string;
  xe_session_id : Z;
  xe_epoch_id : Z;
  xe_event_type : string;
  xe_xp_amount : Z;
  xe_gold_amount : Z;
  xe_source : string;
  xe_metadata : option string;
  xe_created_at : Z
}.

Inductive Level := novice | adventurer | veteran | legend.

Global Instance Level_eq_dec : EqDecision Level.
Proof. solve_decision. Defined.

(** A row of [agent_stats], keyed by [moltbook_id] in the map that holds
    it. The three counters are nullable in the schema and the code can
    store [NULL] in them, so they are options. *)
Record AgentStats := {
  display_name : option string;
  total_xp : Z;
  current_level : Level;
  lifetime_sessions : option Z;
  lifetime_wins : option Z;
  lifetime_gold : Z;
  dm_sessions : option Z;
  last_session_at : option Z;
  stats_created_at : option Z
}.

(** A row of [action_log]. *)
Record ActionLogRow := {
  al_action_id : string;
  al_session_id : Z;
  al_moltbook_id : string;
  al_action_type : string;
  al_epoch_id : Z;
  al_action_text : option string;
  al_dm_actions_json : option string;
  al_created_at : Z
}.

Record Db := {
  tx_queue : list TxRow;
  xp_events : list XpEvent;
  agent_stats : gmap string AgentStats;
  action_log : list ActionLogRow;
  wallet_bindings : gmap string string;
  in_transaction : bool
}.

Definition empty_db : Db :=
  {| tx_queue := []; xp_events := []; agent_stats := ∅;
     action_log := []; wallet_bindings := ∅; in_transaction := false |}.

Definition set_tx_queue (q : list TxRow) (db : Db) : Db :=
  {| tx_queue := q; xp_events := xp_events db; agent_stats := agent_stats db;
     action_log := action_log db; wallet_bindings := wallet_bindings db;
     in_transaction := in_transaction db |}.

Definition set_xp_events (l : list XpEvent) (db : Db) : Db :=
  {| tx_queue := tx_queue db; xp_events := l; agent_stats := agent_stats db;
     action_log := action_log db; wallet_bindings := wallet_bindings db;
     in_transaction := in_transaction db |}.

Definition set_agent_stats (m : gmap string AgentStats) (db : Db) : Db :=
  {| tx_queue := tx_queue db; xp_events := xp_events db; agent_stats := m;
     action_log := action_log db; wallet_bindings := wallet_bindings db;
     in_transaction := in_transaction db |}.

Definition set_action_log (l : list ActionLogRow) (db : Db) : Db :=
  {| tx_queue := tx_queue db; xp_events := xp_events db;
     agent_stats := agent_stats db; action_log := l;
     wallet_bindings := wallet_bindings db; in_transaction := in_transaction db |}.

Definition set_in_transaction (b : bool) (db : Db) : Db :=
  {| tx_queue := tx_queue db; xp_events := xp_events db;
     agent_stats := agent_stats db; action_log := action_log db;
     wallet_bindings := wallet_bindings db; in_transaction := b |}.

(** ** The connection and its transaction (gateway/db_backend.py)

    [SQLiteBackend] holds one [aiosqlite] connection for the process, opened
    with the driver's default isolation level: before an [INSERT], [UPDATE]
    or [DELETE] the driver opens a transaction when none is open, and only
    [commit] and [rollback] close it. A statement that is refused leaves
    the transaction open. *)

(** What the driver does before a statement that changes data. *)
Definition implicit_begin (db : Db) : Db := set_in_transaction true db.

(** [db.begin()], which executes [BEGIN]: SQLite refuses it inside a
    transaction. *)
Definition begin : M Db unit :=
  fun db =>
    if in_transaction db
    then (inl (OperationalError "cannot start a transaction within a transaction"),
          db)
    else (inr tt, set_in_transaction true db).

(** [db.commit()] *)
Definition commit : M Db unit := modify (set_in_transaction false).

(** [db.rollback()], back to the tables [saved] when the transaction
    started. *)
Definition rollback (saved : Db) : M Db unit := put (set_in_transaction false saved).

(** An integer bound to a statement has to fit the 64-bit [INTEGER] of
    SQLite: the driver raises [OverflowError] otherwise, after it has
    opened the transaction and before the statement runs. *)
Definition fits_int64 (n : Z) : bool :=
  (-9223372036854775808 <=? n) && (n <=? 9223372036854775807).

Definition bind_integers (params : list Z) : M Db unit :=
  fun db =>
    if forallb fits_int64 params then (inr tt, db)
    else (inl (OverflowError "Python int too large to convert to SQLite INTEGER"), db).

(** ** The XP ledger (gateway/database.py) *)

(** SQL arithmetic on a nullable column: [col + 1]. *)
Definition sql_succ (c : option Z) : option Z := (fun n => n + 1) <$> c.

(** SQL [SUM] over the selected rows: [NULL] when no row is selected. *)
Definition sql_sum (l : list Z) : option Z :=
  match l with
  | [] => None
  | _ => Some (foldr Z.add 0 l)
  end.

(** SQL [COALESCE(x, d)]. *)
Definition coalesce (x : option Z) (d : Z) : Z := default d x.

(** The [CASE ... END] of the upsert in [award_xp]. *)
Definition level_case (xp : Z) : Level :=
  if 10000 <=? xp then legend
  else if 2000 <=? xp then veteran
  else if 500 <=? xp then adventurer
  else novice.

(** The [INSERT INTO xp_events]: its four integers are bound first, and
    [idempotency_key] is [UNIQUE]. *)
Definition insert_xp_event (e : XpEvent) : M Db unit :=
  let* _ := bind_integers [xe_session_id e; xe_epoch_id e; xe_xp_amount e;
                           xe_gold_amount e] in
  fun db =>
    if existsb (fun r => String.eqb (xe_idempotency_key r) (xe_idempotency_key e))
               (xp_events db)
    then (inl (IntegrityError "UNIQUE constraint failed: xp_events.idempotency_key"), db)
    else (inr tt, set_xp_events (xp_events db ++ [e]) db).

(** The [INSERT INTO agent_stats ... ON CONFLICT(moltbook_id) DO UPDATE] of
    [award_xp]. Without a conflict the row is inserted with the four listed
    columns and the schema defaults for the others; with one, the totals
    are added and the level is recomputed. The sums are those of SQLite as
    long as they fit 64 bits; beyond that SQLite stores a [REAL] in the
    column, which the row of the embedding cannot hold, so the properties
    that range over amounts state that the totals fit. *)
Definition upsert_award (moltbook_id : string) (xp gold now : Z) : M Db unit :=
  modify (fun db =>
    match agent_stats db !! moltbook_id with
    | None =>
        set_agent_stats
          (<[moltbook_id :=
               {| display_name := None; total_xp := xp; current_level := novice;
                  lifetime_sessions := Some 0; lifetime_wins := Some 0;
                  lifetime_gold := gold; dm_sessions := Some 0;
                  last_session_at := None; stats_created_at := Some now |}]>
             (agent_stats db)) db
    | Some s =>
        set_agent_stats
          (<[moltbook_id :=
               {| display_name := display_name s;
                  total_xp := total_xp s + xp;
                  current_level := level_case (total_xp s + xp);
                  lifetime_sessions := lifetime_sessions s;
                  lifetime_wins := lifetime_wins s;
                  lifetime_gold := lifetime_gold s + gold;
                  dm_sessions := dm_sessions s;
                  last_session_at := last_session_at s;
                  stats_created_at := stats_created_at s |}]>
             (agent_stats db)) db
    end).

(** [UPDATE agent_stats SET ... WHERE moltbook_id = ?] *)
Definition update_stats (moltbook_id : string) (f : AgentStats -> AgentStats) : M Db unit :=
  modify (fun db => set_agent_stats (alter f moltbook_id (agent_stats db)) db).

Definition bump_dm_sessions (s : AgentStats) : AgentStats :=
  {| display_name := display_name s; total_xp := total_xp s;
     current_level := current_level s;
     lifetime_sessions := lifetime_sessions s; lifetime_wins := lifetime_wins s;
     lifetime_gold := lifetime_gold s; dm_sessions := sql_succ (dm_sessions s);
     last_session_at := last_session_at s; stats_created_at := stats_created_at s |}.

Definition bump_lifetime_sessions (now : Z) (s : AgentStats) : AgentStats :=
  {| display_name := display_name s; total_xp := total_xp s;
     current_level := current_level s;
     lifetime_sessions := sql_succ (lifetime_sessions s);
     lifetime_wins := lifetime_wins s;
     lifetime_gold := lifetime_gold s; dm_sessions := dm_sessions s;
     last_session_at := Some now; stats_created_at := stats_created_at s |}.

Definition bump_lifetime_wins (s : AgentStats) : AgentStats :=
  {| display_name := display_name s; total_xp := total_xp s;
     current_level := current_level s;
     lifetime_sessions := lifetime_sessions s;
     lifetime_wins := sql_succ (lifetime_wins s);
     lifetime_gold := lifetime_gold s; dm_sessions := dm_sessions s;
     last_session_at := last_session_at s; stats_created_at := stats_created_at s |}.

(** The test of the [except] clause of [award_xp] and [log_action]. *)
Definition is_duplicate_error (e : Exn) : bool :=
  let err_str := lower (str e) in
  (contains "unique" err_str || contains "integrity" err_str
   || contains "duplicate" err_str)%bool.

(** [award_xp]. The [try] block starts with [db.begin()], so the call
    fails when it finds a transaction open. No store function returns with
    uncommitted changes (each commits what it wrote, or its first statement
    was refused), so the tables at the call are the tables every
    [rollback] of the [except] clause goes back to. *)
Definition award_xp (now : Z) (idempotency_key moltbook_id : string)
    (session_id epoch_id : Z) (event_type : string) (xp_amount gold_amount : Z)
    (source : string) (metadata : option string) : M Db bool :=
  let* at_begin := get in
  try_except
    (let* _ := begin in
     let* _ := insert_xp_event
       {| xe_idempotency_key := idempotency_key; xe_moltbook_id := moltbook_id;
          xe_session_id := session_id; xe_epoch_id := epoch_id;
          xe_event_type := event_type; xe_xp_amount := xp_amount;
          xe_gold_amount := gold_amount; xe_source := source;
          xe_metadata := metadata; xe_created_at := now |} in
     let* _ := upsert_award moltbook_id xp_amount gold_amount now in
     let* _ := (if String.eqb event_type "dm_hosted" then
        update_stats moltbook_id bump_dm_sessions
      else if String.eqb event_type "session_complete" then
        update_stats moltbook_id (bump_lifetime_sessions now)
      else if String.eqb event_type "win" then
        update_stats moltbook_id bump_lifetime_wins
      else ret tt) in
     let* _ := commit in
     ret true)
    (fun e =>
       if is_duplicate_error e then let* _ := rollback at_begin in ret false
       else let* _ := rollback at_begin in raise e).

(** [rebuild_agent_stats]. An aggregate query without [GROUP BY] returns
    exactly one row, so the [if not rows: return] is never taken. *)
Definition rebuild_agent_stats (now : Z) (moltbook_id : string) : M Db unit :=
  let* _ := modify (fun db =>
    let rows := filter (fun e => xe_moltbook_id e = moltbook_id) (xp_events db) in
    let r_total_xp := coalesce (sql_sum (xe_xp_amount <$> rows)) 0 in
    let r_total_gold := coalesce (sql_sum (xe_gold_amount <$> rows)) 0 in
    let count_type (t : string) :=
      sql_sum ((fun e => if String.eqb (xe_event_type e) t then 1 else 0) <$> rows) in
    let r_sessions := count_type "session_complete" in
    let r_wins := count_type "win" in
    let r_dm_sessions := count_type "dm_hosted" in
    let level :=
      if 10000 <=? r_total_xp then legend
      else if 2000 <=? r_total_xp then veteran
      else if 500 <=? r_total_xp then adventurer
      else novice in
    match agent_stats db !! moltbook_id with
    | None =>
        set_agent_stats
          (<[moltbook_id :=
               {| display_name := None; total_xp := r_total_xp;
                  current_level := level;
                  lifetime_sessions := r_sessions; lifetime_wins := r_wins;
                  lifetime_gold := r_total_gold; dm_sessions := r_dm_sessions;
                  last_session_at := None; stats_created_at := Some now |}]>
             (agent_stats db)) db
    | Some s =>
        set_agent_stats
          (<[moltbook_id :=
               {| display_name := display_name s; total_xp := r_total_xp;
                  current_level := level;
                  lifetime_sessions := r_sessions; lifetime_wins := r_wins;
                  lifetime_gold := r_total_gold; dm_sessions := r_dm_sessions;
                  last_session_at := last_session_at s;
                  stats_created_at := stats_created_at s |}]>
             (agent_stats db)) db
    end) in
  commit.

(** ** The transaction queue (gateway/database.py) *)

(** [id INTEGER PRIMARY KEY AUTOINCREMENT]: one more than the largest id the
    table holds (no code path deletes from [tx_queue]). *)
Definition next_tx_id (q : list TxRow) : Z := 1 + foldr Z.max 0 (tx_id <$> q).

Definition same_action (moltbook_id action_id : string) (r : TxRow) : bool :=
  (String.eqb (tx_moltbook_id r) moltbook_id
   && String.eqb (tx_action_id r) action_id)%bool.

(** [enqueue_tx]: a plain [INSERT] and a [commit]; the table's
    [UNIQUE(moltbook_id, action_id)] makes the [INSERT] raise on a pair that
    is already there, and the function has no handler, so the transaction
    the driver opened stays open. *)
Definition enqueue_tx (now : Z) (action_id moltbook_id method : string)
    (params : list Json) : M Db Z :=
  fun db =>
    if existsb (same_action moltbook_id action_id) (tx_queue db)
    then (inl (IntegrityError
                 "UNIQUE constraint failed: tx_queue.moltbook_id, tx_queue.action_id"),
          implicit_begin db)
    else
      let id := next_tx_id (tx_queue db) in
      (inr id,
       set_in_transaction false
         (set_tx_queue
            (tx_queue db ++
               [{| tx_id := id; tx_action_id := action_id;
                   tx_moltbook_id := moltbook_id; tx_method := method;
                   tx_params := params; tx_status := pending; tx_hash := None;
                   tx_error := None; tx_created_at := now; tx_updated_at := now |}])
            db)).

Definition get_tx (id : Z) (db : Db) : option TxRow :=
  find (fun r => tx_id r =? id) (tx_queue db).

Definition get_tx_by_action (moltbook_id action_id : string) (db : Db) : option TxRow :=
  find (same_action moltbook_id action_id) (tx_queue db).

(** [ORDER BY created_at] *)
Definition by_created_at (a b : TxRow) : Prop := tx_created_at a <= tx_created_at b.

Global Instance by_created_at_dec : RelDecision by_created_at.
Proof. intros a b. unfold by_created_at. apply _. Defined.

(** [SELECT * FROM tx_queue WHERE status = 'pending' ORDER BY created_at
    LIMIT ?] *)
Definition get_pending_txs (limit : nat) (db : Db) : list TxRow :=
  take limit
    (merge_sort by_created_at
       (filter (fun r => tx_status r = pending) (tx_queue db))).

(** The [UPDATE] of [update_tx_status] assigns the three columns it is
    given, and [tx_hash] and [error] default to [None]. *)
Definition set_status (now : Z) (status : Status) (hash error : option string)
    (r : TxRow) : TxRow :=
  {| tx_id := tx_id r; tx_action_id := tx_action_id r;
     tx_moltbook_id := tx_moltbook_id r; tx_method := tx_method r;
     tx_params := tx_params r; tx_status := status; tx_hash := hash;
     tx_error := error; tx_created_at := tx_created_at r; tx_updated_at := now |}.

Definition update_tx_status (now : Z) (id : Z) (status : Status)
    (hash error : option string) : M Db unit :=
  let* _ := modify (fun db =>
    set_tx_queue
      ((fun r => if tx_id r =? id then set_status now status hash error r else r)
         <$> tx_queue db) db) in
  commit.

(** [count_recent_txs], with its default [window_seconds=3600]. *)
Definition count_recent_txs (now : Z) (moltbook_id : string) (db : Db) : Z :=
  Z.of_nat (length (filter
    (fun r => tx_moltbook_id r = moltbook_id /\ now - 3600 < tx_created_at r)
    (tx_queue db))).

(** [log_action]: [action_log.action_id] is [UNIQUE]; a duplicate is
    reported as [False]. The [except] clause returns without a [rollback],
    so the transaction of the refused [INSERT] stays open. The session id
    and the epoch are those of the contract, taken to fit 64 bits. *)
Definition log_action (now : Z) (action_id : string) (session_id : Z)
    (moltbook_id action_type : string) (epoch_id : Z)
    (action_text dm_actions_json : option string) : M Db bool :=
  try_except
    (let* _ := (fun db =>
       if existsb (fun r => String.eqb (al_action_id r) action_id) (action_log db)
       then (inl (IntegrityError "UNIQUE constraint failed: action_log.action_id"),
             implicit_begin db)
       else (inr tt,
             set_action_log
               (action_log db ++
                  [{| al_action_id := action_id; al_session_id := session_id;
                      al_moltbook_id := moltbook_id; al_action_type := action_type;
                      al_epoch_id := epoch_id; al_action_text := action_text;
                      al_dm_actions_json := dm_actions_json;
                      al_created_at := now |}]) (implicit_begin db))) in
     let* _ := commit in
     ret true)
    (fun e => if is_duplicate_error e then ret false else raise e).

Definition get_wallet_binding (moltbook_id : string) (db : Db) : option string :=
  wallet_bindings db !! moltbook_id.

(** ** Settings (gateway/config.py): the defaults *)

Record Settings := { chain_id : Z; max_tx_per_hour : Z }.

Definition settings : Settings := {| chain_id := 10143; max_tx_per_hour := 10 |}.

(** ** What the handlers read from the ledger (gateway/contract.py) *)

(** [SESSION_STATES.get(state, "Unknown")] *)
Definition SESSION_STATES (state : Z) : string :=
  if state =? 0 then "Waiting"
  else if state =? 1 then "WaitingDM"
  else if state =? 2 then "Active"
  else if state =? 3 then "Completed"
  else if state =? 4 then "Failed"
  else if state =? 5 then "Cancelled"
  else if state =? 6 then "TimedOut"
  else "Unknown".

(** The fields of the dictionary of [get_session_info] that the handlers
    read; [state_name] is computed from [state]. *)
Record SessionInfo := {
  si_dm : option string;
  si_state : Z;
  si_current_turn : Z;
  si_current_actor : option string;
  si_dm_epoch : Z
}.

Definition state_name (info : SessionInfo) : string := SESSION_STATES (si_state info).

Record EpochInfo := { current_epoch : Z; epoch_state_raw : Z }.

Definition epoch_state (e : EpochInfo) : string :=
  if epoch_state_raw e =? 0 then "Active" else "Grace".

(** The answers of the contract during one request: [get_session_info]
    gives [None] for a session it cannot read, [get_epoch_info] gives the
    empty dictionary (here [None]) when the call fails. *)
Record Ledger := {
  get_session_info : Z -> option SessionInfo;
  get_epoch_info : option EpochInfo
}.

(** ** The game endpoints (gateway/main.py) *)

Record TxStatusResponse := {
  resp_id : Z;
  resp_action_id : string;
  resp_status : Status;
  resp_tx_hash : option string;
  resp_error : option string
}.

Inductive Response :=
| TxStatus (r : TxStatusResponse)
| JSONResponse (status_code : Z) (content : list (string * Json)).

Definition error_response (code message : string) (status : Z)
    (kwargs : list (string * Json)) : Response :=
  JSONResponse status ([("error", JStr code); ("message", JStr message)] ++ kwargs).

Definition validate_turn_index (ledger : Ledger) (session_id turn_index : Z)
    : Response + SessionInfo :=
  match get_session_info ledger session_id with
  | None =>
      inl (error_response "SESSION_NOT_FOUND"
             ("Session " ++ pretty session_id ++ " not found") 404 [])
  | Some info =>
      if negb (si_state info =? 2) then
        inl (error_response "SESSION_NOT_ACTIVE"
               ("Session is in state " ++ state_name info ++ ", not Active")
               409 [("current_state", JInt (si_state info))])
      else if negb (turn_index =? si_current_turn info) then
        inl (error_response "TURN_MISMATCH"
               ("Expected turn " ++ pretty (si_current_turn info)
                ++ ", got " ++ pretty turn_index)
               409 [("expected", JInt (si_current_turn info));
                    ("got", JInt turn_index)])
      else inr info
  end.

Definition _check_rate_limit (now : Z) (moltbook_id : string) : M Db unit :=
  fun db =>
    if max_tx_per_hour settings <=? count_recent_txs now moltbook_id db
    then (inl (HTTPException 429 "Rate limit exceeded (10 tx/hour)"), db)
    else (inr tt, db).

Definition _check_idempotency (moltbook_id action_id : string)
    : M Db (option TxStatusResponse) :=
  fun db =>
    match get_tx_by_action moltbook_id action_id db with
    | Some existing =>
        (inr (Some {| resp_id := tx_id existing;
                      resp_action_id := tx_action_id existing;
                      resp_status := tx_status existing;
                      resp_tx_hash := tx_hash existing;
                      resp_error := tx_error existing |}), db)
    | None => (inr None, db)
    end.

Definition queued (tx_id : Z) (action_id : string) : Response :=
  TxStatus {| resp_id := tx_id; resp_action_id := action_id;
              resp_status := pending; resp_tx_hash := None; resp_error := None |}.

Record EnterDungeonRequest := { ed_dungeon_id : Z; ed_action_id : string }.

(** [POST /game/enter]; [moltbook_id] is [claims["sub"]]. *)
Definition game_enter (ledger : Ledger) (now : Z) (req : EnterDungeonRequest)
    (moltbook_id : string) : M Db Response :=
  let* _ := _check_rate_limit now moltbook_id in
  let epoch_info := get_epoch_info ledger in
  match (match epoch_info with
         | Some ei =>
             if negb (epoch_state_raw ei =? 0) then
               Some (error_response "EPOCH_NOT_ACTIVE"
                       "Cannot enter dungeon during Grace period. Wait for next epoch."
                       409 [("current_epoch", JInt (current_epoch ei));
                            ("epoch_state", JStr (epoch_state ei))])
             else None
         | None => None
         end) with
  | Some rejected => ret rejected
  | None =>
      let* existing := _check_idempotency moltbook_id (ed_action_id req) in
      match existing with
      | Some r => ret (TxStatus r)
      | None =>
          let params := [JInt (ed_dungeon_id req)] in
          let* tx_id := enqueue_tx now (ed_action_id req) moltbook_id
                          "enterDungeon" params in
          let* _ := log_action now (ed_action_id req) 0 moltbook_id "enter"
                      (from_option current_epoch 0 epoch_info) None None in
          ret (queued tx_id (ed_action_id req))
      end
  end.

Record SubmitActionRequest := {
  sa_session_id : Z;
  sa_turn_index : Z;
  sa_action : string;
  sa_action_id : string
}.

(** [POST /game/action] *)
Definition game_action (ledger : Ledger) (now : Z) (req : SubmitActionRequest)
    (moltbook_id : string) : M Db Response :=
  let* _ := _check_rate_limit now moltbook_id in
  let* existing := _check_idempotency moltbook_id (sa_action_id req) in
  match existing with
  | Some r => ret (TxStatus r)
  | None =>
      match validate_turn_index ledger (sa_session_id req) (sa_turn_index req) with
      | inl validation => ret validation
      | inr _ =>
          let* db := get in
          match get_wallet_binding moltbook_id db with
          | None => raise (HTTPException 400 "Link wallet first via /auth/link-simple")
          | Some player_address =>
              let params := [JInt (sa_session_id req); JInt (sa_turn_index req);
                             JStr (sa_action req); JStr player_address] in
              let* tx_id := enqueue_tx now (sa_action_id req) moltbook_id
                              "submitAction" params in
              let ei := get_epoch_info ledger in
              let* _ := log_action now (sa_action_id req) (sa_session_id req)
                          moltbook_id "action" (from_option current_epoch 0 ei)
                          None None in
              ret (queued tx_id (sa_action_id req))
          end
      end
  end.

(** *** Two requests in flight

    A handler gives up control at each [await] of a store operation, and
    another request can run before it goes on. [POST /game/enter] has four
    such points: the count of [_check_rate_limit], the lookup of
    [_check_idempotency], [enqueue_tx] and [log_action]. The epoch check
    between the first two reads the contract and not the store. *)

(** Where a request of [game_enter] is: about to run one of its four store
    operations, or returned. *)
Inductive EnterPc :=
| AtRateLimit
| AtIdempotency
| AtEnqueue
| AtLogAction (tx_id : Z)
| Returned (r : Exn + Response).

(** One request of [POST /game/enter]: what the contract answers during
    it, its time, its body and its caller. *)
Record Entering := {
  en_ledger : Ledger;
  en_now : Z;
  en_req : EnterDungeonRequest;
  en_moltbook_id : string
}.

(** The request runs up to its next store operation and through it. *)
Definition step_enter (c : Entering) (pc : EnterPc) (db : Db) : EnterPc * Db :=
  let epoch_info := get_epoch_info (en_ledger c) in
  match pc with
  | AtRateLimit =>
      match _check_rate_limit (en_now c) (en_moltbook_id c) db with
      | (inl e, db') => (Returned (inl e), db')
      | (inr _, db') =>
          match epoch_info with
          | Some ei =>
              if negb (epoch_state_raw ei =? 0) then
                (Returned
                   (inr (error_response "EPOCH_NOT_ACTIVE"
                           "Cannot enter dungeon during Grace period. Wait for next epoch."
                           409 [("current_epoch", JInt (current_epoch ei));
                                ("epoch_state", JStr (epoch_state ei))])), db')
              else (AtIdempotency, db')
          | None => (AtIdempotency, db')
          end
      end
  | AtIdempotency =>
      match _check_idempotency (en_moltbook_id c) (ed_action_id (en_req c)) db with
      | (inl e, db') => (Returned (inl e), db')
      | (inr (Some existing), db') => (Returned (inr (TxStatus existing)), db')
      | (inr None, db') => (AtEnqueue, db')
      end
  | AtEnqueue =>
      match enqueue_tx (en_now c) (ed_action_id (en_req c)) (en_moltbook_id c)
              "enterDungeon" [JInt (ed_dungeon_id (en_req c))] db with
      | (inl e, db') => (Returned (inl e), db')
      | (inr tx_id, db') => (AtLogAction tx_id, db')
      end
  | AtLogAction tx_id =>
      match log_action (en_now c) (ed_action_id (en_req c)) 0 (en_moltbook_id c)
              "enter" (from_option current_epoch 0 epoch_info) None None db with
      | (inl e, db') => (Returned (inl e), db')
      | (inr _, db') => (Returned (inr (queued tx_id (ed_action_id (en_req c)))), db')
      end
  | Returned r => (Returned r, db)
  end.

(** A request that runs alone for [n] steps. *)
Fixpoint run_enter (n : nat) (c : Entering) (pc : EnterPc) (db : Db) : EnterPc * Db :=
  match n with
  | O => (pc, db)
  | S k => let '(pc', db') := step_enter c pc db in run_enter k c pc' db'
  end.

(** A schedule says which of two requests takes the next step: [true] the
    first, [false] the second. *)
Fixpoint run_schedule (sched : list bool) (a b : Entering) (pa pb : EnterPc)
    (db : Db) : EnterPc * EnterPc * Db :=
  match sched with
  | [] => (pa, pb, db)
  | true :: rest =>
      let '(pa', db') := step_enter a pa db in
      run_schedule rest a b pa' pb db'
  | false :: rest =>
      let '(pb', db') := step_enter b pb db in
      run_schedule rest a b pa pb' db'
  end.

(** The id a finished request reports to its caller, if it reports one. *)
Definition observed_id (pc : EnterPc) : option Z :=
  match pc with
  | Returned (inr (TxStatus r)) => Some (resp_id r)
  | _ => None
  end.

(** ** The nonce manager and the contract client (gateway/contract.py) *)

Record NonceManager := { _nonce : option Z }.

(** [NonceManager.get_nonce]. The body runs under [self._lock] and has no
    [await] of its own, so it is one atomic step; [transaction_count] is
    what [w3.eth.get_transaction_count(address, "pending")] answers if it
    is asked. A failed read leaves [_nonce] as it was. *)
Definition get_nonce (transaction_count : Exn + Z) : M NonceManager Z :=
  fun nm =>
    match _nonce nm with
    | None =>
        match transaction_count with
        | inr n => (inr n, {| _nonce := Some n |})
        | inl e => (inl e, nm)
        end
    | Some n => (inr (n + 1), {| _nonce := Some (n + 1) |})
    end.

(** [NonceManager.reset] *)
Definition reset : M NonceManager unit := put {| _nonce := None |}.

(** The dictionary handed to [build_transaction], with the call it is
    built for. *)
Record Transaction := {
  t_method : string;
  t_args : list Json;
  t_from : string;
  t_nonce : Z;
  t_chainId : Z;
  t_gas : Z;
  t_gasPrice : Z
}.

(** What the node answers during one call of [send_tx]. *)
Record Node := {
  encodes : string -> list Json -> bool;
  get_transaction_count : Exn + Z;
  gas_price : Exn + Z;
  send_raw_transaction : Transaction -> Exn + string
}.

(** The contract client with the module's [nonce_manager]; [runner_address]
    is [None] when no runner key is configured. [broadcasts] is not a field
    of the source: it records, oldest first, the transactions that
    [send_raw_transaction] accepted. *)
Record ContractClient := {
  runner_address : option string;
  nonce_manager : NonceManager;
  broadcasts : list Transaction
}.

Definition with_nonce_manager {A} (c : M NonceManager A) : M ContractClient A :=
  fun cl =>
    let '(r, nm) := c (nonce_manager cl) in
    (r, {| runner_address := runner_address cl; nonce_manager := nm;
           broadcasts := broadcasts cl |}).

Definition record_broadcast (tx : Transaction) : M ContractClient unit :=
  modify (fun cl =>
    {| runner_address := runner_address cl; nonce_manager := nonce_manager cl;
       broadcasts := broadcasts cl ++ [tx] |}).

Definition of_answer {S A} (r : Exn + A) : M S A :=
  match r with
  | inl e => raise e
  | inr a => ret a
  end.

(** [ContractClient.send_tx(self, method, *args)]. The signature has no
    keyword parameter, so a call that passes one raises [TypeError] before
    the body runs; [kwargs] are the keyword arguments of the call. The
    only [await] of the body is [get_nonce], whose lock is never held
    across a suspension, and the calls to the node block: the event loop
    runs one [send_tx] to its end before the next, so the calls of
    concurrent tasks form a sequence. *)
Definition send_tx (node : Node) (method : string) (args : list Json)
    (kwargs : list (string * Json)) : M ContractClient string :=
  match kwargs with
  | (k, _) :: _ =>
      raise (TypeError ("ContractClient.send_tx() got an unexpected keyword argument '"
                        ++ k ++ "'"))
  | [] =>
      let* self := get in
      match runner_address self with
      | None => raise (RuntimeError "No runner private key configured")
      | Some address =>
          if negb (encodes node method args)
          then raise (Web3Error "Could not identify the intended function")
          else
            let* nonce := with_nonce_manager (get_nonce (get_transaction_count node)) in
            let* price := of_answer (gas_price node) in
            let adjusted_gas := price * 3 / 2 in
            let tx := {| t_method := method; t_args := args; t_from := address;
                         t_nonce := nonce; t_chainId := chain_id settings;
                         t_gas := 500000; t_gasPrice := adjusted_gas |} in
            let* tx_hash := of_answer (send_raw_transaction node tx) in
            let* _ := record_broadcast tx in
            ret tx_hash
      end
  end.

(** [POST /admin/mint-runner-tickets] (gateway/main.py). The first
    statement of the [try] block evaluates [os.path.join], and main.py does
    not import [os]: the name raises [NameError], which the [except] clause
    turns into the answer 500. The statements after it, which would read
    the transaction count from the node and send a transaction of the
    runner wallet, are never reached. *)
Definition admin_mint_runner_tickets (node : Node) : M ContractClient string :=
  try_except
    (let* tickets_abi_path :=
       (raise (NameError "name 'os' is not defined") : M ContractClient string) in
     let* self := get in
     let* nonce := of_answer (get_transaction_count node) in
     let* price := of_answer (gas_price node) in
     let tx := {| t_method := "mint";
                  t_args := [from_option JStr JNull (runner_address self); JInt 5];
                  t_from := default "" (runner_address self);
                  t_nonce := nonce; t_chainId := chain_id settings;
                  t_gas := 200000; t_gasPrice := price * 3 / 2 |} in
     let* tx_hash := of_answer (send_raw_transaction node tx) in
     let* _ := record_broadcast tx in
     ret tx_hash)
    (fun e => raise (HTTPException 500 (str e))).

(** A run of calls of [send_tx], each with the answers the node gives
    during it. *)
Record Call := { call_node : Node; call_method : string; call_args : list Json }.

Fixpoint send_all (calls : list Call) (cl : ContractClient)
    : list (Exn + string) * ContractClient :=
  match calls with
  | [] => ([], cl)
  | c :: rest =>
      let '(r, cl') := send_tx (call_node c) (call_method c) (call_args c) [] cl in
      let '(rs, cl'') := send_all rest cl' in
      (r :: rs, cl'')
  end.

(** The nonces of the accepted transactions, oldest first. *)
Definition broadcast_nonces (cl : ContractClient) : list Z := t_nonce <$> broadcasts cl.

(** Each element is its predecessor plus one. *)
Fixpoint consecutive (l : list Z) : Prop :=
  match l with
  | [] => True
  | x :: rest =>
      match rest with
      | [] => True
      | y :: _ => y = x + 1 /\ consecutive rest
      end
  end.

(** ** The worker (gateway/tx_worker.py) *)

Definition ENTRY_BOND : Z := 10000000000000000.

(** [receipt.get("status")] *)
Record Receipt := { receipt_status : option Z }.

(** The worker's [client]: the two methods it calls, over the client's own
    state [C], and what happens to that state while the worker sleeps.
    [client_get_receipt] catches every exception itself and answers [None]
    then, and for a transaction that has no receipt yet. *)
Record Client (C : Type) := {
  client_send_tx : string -> list Json -> list (string * Json) -> M C string;
  client_get_receipt : string -> C -> option Receipt;
  client_sleep : Z -> C -> C
}.
Arguments client_send_tx {C}.
Arguments client_get_receipt {C}.
Arguments client_sleep {C}.

Inductive LogLevel := info | warning | error.

Record World (C : Type) := {
  db : Db;
  client : C;
  clock : Z;
  log : list (LogLevel * string)
}.
Arguments db {C}.
Arguments client {C}.
Arguments clock {C}.
Arguments log {C}.

Section Worker.
Context {C : Type} (cli : Client C).

(** A store function, called at the current time. *)
Definition with_db {A} (f : Z -> M Db A) : M (World C) A :=
  fun w =>
    let '(r, d) := f (clock w) (db w) in
    (r, {| db := d; client := client w; clock := clock w; log := log w |}).

Definition with_client {A} (c : M C A) : M (World C) A :=
  fun w =>
    let '(r, c') := c (client w) in
    (r, {| db := db w; client := c'; clock := clock w; log := log w |}).

(** [await asyncio.sleep(seconds)] *)
Definition sleep (seconds : Z) : M (World C) unit :=
  modify (fun w =>
    {| db := db w; client := client_sleep cli seconds (client w);
       clock := clock w + seconds; log := log w |}).

Definition logger (level : LogLevel) (event : string) : M (World C) unit :=
  modify (fun w =>
    {| db := db w; client := client w; clock := clock w;
       log := log w ++ [(level, event)] |}).

(** The [for _ in range(n)] loop of [process_single_tx]: [true] when a
    receipt was found (the function returns from inside the loop),
    [false] when the loop runs out. *)
Fixpoint poll_receipt (n : nat) (tx : TxRow) (tx_hash : string) : M (World C) bool :=
  match n with
  | O => ret false
  | S k =>
      let* _ := sleep 2 in
      let* w := get in
      match client_get_receipt cli tx_hash (client w) with
      | Some receipt =>
          let status :=
            if bool_decide (receipt_status receipt = Some 1) then mined else failed in
          let* _ := with_db (fun now =>
                      update_tx_status now (tx_id tx) status (Some tx_hash) None) in
          let* _ :=
            (if bool_decide (status = mined) then
               let* _ := with_db (fun now =>
                           award_xp now ("tx_mined:" ++ pretty (tx_id tx))
                             (tx_moltbook_id tx) 0 0 ("tx_" ++ tx_method tx)
                             10 0 "tx_worker" None) in
               ret tt
             else ret tt) in
          let* _ := logger info "tx_mined" in
          ret true
      | None => poll_receipt k tx tx_hash
      end
  end.

Definition process_single_tx (tx : TxRow) : M (World C) unit :=
  let method := tx_method tx in
  let params := tx_params tx in
  try_except
    (let* _ := with_db (fun now =>
                 update_tx_status now (tx_id tx) submitting None None) in
     let value := if String.eqb method "enterDungeon" then ENTRY_BOND else 0 in
     let* tx_hash := with_client
                       (client_send_tx cli method params [("value", JInt value)]) in
     let* _ := with_db (fun now =>
                 update_tx_status now (tx_id tx) submitted (Some tx_hash) None) in
     let* _ := logger info "tx_submitted" in
     let* found := poll_receipt 15 tx tx_hash in
     if found then ret tt else logger warning "tx_receipt_timeout")
    (fun e =>
       let* _ := logger error "tx_failed" in
       with_db (fun now =>
         update_tx_status now (tx_id tx) failed None (Some (str e)))).

Fixpoint for_each (txs : list TxRow) : M (World C) unit :=
  match txs with
  | [] => ret tt
  | tx :: rest => let* _ := process_single_tx tx in for_each rest
  end.

(** [process_pending_txs]: one cycle of the worker loop. *)
Definition process_pending_txs : M (World C) unit :=
  let* w := get in
  for_each (get_pending_txs 5 (db w)).

End Worker.

(** The module's [client = ContractClient()] as the worker sees it, in front
    of a node that gives the same answers throughout; [receipts] is what
    [eth.get_transaction_receipt] finds for a hash. *)
Definition contract_client (node : Node) (receipts : string -> option Receipt)
    : Client ContractClient :=
  {| client_send_tx := send_tx node;
     client_get_receipt := fun tx_hash _ => receipts tx_hash;
     client_sleep := fun _ cl => cl |}.

(** *** The worker, one await at a time

    [process_single_tx] gives up control at each [await]: at its calls of
    [update_tx_status], at [send_tx], at each [asyncio.sleep] of the polling
    loop and at [award_xp]. A request handler, or another worker instance
    on the same store, runs in between. An [EntryPc] says which of these
    the worker is about to run for its entry. *)
Inductive EntryPc :=
| AtSubmitting
| AtSend
| AtSubmitted (tx_hash : string)
| AtPoll (remaining : nat) (tx_hash : string)
| AtResolved (status : Status) (tx_hash : string)
| AtAward
| AtExcept (e : Exn)
| EntryDone (r : Exn + unit).

(** Where an instance of the worker is in [process_pending_txs]: about to
    fetch its batch, at an entry of the batch with the entries still to
    come, or through. *)
Inductive WorkerPc :=
| AtFetch
| AtEntry (pc : EntryPc) (tx : TxRow) (rest : list TxRow)
| CycleDone (r : Exn + unit).

Section WorkerSteps.
Context {C : Type} (cli : Client C).

(** Inside the [try] block: on an exception the [except] clause is next. *)
Definition then_at {A} (c : M (World C) A) (next : A -> EntryPc) (w : World C)
    : EntryPc * World C :=
  match c w with
  | (inr a, w') => (next a, w')
  | (inl e, w') => (AtExcept e, w')
  end.

(** The worker runs up to the next [await] of [process_single_tx] and
    through it. *)
Definition step_entry (tx : TxRow) (pc : EntryPc) : World C -> EntryPc * World C :=
  let method := tx_method tx in
  let params := tx_params tx in
  match pc with
  | AtSubmitting =>
      then_at (with_db (fun now => update_tx_status now (tx_id tx) submitting None None))
        (fun _ => AtSend)
  | AtSend =>
      let value := if String.eqb method "enterDungeon" then ENTRY_BOND else 0 in
      then_at (with_client (client_send_tx cli method params [("value", JInt value)]))
        AtSubmitted
  | AtSubmitted tx_hash =>
      then_at
        (let* _ := with_db (fun now =>
                     update_tx_status now (tx_id tx) submitted (Some tx_hash) None) in
         logger info "tx_submitted")
        (fun _ => AtPoll 15 tx_hash)
  | AtPoll O tx_hash =>
      then_at (logger warning "tx_receipt_timeout") (fun _ => EntryDone (inr tt))
  | AtPoll (S k) tx_hash =>
      then_at
        (let* _ := sleep cli 2 in
         let* w := get in
         ret (client_get_receipt cli tx_hash (client w)))
        (fun receipt =>
           match receipt with
           | Some receipt =>
               AtResolved
                 (if bool_decide (receipt_status receipt = Some 1) then mined else failed)
                 tx_hash
           | None => AtPoll k tx_hash
           end)
  | AtResolved status tx_hash =>
      then_at
        (let* _ := with_db (fun now =>
                     update_tx_status now (tx_id tx) status (Some tx_hash) None) in
         if bool_decide (status = mined) then ret true
         else let* _ := logger info "tx_mined" in ret false)
        (fun award => if award then AtAward else EntryDone (inr tt))
  | AtAward =>
      then_at
        (let* _ := with_db (fun now =>
                     award_xp now ("tx_mined:" ++ pretty (tx_id tx))
                       (tx_moltbook_id tx) 0 0 ("tx_" ++ tx_method tx)
                       10 0 "tx_worker" None) in
         logger info "tx_mined")
        (fun _ => EntryDone (inr tt))
  | AtExcept e =>
      fun w =>
        let '(r, w') :=
          (let* _ := logger error "tx_failed" in
           with_db (fun now =>
             update_tx_status now (tx_id tx) failed None (Some (str e)))) w in
        (EntryDone r, w')
  | EntryDone r => fun w => (EntryDone r, w)
  end.

(** The [for] loop of [process_pending_txs] goes to its next entry. *)
Definition next_entry (txs : list TxRow) : WorkerPc :=
  match txs with
  | [] => CycleDone (inr tt)
  | tx :: rest => AtEntry AtSubmitting tx rest
  end.

Definition step_worker (pc : WorkerPc) (w : World C) : WorkerPc * World C :=
  match pc with
  | AtFetch => (next_entry (get_pending_txs 5 (db w)), w)
  | AtEntry p tx rest =>
      match step_entry tx p w with
      | (EntryDone (inr _), w') => (next_entry rest, w')
      | (EntryDone (inl e), w') => (CycleDone (inl e), w')
      | (p', w') => (AtEntry p' tx rest, w')
      end
  | CycleDone r => (CycleDone r, w)
  end.

(** An instance that runs alone for [n] steps. *)
Fixpoint run_worker (n : nat) (pc : WorkerPc) (w : World C) : WorkerPc * World C :=
  match n with
  | O => (pc, w)
  | S k => let '(pc', w') := step_worker pc w in run_worker k pc' w'
  end.

End WorkerSteps.

(** *** Worker instances on one store

    Each instance is a process with a client, a log and a connection of
    its own; the tables of the store and the time are shared. *)
Record Instance (C : Type) := {
  inst_pc : WorkerPc;
  inst_client : C;
  inst_log : list (LogLevel * string);
  inst_in_transaction : bool
}.
Arguments inst_pc {C}.
Arguments inst_client {C}.
Arguments inst_log {C}.
Arguments inst_in_transaction {C}.

Section Instances.
Context {C : Type} (cli : Client C).

Definition step_instance (i : Instance C) (store : Db) (time : Z)
    : Instance C * Db * Z :=
  let '(pc', w') :=
    step_worker cli (inst_pc i)
      {| db := set_in_transaction (inst_in_transaction i) store;
         client := inst_client i; clock := time; log := inst_log i |} in
  ({| inst_pc := pc'; inst_client := client w'; inst_log := log w';
      inst_in_transaction := in_transaction (db w') |}, db w', clock w').

(** Two instances under a schedule, [true] for a step of the first and
    [false] for one of the second: the store after each step. *)
Fixpoint run_instances (sched : list bool) (a b : Instance C) (store : Db) (time : Z)
    : list Db :=
  match sched with
  | [] => []
  | true :: rest =>
      let '(a', store', time') := step_instance a store time in
      store' :: run_instances rest a' b store' time'
  | false :: rest =>
      let '(b', store', time') := step_instance b store time in
      store' :: run_instances rest a b' store' time'
  end.

End Instances.

(** *** Operations on a queue entry *)

Inductive Op :=
| OpEnqueue (action_id moltbook_id method : string) (params : list Json)
| OpWorkerCycle
| OpTick (seconds : Z).

Section Ops.
Context {C : Type} (cli : Client C).

Definition run_op (op : Op) (w : World C) : World C :=
  match op with
  | OpEnqueue action_id moltbook_id method params =>
      snd (with_db (fun now => enqueue_tx now action_id moltbook_id method params) w)
  | OpWorkerCycle => snd (process_pending_txs cli w)
  | OpTick seconds => snd (sleep cli seconds w)
  end.

Definition run_ops (ops : list Op) (w : World C) : World C :=
  foldl (fun w op => run_op op w) w ops.

End Ops.

Definition initial_world {C} (c : C) (now : Z) : World C :=
  {| db := empty_db; client := c; clock := now; log := [] |}.

(** The order of the life cycle: [pending], [submitting], [submitted], then
    [mined] or [failed]. *)
Definition status_rank (s : Status) : Z :=
  match s with
  | pending => 0
  | submitting => 1
  | submitted => 2
  | mined => 3
  | failed => 3
  end.

Definition status_le (a b : Status) : Prop := a = b \/ status_rank a < status_rank b.

(** *** Histories of awards *)

(** One call of [award_xp] with its arguments. *)
Record Award := {
  aw_now : Z;
  aw_idempotency_key : string;
  aw_moltbook_id : string;
  aw_session_id : Z;
  aw_epoch_id : Z;
  aw_event_type : string;
  aw_xp_amount : Z;
  aw_gold_amount : Z;
  aw_source : string;
  aw_metadata : option string
}.

Definition award (a : Award) : M Db bool :=
  award_xp (aw_now a) (aw_idempotency_key a) (aw_moltbook_id a) (aw_session_id a)
    (aw_epoch_id a) (aw_event_type a) (aw_xp_amount a) (aw_gold_amount a)
    (aw_source a) (aw_metadata a).

(** The incremental path: the store after the calls of a history. *)
Definition replay (history : list Award) (db : Db) : Db :=
  foldl (fun db a => snd (award a db)) db history.

(** The six columns of [agent_stats] that are derived from the events. *)
Definition projection (s : AgentStats)
    : Z * Z * option Z * option Z * option Z * Level :=
  (total_xp s, lifetime_gold s, lifetime_sessions s, lifetime_wins s,
   dm_sessions s, current_level s).

Definition has_key (key : string) (e : XpEvent) : Prop := xe_idempotency_key e = key.

Global Instance has_key_dec key e : Decision (has_key key e).
Proof. unfold has_key. apply _. Defined.

(** *** Runs of [POST /game/enter] by one caller *)

Fixpoint enter_all (ledger : Ledger) (moltbook_id : string)
    (reqs : list (Z * EnterDungeonRequest)) (db : Db)
    : list (Exn + Response) * Db :=
  match reqs with
  | [] => ([], db)
  | (now, req) :: rest =>
      let '(r, db') := game_enter ledger now req moltbook_id db in
      let '(rs, db'') := enter_all ledger moltbook_id rest db' in
      (r :: rs, db'')
  end.

(** The entries of a caller. *)
Definition rows_of (moltbook_id : string) (db : Db) : list TxRow :=
  filter (fun r => tx_moltbook_id r = moltbook_id) (tx_queue db).

(** The entries of a (caller, action id) pair. *)
Definition rows_of_action (moltbook_id action_id : string) (db : Db) : list TxRow :=
  filter (fun r => tx_moltbook_id r = moltbook_id /\ tx_action_id r = action_id)
    (tx_queue db).

(** The contract is not in its grace phase, as far as [get_epoch_info]
    tells. *)
Definition epoch_open (ledger : Ledger) : Prop :=
  match get_epoch_info ledger with
  | Some ei => epoch_state_raw ei = 0
  | None => True
  end.

(** ** Definitions used to state the properties *)

Definition event_of (a : Award) : XpEvent :=
  {| xe_idempotency_key := aw_idempotency_key a; xe_moltbook_id := aw_moltbook_id a;
     xe_session_id := aw_session_id a; xe_epoch_id := aw_epoch_id a;
     xe_event_type := aw_event_type a; xe_xp_amount := aw_xp_amount a;
     xe_gold_amount := aw_gold_amount a; xe_source := aw_source a;
     xe_metadata := aw_metadata a; xe_created_at := aw_now a |}.

(** What the counter statement of [award_xp] does to the row. *)
Definition bump (a : Award) (s : AgentStats) : AgentStats :=
  if String.eqb (aw_event_type a) "dm_hosted" then bump_dm_sessions s
  else if String.eqb (aw_event_type a) "session_complete"
       then bump_lifetime_sessions (aw_now a) s
  else if String.eqb (aw_event_type a) "win" then bump_lifetime_wins s
  else s.

(** What the upsert of [award_xp] leaves in the row. *)
Definition upserted (a : Award) (old : option AgentStats) : AgentStats :=
  match old with
  | None =>
      {| display_name := None; total_xp := aw_xp_amount a; current_level := novice;
         lifetime_sessions := Some 0; lifetime_wins := Some 0;
         lifetime_gold := aw_gold_amount a; dm_sessions := Some 0;
         last_session_at := None; stats_created_at := Some (aw_now a) |}
  | Some s =>
      {| display_name := display_name s;
         total_xp := total_xp s + aw_xp_amount a;
         current_level := level_case (total_xp s + aw_xp_amount a);
         lifetime_sessions := lifetime_sessions s;
         lifetime_wins := lifetime_wins s;
         lifetime_gold := lifetime_gold s + aw_gold_amount a;
         dm_sessions := dm_sessions s;
         last_session_at := last_session_at s;
         stats_created_at := stats_created_at s |}
  end.

Definition awarded (a : Award) (db : Db) : Db :=
  {| tx_queue := tx_queue db;
     xp_events := xp_events db ++ [event_of a];
     agent_stats :=
       <[aw_moltbook_id a := bump a (upserted a (agent_stats db !! aw_moltbook_id a))]>
         (agent_stats db);
     action_log := action_log db;
     wallet_bindings := wallet_bindings db;
     in_transaction := false |}.

Definition award_A1 : Award :=
  {| aw_now := 100; aw_idempotency_key := "tx_mined:1"; aw_moltbook_id := "alice";
     aw_session_id := 0; aw_epoch_id := 0; aw_event_type := "tx_enterDungeon";
     aw_xp_amount := 10; aw_gold_amount := 0; aw_source := "tx_worker";
     aw_metadata := None |}.

Definition award_A2 : Award :=
  {| aw_now := 160; aw_idempotency_key := "tx_mined:1"; aw_moltbook_id := "alice";
     aw_session_id := 0; aw_epoch_id := 0; aw_event_type := "win";
     aw_xp_amount := 700; aw_gold_amount := 5; aw_source := "scenario_runner";
     aw_metadata := None |}.

Definition award_legend : Award :=
  {| aw_now := 100; aw_idempotency_key := "boss:1:bob"; aw_moltbook_id := "bob";
     aw_session_id := 1; aw_epoch_id := 0; aw_event_type := "action";
     aw_xp_amount := 10000; aw_gold_amount := 0; aw_source := "scenario_runner";
     aw_metadata := None |}.

Definition award_win : Award :=
  {| aw_now := 100; aw_idempotency_key := "win:7:alice"; aw_moltbook_id := "alice";
     aw_session_id := 7; aw_epoch_id := 0; aw_event_type := "win";
     aw_xp_amount := 500; aw_gold_amount := 0; aw_source := "scenario_runner";
     aw_metadata := None |}.

(** The key of [award_A1] again, with an amount one past the largest
    64-bit integer. *)
Definition award_huge : Award :=
  {| aw_now := 160; aw_idempotency_key := "tx_mined:1"; aw_moltbook_id := "alice";
     aw_session_id := 0; aw_epoch_id := 0; aw_event_type := "action";
     aw_xp_amount := 9223372036854775808; aw_gold_amount := 0;
     aw_source := "scenario_runner"; aw_metadata := None |}.

Definition events_of (m : string) (db : Db) : list XpEvent :=
  filter (fun e => xe_moltbook_id e = m) (xp_events db).

Definition total (l : list Z) : Z := foldr Z.add 0 l.

Definition occurrences (t : string) (rows : list XpEvent) : Z :=
  total ((fun e => if String.eqb (xe_event_type e) t then 1 else 0) <$> rows).

(** The row of a subject holds the sums and counts of the subject's events,
    and a subject without events has no row. *)
Definition stats_match_events (db : Db) : Prop :=
  forall m,
    match agent_stats db !! m with
    | None => events_of m db = []
    | Some s =>
        events_of m db <> []
        /\ total_xp s = total (xe_xp_amount <$> events_of m db)
        /\ lifetime_gold s = total (xe_gold_amount <$> events_of m db)
        /\ lifetime_sessions s = Some (occurrences "session_complete" (events_of m db))
        /\ lifetime_wins s = Some (occurrences "win" (events_of m db))
        /\ dm_sessions s = Some (occurrences "dm_hosted" (events_of m db))
    end.

Definition indicator (a : Award) (t : string) : Z :=
  if String.eqb (aw_event_type a) t then 1 else 0.

(** The integers of an award fit the 64-bit [INTEGER] of the store. *)
Definition binds (a : Award) : Prop :=
  forallb fits_int64 [aw_session_id a; aw_epoch_id a; aw_xp_amount a; aw_gold_amount a]
  = true.

(** A counter that is not [NULL] fits 64 bits with [d] added. *)
Definition counter_fits (d : Z) (c : option Z) : Prop :=
  forall n, c = Some n -> fits_int64 (n + d) = true.

(** The totals of the subject's row, if there is one, still fit 64 bits
    with the amounts of the award added, and its counters with one
    added. *)
Definition totals_fit (a : Award) (db : Db) : Prop :=
  forall s,
    agent_stats db !! aw_moltbook_id a = Some s ->
    fits_int64 (total_xp s + aw_xp_amount a) = true
    /\ fits_int64 (lifetime_gold s + aw_gold_amount a) = true
    /\ Forall (fun c => counter_fits 0 c /\ counter_fits 1 c)
         [lifetime_sessions s; lifetime_wins s; dm_sessions s].

(** A counter of the row after an award: the counter the row had, or the
    0 of a new row, plus one when the award has the counter's event type;
    [NULL] stays [NULL]. *)
Definition counted (a : Award) (t : string) (old : option (option Z)) : option Z :=
  (fun n => n + indicator a t) <$> default (Some 0) old.

(** The row [enqueue_tx] inserts. *)
Definition new_row (now : Z) (action_id moltbook_id method : string)
    (params : list Json) (db : Db) : TxRow :=
  {| tx_id := next_tx_id (tx_queue db); tx_action_id := action_id;
     tx_moltbook_id := moltbook_id; tx_method := method; tx_params := params;
     tx_status := pending; tx_hash := None; tx_error := None;
     tx_created_at := now; tx_updated_at := now |}.

Definition rate_limited : Exn := HTTPException 429 "Rate limit exceeded (10 tx/hour)".

Definition action_ids (reqs : list (Z * EnterDungeonRequest)) : list string :=
  (fun p => ed_action_id p.2) <$> reqs.

Definition quiet_ledger : Ledger :=
  {| get_session_info := fun _ => None;
     get_epoch_info := Some {| current_epoch := 4; epoch_state_raw := 0 |} |}.

Definition enter_req (n : Z) : Z * EnterDungeonRequest :=
  (1000 + 60 * n, {| ed_dungeon_id := 0; ed_action_id := "enter-" ++ pretty n |}).

Definition ten_enters : list (Z * EnterDungeonRequest) :=
  enter_req <$> [0; 1; 2; 3; 4; 5; 6; 7; 8; 9].

Definition turn_mismatch (expected got : Z) : Response :=
  error_response "TURN_MISMATCH"
    ("Expected turn " ++ pretty expected ++ ", got " ++ pretty got)
    409 [("expected", JInt expected); ("got", JInt got)].

(** The statement of C7 for one request: whenever the session is Active
    and the declared turn is not the current one, the request is answered
    with TURN_MISMATCH and the store is left as it was. *)
Definition rejects_turn_mismatch (ledger : Ledger) (now : Z)
    (req : SubmitActionRequest) (m : string) (db : Db) : Prop :=
  forall info,
    get_session_info ledger (sa_session_id req) = Some info ->
    si_state info = 2 ->
    sa_turn_index req <> si_current_turn info ->
    game_action ledger now req m db
    = (inr (turn_mismatch (si_current_turn info) (sa_turn_index req)), db).

Definition arena_ledger : Ledger :=
  {| get_session_info := fun sid =>
       if sid =? 1 then
         Some {| si_dm := Some "0xdm"; si_state := 2; si_current_turn := 3;
                 si_current_actor := Some "0xplayer"; si_dm_epoch := 0 |}
       else None;
     get_epoch_info := Some {| current_epoch := 4; epoch_state_raw := 0 |} |}.

Definition late_action : SubmitActionRequest :=
  {| sa_session_id := 1; sa_turn_index := 5; sa_action := "I attack!";
     sa_action_id := "act-1" |}.

(** The store after the ten admitted requests of [ten_enters]. *)
Definition busy_db : Db := snd (enter_all quiet_ledger "alice" ten_enters empty_db).

Definition unique_violation : Exn :=
  IntegrityError "UNIQUE constraint failed: tx_queue.moltbook_id, tx_queue.action_id".

(** The statement of C1 for two finished requests of one (caller, action
    id) pair: one entry, and both callers see its id. *)
Definition both_observe_one_entry (moltbook_id action_id : string)
    (pa pb : EnterPc) (db : Db) : Prop :=
  length (rows_of_action moltbook_id action_id db) = 1%nat
  /\ exists id, observed_id pa = Some id /\ observed_id pb = Some id.

(** A request of alice to enter dungeon 0 under the action id [enter-1]. *)
Definition enter_once (now : Z) : Entering :=
  {| en_ledger := quiet_ledger; en_now := now;
     en_req := {| ed_dungeon_id := 0; ed_action_id := "enter-1" |};
     en_moltbook_id := "alice" |}.

(** The first request runs its two checks, then the second runs its two
    checks, then the first inserts and logs, then the second inserts. *)
Definition racing : list bool := [true; true; false; false; true; true; false].

(** What one call of [send_tx] without keyword arguments does to the
    client: nothing, or it moves the cached nonce, or it moves the cached
    nonce and broadcasts a transaction that carries it. *)
Inductive send_outcome (cl : ContractClient) : (Exn + string) * ContractClient -> Prop :=
| send_untouched e :
    send_outcome cl (inl e, cl)
| send_nonce_spent e n :
    (forall m, _nonce (nonce_manager cl) = Some m -> n = m + 1) ->
    send_outcome cl
      (inl e, {| runner_address := runner_address cl;
                 nonce_manager := {| _nonce := Some n |};
                 broadcasts := broadcasts cl |})
| send_broadcast h n tx :
    (forall m, _nonce (nonce_manager cl) = Some m -> n = m + 1) ->
    t_nonce tx = n ->
    send_outcome cl
      (inr h, {| runner_address := runner_address cl;
                 nonce_manager := {| _nonce := Some n |};
                 broadcasts := broadcasts cl ++ [tx] |}).

(** Every nonce broadcast so far is at most the cached one. *)
Definition nonces_bounded (cl : ContractClient) : Prop :=
  Forall (fun x => exists n, _nonce (nonce_manager cl) = Some n /\ x <= n)
         (broadcast_nonces cl).

(** The cached nonce is the last one broadcast. *)
Definition cache_is_last (cl : ContractClient) : Prop :=
  forall x, last (broadcast_nonces cl) = Some x -> _nonce (nonce_manager cl) = Some x.

Definition steady_node (accepts : bool) : Node :=
  {| encodes := fun _ _ => true;
     get_transaction_count := inr 7;
     gas_price := inr 100;
     send_raw_transaction := fun tx =>
       if accepts then inr ("0xhash" ++ pretty (t_nonce tx))
       else inl (Web3Error "insufficient funds for gas * price + value") |}.

Definition call_on (accepts : bool) : Call :=
  {| call_node := steady_node accepts; call_method := "submitAction";
     call_args := [JInt 1; JInt 3; JStr "I attack!"; JStr "0xplayer"] |}.

Definition fresh_client : ContractClient :=
  {| runner_address := Some "0xrunner"; nonce_manager := {| _nonce := None |};
     broadcasts := [] |}.

(** The queue after [update_tx_status]. *)
Definition upd (now id : Z) (s : Status) (h e : option string) (q : list TxRow)
    : list TxRow :=
  (fun r => if tx_id r =? id then set_status now s h e r else r) <$> q.

(** The keyword argument the worker passes to [send_tx]. *)
Definition value_kwarg (tx : TxRow) : list (string * Json) :=
  [("value", JInt (if String.eqb (tx_method tx) "enterDungeon" then ENTRY_BOND else 0))].

(** A client whose node accepts every transaction and never shows a
    receipt. *)
Definition silent_client : Client unit :=
  {| client_send_tx := fun _ _ _ c => (inr "0xabc", c);
     client_get_receipt := fun _ _ => None;
     client_sleep := fun _ c => c |}.

Definition enter_row : TxRow :=
  {| tx_id := 1; tx_action_id := "enter-1"; tx_moltbook_id := "alice";
     tx_method := "enterDungeon"; tx_params := [JInt 0]; tx_status := pending;
     tx_hash := None; tx_error := None; tx_created_at := 1000;
     tx_updated_at := 1000 |}.

Definition one_pending {C} (c : C) : World C :=
  {| db := set_tx_queue [enter_row] empty_db; client := c; clock := 1005; log := [] |}.

(** [tx_hash] is set only on an entry that is [submitted] or later. *)
Definition row_ok (r : TxRow) : Prop :=
  tx_hash r = None \/ 2 <= status_rank (tx_status r).

(** The same entry, later: its status has not gone back and a hash it had
    is still there. *)
Definition advances (r r' : TxRow) : Prop :=
  tx_id r' = tx_id r
  /\ tx_action_id r' = tx_action_id r
  /\ tx_moltbook_id r' = tx_moltbook_id r
  /\ status_le (tx_status r) (tx_status r')
  /\ (forall h, tx_hash r = Some h -> tx_hash r' = Some h).

(** The same queue, later: every entry is still at its place and has
    advanced; entries may have been appended. *)
Definition queue_advances (q q' : list TxRow) : Prop :=
  exists q1 q2, q' = (q1 ++ q2)%list /\ Forall2 advances q q1.

Definition wf_queue (q : list TxRow) : Prop :=
  NoDup (tx_id <$> q) /\ Forall row_ok q.

(** The entries with one of these ids are still untouched. *)
Definition untouched (ids : list Z) (q : list TxRow) : Prop :=
  Forall (fun r => tx_id r ∈ ids -> tx_status r = pending /\ tx_hash r = None) q.

(** A client whose node accepts every transaction and shows a successful
    receipt at once. *)
Definition prompt_client : Client unit :=
  {| client_send_tx := fun _ _ _ c => (inr "0xabc", c);
     client_get_receipt := fun _ _ => Some {| receipt_status := Some 1 |};
     client_sleep := fun _ c => c |}.

Definition enter_op : Op := OpEnqueue "enter-1" "alice" "enterDungeon" [JInt 0].

Definition second_enter_op : Op := OpEnqueue "enter-2" "alice" "enterDungeon" [JInt 0].

(** A queue with a settled entry and a pending one: the first entry was
    submitted by a cycle that saw no receipt, the second came in after. *)
Definition settled_and_pending : World unit :=
  run_ops silent_client [enter_op; OpWorkerCycle; second_enter_op]
    (initial_world tt 1000).

(** ** Wallet linking (gateway/database.py, gateway/main.py) *)

(** A row of [nonces], keyed by [wallet_address] in the map that holds it. *)
Record NonceRow := { n_nonce : string; n_created_at : Z; n_expires_at : Z }.

(** The store as the linking endpoints use it: the tables of [Db], the
    table [nonces], and the column [linked_at] of [wallet_bindings], keyed
    by [moltbook_id] like the binding it belongs to. *)
Record Store := {
  store_db : Db;
  nonces : gmap string NonceRow;
  linked_at : gmap string Z
}.

Definition empty_store : Store :=
  {| store_db := empty_db; nonces := ∅; linked_at := ∅ |}.

Definition with_store_db {A} (c : M Db A) : M Store A :=
  fun s =>
    let '(r, d) := c (store_db s) in
    (r, {| store_db := d; nonces := nonces s; linked_at := linked_at s |}).

Definition set_wallet_bindings (m : gmap string string) (db : Db) : Db :=
  {| tx_queue := tx_queue db; xp_events := xp_events db;
     agent_stats := agent_stats db; action_log := action_log db;
     wallet_bindings := m; in_transaction := in_transaction db |}.

(** [create_wallet_binding]: [INSERT ... ON CONFLICT(moltbook_id) DO UPDATE]
    of both columns, and a [commit]. *)
Definition create_wallet_binding (now : Z) (moltbook_id wallet_address : string)
    : M Store unit :=
  modify (fun s =>
    {| store_db :=
         set_in_transaction false
           (set_wallet_bindings
              (<[moltbook_id := wallet_address]> (wallet_bindings (store_db s)))
              (store_db s));
       nonces := nonces s;
       linked_at := <[moltbook_id := now]> (linked_at s) |}).

(** [store_nonce]: one row per wallet, replaced by a later call; the
    [commit] closes the transaction. *)
Definition store_nonce (now : Z) (wallet_address nonce : string) (ttl : Z)
    : M Store unit :=
  modify (fun s =>
    {| store_db := set_in_transaction false (store_db s);
       nonces := <[wallet_address :=
                     {| n_nonce := nonce; n_created_at := now;
                        n_expires_at := now + ttl |}]> (nonces s);
       linked_at := linked_at s |}).

(** [consume_nonce]: the [SELECT] sees the row only while [expires_at > now];
    the [DELETE] and the [commit] run only when it saw one. *)
Definition consume_nonce (now : Z) (wallet_address : string)
    : M Store (option string) :=
  fun s =>
    match nonces s !! wallet_address with
    | Some row =>
        if now <? n_expires_at row then
          (inr (Some (n_nonce row)),
           {| store_db := set_in_transaction false (store_db s);
              nonces := delete wallet_address (nonces s);
              linked_at := linked_at s |})
        else (inr None, s)
    | None => (inr None, s)
    end.

Definition newline : string := String (ascii_of_nat 10) EmptyString.

(** The text a wallet signs. *)
Definition link_message (nonce : string) : string :=
  "Link wallet to Dungeons Gateway" ++ newline ++ "Nonce: " ++ nonce.

Record NonceResponse := { nr_nonce : string; nr_message : string; nr_expires_in : Z }.

(** [GET /auth/nonce]; [nonce] is what [generate_nonce()] drew. *)
Definition auth_nonce (now : Z) (nonce wallet_address : string)
    : M Store NonceResponse :=
  let* _ := store_nonce now (lower wallet_address) nonce 300 in
  ret {| nr_nonce := nonce; nr_message := link_message nonce; nr_expires_in := 300 |}.

Record LinkWalletRequest := { lw_wallet_address : string; lw_signature : string }.

Record LinkWalletResponse := { lw_success : bool; lw_linked : string }.

Record SimpleLinkResponse := { sl_ok : bool; sl_wallet : string; sl_message : string }.

Section Linking.

(** [w3.eth.account.recover_message(message, signature=signature)]: the
    address that signed, or the exception of a malformed signature. *)
Variable recover_message : string -> string -> Exn + string.

(** [Web3.to_checksum_address], which raises on a text that is no address. *)
Variable to_checksum_address : string -> Exn + string.

(** [verify_signature] (gateway/auth.py): every exception is [False]. *)
Definition verify_signature (wallet_address nonce signature : string) : bool :=
  match recover_message (link_message nonce) signature with
  | inr recovered => String.eqb (lower recovered) (lower wallet_address)
  | inl _ => false
  end.

(** [POST /auth/link]; [moltbook_id] is [claims["sub"]]. An empty nonce is
    as good as none for [if not nonce]. *)
Definition auth_link (now : Z) (req : LinkWalletRequest) (moltbook_id : string)
    : M Store LinkWalletResponse :=
  let wallet := lower (lw_wallet_address req) in
  let* nonce := consume_nonce now wallet in
  match nonce with
  | None | Some EmptyString =>
      raise (HTTPException 400 "No valid nonce found. Request one first.")
  | Some nonce =>
      if negb (verify_signature wallet nonce (lw_signature req))
      then raise (HTTPException 400 "Invalid signature")
      else
        let* _ := create_wallet_binding now moltbook_id wallet in
        ret {| lw_success := true; lw_linked := wallet |}
  end.

(** [POST /auth/link-simple]. The [try] block around the ticket mint calls
    [client.send_tickets_mint], a method [ContractClient] does not define;
    the [except] clause catches the error and logs a warning, so the block
    leaves the store as it is. *)
Definition auth_link_simple (now : Z) (wallet_address moltbook_id : string)
    : M Store SimpleLinkResponse :=
  let* wallet := of_answer (to_checksum_address wallet_address) in
  let* s := get in
  match get_wallet_binding moltbook_id (store_db s) with
  | Some _ => raise (HTTPException 400 "Wallet already linked. Cannot re-link.")
  | None =>
      let* _ := create_wallet_binding now moltbook_id wallet in
      let* _ := with_store_db
                  (enqueue_tx now ("register:" ++ wallet) moltbook_id
                     "registerAgent" [JStr wallet]) in
      ret {| sl_ok := true; sl_wallet := wallet;
             sl_message := "Registered + 5 tickets minted" |}
  end.

End Linking.

(** [POST /admin/unlink-wallet], on the SQLite backend, whose [execute]
    returns the cursor with its [rowcount]. *)
Definition admin_unlink_wallet (moltbook_id : string) : M Store (bool * string) :=
  fun s =>
    let rowcount :=
      match wallet_bindings (store_db s) !! moltbook_id with
      | Some _ => 1
      | None => 0
      end in
    let s' :=
      {| store_db :=
           set_in_transaction false
             (set_wallet_bindings (delete moltbook_id (wallet_bindings (store_db s)))
                (store_db s));
         nonces := nonces s;
         linked_at := delete moltbook_id (linked_at s) |} in
    if rowcount =? 0
    then (inr (false, "No wallet binding found for " ++ moltbook_id), s')
    else (inr (true, "Unlinked wallet for " ++ moltbook_id), s').

(** A signature scheme for examples: the signature is the signer's address. *)
Definition recover_plain (message signature : string) : Exn + string := inr signature.

Definition checksum_plain (a : string) : Exn + string := inr a.

Definition no_valid_nonce : Exn :=
  HTTPException 400 "No valid nonce found. Request one first.".

(** ** Reading the queue (gateway/main.py) *)

(** [GET /tx/{tx_id}], the handler [tx_status]. *)
Definition tx_status_handler (id : Z) : M Db TxStatusResponse :=
  fun db =>
    match get_tx id db with
    | None => (inl (HTTPException 404 "Transaction not found"), db)
    | Some tx =>
        (inr {| resp_id := tx_id tx; resp_action_id := tx_action_id tx;
                resp_status := tx_status tx; resp_tx_hash := tx_hash tx;
                resp_error := tx_error tx |}, db)
    end.

(** A client whose node accepts every transaction and shows the receipt of
    a reverted one at once. *)
Definition reverting_client : Client unit :=
  {| client_send_tx := fun _ _ _ c => (inr "0xabc", c);
     client_get_receipt := fun _ _ => Some {| receipt_status := Some 0 |};
     client_sleep := fun _ c => c |}.

(** A client whose node refuses every transaction. *)
Definition refusing_client : Client unit :=
  {| client_send_tx := fun _ _ _ c => (inl (Web3Error "insufficient funds"), c);
     client_get_receipt := fun _ _ => None;
     client_sleep := fun _ c => c |}.

(** The award of the worker for a mined entry. *)
Definition mined_award (now : Z) (tx : TxRow) : Award :=
  {| aw_now := now; aw_idempotency_key := "tx_mined:" ++ pretty (tx_id tx);
     aw_moltbook_id := tx_moltbook_id tx; aw_session_id := 0; aw_epoch_id := 0;
     aw_event_type := "tx_" ++ tx_method tx; aw_xp_amount := 10;
     aw_gold_amount := 0; aw_source := "tx_worker"; aw_metadata := None |}.

(** ** The endpoints of the dungeon master (gateway/main.py) *)

Record DMResponseAction := {
  dma_target : string;
  dma_xp_reward : Z;
  dma_gold_reward : Z;
  dma_damage : Z;
  dma_is_killed : bool
}.

Record SubmitDMRequest := {
  sd_session_id : Z;
  sd_turn_index : Z;
  sd_narrative : string;
  sd_actions : list DMResponseAction;
  sd_is_complete : bool;
  sd_is_failed : bool;
  sd_action_id : string
}.

Definition ZERO_ADDR : string := "0x0000000000000000000000000000000000000000".

(** A tuple [(actionType, target, value, narrative)] as [json.dumps] writes
    it. *)
Definition dm_tuple (action_type : Z) (target : string) (value : Z) : Json :=
  JList [JInt action_type; JStr target; JInt value; JStr ""].

(** One round of the loop over [req.actions]. *)
Definition dm_tuples_of (a : DMResponseAction) : list Json :=
  ((if 0 <? dma_gold_reward a then [dm_tuple 1 (dma_target a) (dma_gold_reward a)] else [])
   ++ (if 0 <? dma_xp_reward a then [dm_tuple 2 (dma_target a) (dma_xp_reward a)] else [])
   ++ (if 0 <? dma_damage a then [dm_tuple 3 (dma_target a) (dma_damage a)] else [])
   ++ (if dma_is_killed a then [dm_tuple 4 (dma_target a) 0] else []))%list.

(** The list [dm_actions] that [game_dm] builds. *)
Definition dm_actions_of (req : SubmitDMRequest) : list Json :=
  (concat (dm_tuples_of <$> sd_actions req)
   ++ (if sd_is_complete req then [dm_tuple 5 ZERO_ADDR 0] else [])
   ++ (if sd_is_failed req then [dm_tuple 6 ZERO_ADDR 0] else []))%list.

(** [x or y] on two optional strings: an empty string is as good as
    [None]. *)
Definition or_else (x y : option string) : option string :=
  match x with
  | Some EmptyString | None => y
  | Some s => Some s
  end.

Section DungeonMaster.

(** [json.dumps] of the list of dictionaries that [game_dm] logs. *)
Variable dumps_actions : list DMResponseAction -> string.

(** [POST /game/dm] *)
Definition game_dm (ledger : Ledger) (now : Z) (req : SubmitDMRequest)
    (moltbook_id : string) : M Db Response :=
  let* _ := _check_rate_limit now moltbook_id in
  let* existing := _check_idempotency moltbook_id (sd_action_id req) in
  match existing with
  | Some r => ret (TxStatus r)
  | None =>
      match validate_turn_index ledger (sd_session_id req) (sd_turn_index req) with
      | inl validation => ret validation
      | inr validation =>
          let dm_actions := dm_actions_of req in
          let dm_address := or_else (si_dm validation) (si_current_actor validation) in
          let params := [JInt (sd_session_id req); JInt (sd_turn_index req);
                         JStr (sd_narrative req); JList dm_actions;
                         from_option JStr JNull dm_address] in
          let* tx_id := enqueue_tx now (sd_action_id req) moltbook_id
                          "submitDMResponse" params in
          let ei := get_epoch_info ledger in
          let dm_actions_log :=
            match sd_actions req with
            | [] => None
            | _ => Some (dumps_actions (sd_actions req))
            end in
          let* _ := log_action now (sd_action_id req) (sd_session_id req)
                      moltbook_id "dm_response" (from_option current_epoch 0 ei)
                      (Some (sd_narrative req)) dm_actions_log in
          ret (queued tx_id (sd_action_id req))
      end
  end.

End DungeonMaster.

Record AcceptDMRequest := {
  ad_session_id : Z;
  ad_dm_epoch : Z;
  ad_action_id : string
}.

(** The idempotency key of the XP for hosting a session. *)
Definition dm_hosted_key (session_id : Z) (moltbook_id : string) : string :=
  "dm_hosted:" ++ pretty session_id ++ ":" ++ moltbook_id.

(** [POST /game/accept-dm]; [sinfo] is the handler's [info]. *)
Definition game_accept_dm (ledger : Ledger) (now : Z) (req : AcceptDMRequest)
    (moltbook_id : string) : M Db Response :=
  let* _ := _check_rate_limit now moltbook_id in
  let* existing := _check_idempotency moltbook_id (ad_action_id req) in
  match existing with
  | Some r => ret (TxStatus r)
  | None =>
      match get_session_info ledger (ad_session_id req) with
      | None =>
          ret (error_response "SESSION_NOT_FOUND"
                 ("Session " ++ pretty (ad_session_id req) ++ " not found") 404 [])
      | Some sinfo =>
          if negb (si_state sinfo =? 1) then
            if si_state sinfo =? 2 then
              ret (error_response "ALREADY_ACCEPTED" "DM already accepted" 200 [])
            else
              ret (error_response "SESSION_NOT_WAITING_DM"
                     ("Session is in state " ++ state_name sinfo ++ ", not WaitingDM")
                     409 [("current_state", JInt (si_state sinfo))])
          else if negb (ad_dm_epoch req =? si_dm_epoch sinfo) then
            ret (error_response "DM_EPOCH_MISMATCH"
                   ("Expected dm_epoch " ++ pretty (si_dm_epoch sinfo)
                    ++ ", got " ++ pretty (ad_dm_epoch req))
                   409 [("expected", JInt (si_dm_epoch sinfo));
                        ("got", JInt (ad_dm_epoch req))])
          else
            let dm_wallet := si_dm sinfo in
            let params := [JInt (ad_session_id req); JInt (ad_dm_epoch req);
                           from_option JStr JNull dm_wallet] in
            let* tx_id := enqueue_tx now (ad_action_id req) moltbook_id
                            "acceptDM" params in
            let ei := get_epoch_info ledger in
            let current_epoch := from_option current_epoch 0 ei in
            let* _ := log_action now (ad_action_id req) (ad_session_id req)
                        moltbook_id "accept_dm" current_epoch None None in
            let* _ := award_xp now (dm_hosted_key (ad_session_id req) moltbook_id)
                        moltbook_id (ad_session_id req) current_epoch "dm_hosted"
                        75 0 "accept_dm" None in
            ret (queued tx_id (ad_action_id req))
      end
  end.

(** The award of [game_accept_dm]. *)
Definition dm_hosted_award (ledger : Ledger) (now : Z) (req : AcceptDMRequest)
    (moltbook_id : string) : Award :=
  {| aw_now := now;
     aw_idempotency_key := dm_hosted_key (ad_session_id req) moltbook_id;
     aw_moltbook_id := moltbook_id; aw_session_id := ad_session_id req;
     aw_epoch_id := from_option current_epoch 0 (get_epoch_info ledger);
     aw_event_type := "dm_hosted"; aw_xp_amount := 75; aw_gold_amount := 0;
     aw_source := "accept_dm"; aw_metadata := None |}.

(** A tuple of [dm_actions] is well formed: a reward or damage (types 1 to
    3) with a positive value, or a kill, completion or failure (types 4 to
    6) with value 0. *)
Definition tuple_ok (t : Json) : Prop :=
  exists action_type target value,
    t = dm_tuple action_type target value
    /\ 1 <= action_type <= 6
    /\ (action_type <= 3 -> 0 < value)
    /\ (4 <= action_type -> value = 0).

(** A session that waits for its dungeon master, and one that is active. *)
Definition waiting_session : SessionInfo :=
  {| si_dm := Some "0xd000000000000000000000000000000000000001"; si_state := 1;
     si_current_turn := 0; si_current_actor := None; si_dm_epoch := 3 |}.

Definition active_session : SessionInfo :=
  {| si_dm := Some "0xd000000000000000000000000000000000000001"; si_state := 2;
     si_current_turn := 4; si_current_actor := None; si_dm_epoch := 3 |}.

Definition ledger_with (session : SessionInfo) : Ledger :=
  {| get_session_info := fun sid => if sid =? 7 then Some session else None;
     get_epoch_info := Some {| current_epoch := 4; epoch_state_raw := 0 |} |}.

Definition accept_req (action_id : string) : AcceptDMRequest :=
  {| ad_session_id := 7; ad_dm_epoch := 3; ad_action_id := action_id |}.

(** ** The backends (gateway/db_backend.py) *)

(** The loop of [re.sub(r"\?", _replace, sql)] with the [counter] of
    [_q]. *)
Fixpoint _q_from (counter : Z) (sql : string) : string :=
  match sql with
  | EmptyString => EmptyString
  | String c rest =>
      if Ascii.eqb c "?"
      then "$" ++ pretty (counter + 1) ++ _q_from (counter + 1) rest
      else String c (_q_from counter rest)
  end.

(** [_q]: the [?] placeholders become [$1], [$2], ... *)
Definition _q (sql : string) : string := _q_from 0 sql.

Inductive Backend :=
| PostgresBackend (dsn : string)
| SQLiteBackend (db_path : string).

(** [s[n:]] *)
Fixpoint skip (n : nat) (s : string) : string :=
  match n, s with
  | O, _ => s
  | S k, String _ rest => skip k rest
  | S _, EmptyString => EmptyString
  end.

(** [create_backend] *)
Definition create_backend (database_url : string) : Backend :=
  if (String.prefix "postgresql://" database_url
      || String.prefix "postgres://" database_url)%bool
  then PostgresBackend database_url
  else
    let path :=
      if String.prefix "sqlite:///" database_url
      then skip (String.length "sqlite:///") database_url
      else if String.prefix "sqlite://" database_url
      then skip (String.length "sqlite://") database_url
      else database_url in
    SQLiteBackend (match path with EmptyString => "gateway.db" | _ => path end).

(** A text without the placeholder character. *)
Definition plain (s : string) : Prop :=
  forall c, c ∈ String.list_ascii_of_string s -> c <> "?"%char.

(** The pieces of a statement, put together with [?] between them, and
    with [$k], [$k+1], ... between them. *)
Fixpoint with_marks (first : string) (rest : list string) : string :=
  match rest with
  | [] => first
  | p :: ps => first ++ "?" ++ with_marks p ps
  end.

Fixpoint with_numbers (k : Z) (first : string) (rest : list string) : string :=
  match rest with
  | [] => first
  | p :: ps => first ++ "$" ++ pretty k ++ with_numbers (k + 1) p ps
  end.

(** ** Agent verification (gateway/moltbook.py) *)

(** The profile of an agent, a JSON object. *)
Definition Profile : Type := list (string * Json).

(** What the request to [/agents/me] comes to: [httpx.RequestError], or a
    response with its status code and, in its body, the fields [success]
    and [agent]. *)
Inductive ApiAnswer :=
| RequestError (msg : string)
| ApiResponse (status_code : Z) (success : bool) (agent : option Profile).

Definition CACHE_TTL : Z := 300.

(** [verify_agent] over the module's [_cache], which maps a token to a
    profile and its expiry time; [inl msg] is [MoltbookError(msg)]. [now]
    is the time of the cache lookup and [later] the time when the answer is
    stored. *)
Definition verify_agent (api : string -> ApiAnswer) (now later : Z) (token : string)
    (_cache : gmap string (Profile * Z))
    : (string + Profile) * gmap string (Profile * Z) :=
  let request (_cache : gmap string (Profile * Z)) :=
    match api token with
    | RequestError e => (inl ("Failed to reach Moltbook API: " ++ e), _cache)
    | ApiResponse status_code success agent =>
        if status_code =? 401 then (inl "Invalid Moltbook token", _cache)
        else if negb (status_code =? 200)
        then (inl ("Moltbook API returned " ++ pretty status_code), _cache)
        else if negb success then (inl "Moltbook verification failed", _cache)
        else
          let profile := default [] agent in
          (inr profile, <[token := (profile, later + CACHE_TTL)]> _cache)
    end in
  match _cache !! token with
  | Some (profile, expires) =>
      if now <? expires then (inr profile, _cache)
      else request (delete token _cache)
  | None => request _cache
  end.

(** An API that knows the token, and one that has revoked it. *)
Definition api_accepts (profile : Profile) : string -> ApiAnswer :=
  fun _ => ApiResponse 200 true (Some profile).

Definition api_revoked : string -> ApiAnswer :=
  fun _ => ApiResponse 401 false None.

(** ** Statistics (gateway/database.py, gateway/main.py) *)

Definition get_agent_full_stats (moltbook_id : string) (db : Db) : option AgentStats :=
  agent_stats db !! moltbook_id.

(** The dictionary of the legacy [get_agent_stats]. *)
Record LegacyStats := { ls_total_xp : Z; ls_total_gold : Z; ls_total_events : Z }.

(** [get_agent_stats] (gateway/database.py) *)
Definition get_agent_stats (moltbook_id : string) (db : Db) : LegacyStats :=
  match get_agent_full_stats moltbook_id db with
  | Some stats =>
      {| ls_total_xp := total_xp stats; ls_total_gold := lifetime_gold stats;
         ls_total_events := 0 |}
  | None => {| ls_total_xp := 0; ls_total_gold := 0; ls_total_events := 0 |}
  end.

Record InternalLogActionRequest := {
  il_action_id : string;
  il_session_id : Z;
  il_moltbook_id : string;
  il_action_type : string;
  il_action_text : option string;
  il_dm_actions_json : option string
}.

(** [POST /internal/log-action]. [claims_name] is the entry [name] of the
    token's claims: [None] when the claims have no such entry, [Some None]
    when it is null. The [INSERT ... ON CONFLICT(moltbook_id) DO NOTHING]
    gives a new row the schema defaults in the columns it does not list. *)
Definition internal_log_action (ledger : Ledger) (now : Z)
    (req : InternalLogActionRequest) (claims_name : option (option string))
    : M Db bool :=
  let* _ := modify (fun db =>
    match agent_stats db !! il_moltbook_id req with
    | Some _ => db
    | None =>
        set_agent_stats
          (<[il_moltbook_id req :=
               {| display_name := default (Some (il_moltbook_id req)) claims_name;
                  total_xp := 0; current_level := novice;
                  lifetime_sessions := Some 0; lifetime_wins := Some 0;
                  lifetime_gold := 0; dm_sessions := Some 0;
                  last_session_at := None; stats_created_at := Some now |}]>
             (agent_stats db)) db
    end) in
  let* _ := commit in
  let ei := get_epoch_info ledger in
  let epoch := from_option current_epoch 0 ei in
  let* _ := log_action now (il_action_id req) (il_session_id req) (il_moltbook_id req)
              (il_action_type req) epoch (il_action_text req)
              (il_dm_actions_json req) in
  ret true.

(** An action id is in the log. *)
Definition logged (action_id : string) (db : Db) : Prop :=
  Exists (fun r => al_action_id r = action_id) (action_log db).

(** An action of alice's that the scenario runner reports. *)
Definition act_req : InternalLogActionRequest :=
  {| il_action_id := "act-1"; il_session_id := 0; il_moltbook_id := "alice";
     il_action_type := "action"; il_action_text := None;
     il_dm_actions_json := None |}.

(** ** The leaderboard (gateway/database.py, gateway/main.py) *)

(** The order of a nullable column on the SQLite backend: [NULL] is below
    every number. *)
Definition value_le (a b : option Z) : Prop :=
  match a, b with
  | None, _ => True
  | Some _, None => False
  | Some x, Some y => x <= y
  end.

Global Instance value_le_dec : RelDecision value_le.
Proof. intros [x|] [y|]; cbn; apply _. Defined.

(** [col_map.get(metric, "total_xp")], as the column's reading of a row. *)
Definition col_map (metric : string) : AgentStats -> option Z :=
  if String.eqb metric "xp" then fun s => Some (total_xp s)
  else if String.eqb metric "gold" then fun s => Some (lifetime_gold s)
  else if String.eqb metric "sessions" then lifetime_sessions
  else fun s => Some (total_xp s).

(** [ORDER BY {col} DESC] *)
Definition by_col_desc (col : AgentStats -> option Z) (a b : string * AgentStats) : Prop :=
  value_le (col b.2) (col a.2).

Global Instance by_col_desc_dec col : RelDecision (by_col_desc col).
Proof. intros a b. unfold by_col_desc. apply _. Defined.

(** [LIMIT ?] on the SQLite backend: a negative limit is no limit. *)
Definition sql_limit {A} (n : Z) (l : list A) : list A :=
  if n <? 0 then l else take (Z.to_nat n) l.

Record LeaderboardEntry := {
  le_rank : Z;
  le_moltbook_id : string;
  le_display_name : option string;
  le_value : option Z;
  le_level : Level
}.

(** The comprehension over [enumerate(rows)], from index [i] on. *)
Fixpoint ranked (col : AgentStats -> option Z) (i : Z) (rows : list (string * AgentStats))
    : list LeaderboardEntry :=
  match rows with
  | [] => []
  | r :: rest =>
      {| le_rank := i + 1; le_moltbook_id := r.1; le_display_name := display_name r.2;
         le_value := col r.2; le_level := current_level r.2 |}
      :: ranked col (i + 1) rest
  end.

(** [get_leaderboard] *)
Definition get_leaderboard (metric : string) (limit : Z) (db : Db)
    : list LeaderboardEntry :=
  let col := col_map metric in
  let rows := sql_limit limit
                (merge_sort (by_col_desc col) (map_to_list (agent_stats db))) in
  ranked col 0 rows.

(** [GET /leaderboard/{metric}] *)
Definition leaderboard (metric : string) (limit : Z) : M Db (list LeaderboardEntry) :=
  fun db =>
    if negb (String.eqb metric "xp" || String.eqb metric "gold"
             || String.eqb metric "sessions")
    then (inl (HTTPException 400 "Invalid metric. Use: xp, gold, sessions"), db)
    else (inr (get_leaderboard metric (Z.min limit 100) db), db).

(** The entry shows a row of the table. *)
Definition shows (metric : string) (db : Db) (e : LeaderboardEntry) : Prop :=
  exists s,
    agent_stats db !! le_moltbook_id e = Some s
    /\ le_display_name e = display_name s
    /\ le_value e = col_map metric s
    /\ le_level e = current_level s.

(** ** Reading the dungeons (gateway/contract.py) *)

(** The fields of the [Dungeon] struct as [dungeons(i).call()] returns
    them. *)
Record Dungeon := {
  nftId : Z;
  owner : string;
  active : bool;
  lootPool : Z;
  currentSessionId : Z
}.

(** The answers of the contract to the two calls; [inl] is a call that
    raised. *)
Record DungeonChain := {
  dungeonCount : Exn + Z;
  dungeons : Z -> Exn + Dungeon
}.

(** The dictionary of [get_dungeon_info]. *)
Record DungeonInfo := {
  di_dungeon_id : Z;
  di_nft_id : Z;
  di_owner : option string;
  di_active : bool;
  di_loot_pool : Z;
  di_current_session_id : Z
}.

(** [get_dungeon_count]: 0 when the call raises. *)
Definition get_dungeon_count (chain : DungeonChain) : Z :=
  match dungeonCount chain with
  | inr n => n
  | inl _ => 0
  end.

(** [get_dungeon_info]: [None] when the call raises. *)
Definition get_dungeon_info (chain : DungeonChain) (dungeon_id : Z) : option DungeonInfo :=
  match dungeons chain dungeon_id with
  | inr result =>
      Some {| di_dungeon_id := dungeon_id; di_nft_id := nftId result;
              di_owner := if String.eqb (owner result) ZERO_ADDR then None
                          else Some (owner result);
              di_active := active result; di_loot_pool := lootPool result;
              di_current_session_id := currentSessionId result |}
  | inl _ => None
  end.

(** [get_all_dungeons]: the loop over [range(count)]. *)
Definition get_all_dungeons (chain : DungeonChain) : list DungeonInfo :=
  omap (get_dungeon_info chain) (seqZ 0 (get_dungeon_count chain)).

Record Overview := {
  total_dungeons : Z;
  staked_dungeons : Z;
  awaiting_players : Z;
  awaiting_dm : Z;
  in_progress : Z;
  total_loot_pool : Z
}.

(** The counters of the loop of [get_dungeons_overview]: [waiting],
    [waiting_dm], [in_progress], [total_loot]. *)
Definition overview_step (ledger : Ledger) (acc : Z * Z * Z * Z) (d : DungeonInfo)
    : Z * Z * Z * Z :=
  let '(waiting, waiting_dm, in_prog, total_loot) := acc in
  let total_loot := total_loot + di_loot_pool d in
  if 0 <? di_current_session_id d then
    match get_session_info ledger (di_current_session_id d) with
    | Some session =>
        if si_state session =? 0 then (waiting + 1, waiting_dm, in_prog, total_loot)
        else if si_state session =? 1 then (waiting, waiting_dm + 1, in_prog, total_loot)
        else if si_state session =? 2 then (waiting, waiting_dm, in_prog + 1, total_loot)
        else (waiting, waiting_dm, in_prog, total_loot)
    | None => (waiting, waiting_dm, in_prog, total_loot)
    end
  else (waiting, waiting_dm, in_prog, total_loot).

(** [get_dungeons_overview] *)
Definition get_dungeons_overview (chain : DungeonChain) (ledger : Ledger) : Overview :=
  let all := get_all_dungeons chain in
  let total := Z.of_nat (length all) in
  let staked := Z.of_nat (length (filter (fun d => di_active d = true) all)) in
  let '(waiting, waiting_dm, in_prog, total_loot) :=
    foldl (overview_step ledger) (0, 0, 0, 0) all in
  {| total_dungeons := total; staked_dungeons := staked;
     awaiting_players := waiting; awaiting_dm := waiting_dm;
     in_progress := in_prog; total_loot_pool := total_loot |}.

(** * Properties *)


(** ** The XP ledger: idempotent awards *)

Lemma set_in_transaction_id (db : Db) :
  set_in_transaction (in_transaction db) db = db.
Proof. by destruct db. Qed.

Lemma closed_id (db : Db) : in_transaction db = false -> set_in_transaction false db = db.
Proof. intros <-. apply set_in_transaction_id. Qed.

Lemma existsb_has_key key (l : list XpEvent) :
  existsb (fun r => String.eqb (xe_idempotency_key r) key) l = true
  <-> Exists (has_key key) l.
Proof.
  rewrite existsb_exists, Exists_exists. split.
  - intros (e & Hin & Heq). exists e. apply String.eqb_eq in Heq.
    split; [by apply list_elem_of_In | done].
  - intros (e & Hin & Heq). exists e. split; [by apply list_elem_of_In |].
    by apply String.eqb_eq.
Qed.

Lemma existsb_no_key key (l : list XpEvent) :
  existsb (fun r => String.eqb (xe_idempotency_key r) key) l = false
  <-> Forall (fun e => ~ has_key key e) l.
Proof.
  rewrite Forall_Exists_neg, <- existsb_has_key.
  destruct (existsb _ l); split; congruence.
Qed.

(** An award that finds a transaction open fails at [begin]; the [except]
    clause rolls the open transaction back and raises the error again. *)
Lemma award_in_transaction (a : Award) (db : Db) :
  in_transaction db = true ->
  award a db
  = (inl (OperationalError "cannot start a transaction within a transaction"),
     set_in_transaction false db).
Proof.
  intros H. unfold award, award_xp, bind, get, try_except, begin. rewrite H.
  reflexivity.
Qed.

(** An integer that does not fit is refused by the driver, whatever the
    key. *)
Lemma award_overflow (a : Award) (db : Db) :
  in_transaction db = false ->
  ~ binds a ->
  award a db
  = (inl (OverflowError "Python int too large to convert to SQLite INTEGER"),
     set_in_transaction false db).
Proof.
  intros H Hb. unfold binds in Hb. apply not_true_is_false in Hb.
  unfold award, award_xp, bind, get, try_except, begin, insert_xp_event, bind_integers.
  rewrite H. cbn [xe_session_id xe_epoch_id xe_xp_amount xe_gold_amount].
  unfold bind. cbn [xe_session_id xe_epoch_id xe_xp_amount xe_gold_amount].
  rewrite Hb. reflexivity.
Qed.

(** A second award under a key that is in [xp_events] is rolled back. *)
Lemma award_duplicate (a : Award) (db : Db) :
  in_transaction db = false ->
  binds a ->
  Exists (has_key (aw_idempotency_key a)) (xp_events db) ->
  award a db = (inr false, db).
Proof.
  intros Hc Hb H%existsb_has_key. unfold binds in Hb.
  unfold award, award_xp, bind, get, try_except, begin, insert_xp_event, bind_integers.
  rewrite Hc. cbn [xe_session_id xe_epoch_id xe_xp_amount xe_gold_amount].
  unfold bind. cbn [xe_session_id xe_epoch_id xe_xp_amount xe_gold_amount].
  rewrite Hb. cbn [xp_events set_in_transaction xe_idempotency_key]. rewrite H.
  cbn. by rewrite (closed_id db Hc).
Qed.

Lemma alter_insert_same {A} (f : A -> A) (k : string) (x : A) (m : gmap string A) :
  alter f k (<[k := x]> m) = <[k := f x]> m.
Proof.
  apply map_eq. intros i. destruct (decide (k = i)) as [->|Hne].
  - by rewrite lookup_alter_eq, !lookup_insert_eq.
  - by rewrite lookup_alter_ne, !lookup_insert_ne.
Qed.

(** A first award under a key appends its event and updates the row. *)
Lemma award_fresh (a : Award) (db : Db) :
  in_transaction db = false ->
  binds a ->
  Forall (fun e => ~ has_key (aw_idempotency_key a) e) (xp_events db) ->
  award a db = (inr true, awarded a db).
Proof.
  intros Hc Hb H%existsb_no_key. unfold binds in Hb.
  unfold award, award_xp, bind, get, try_except, begin, insert_xp_event, bind_integers.
  rewrite Hc. cbn [xe_session_id xe_epoch_id xe_xp_amount xe_gold_amount].
  unfold bind. cbn [xe_session_id xe_epoch_id xe_xp_amount xe_gold_amount].
  rewrite Hb. cbn [xp_events set_in_transaction xe_idempotency_key]. rewrite H.
  unfold upsert_award, modify, awarded, bump, upserted, commit, modify. simpl.
  destruct (agent_stats db !! aw_moltbook_id a) as [s|] eqn:Hs; simpl;
    repeat (destruct (String.eqb (aw_event_type a) _); simpl;
            unfold update_stats, modify, ret, set_agent_stats, set_in_transaction; simpl;
            rewrite ?alter_insert_same; try reflexivity).
Qed.

(** The four ways [award_xp] ends. *)
Lemma award_total (a : Award) (db : Db) :
  award a db
  = (inl (OperationalError "cannot start a transaction within a transaction"),
     set_in_transaction false db)
  \/ award a db
     = (inl (OverflowError "Python int too large to convert to SQLite INTEGER"),
        set_in_transaction false db)
  \/ award a db = (inr false, set_in_transaction false db)
  \/ award a db = (inr true, awarded a db).
Proof.
  destruct (in_transaction db) eqn:Hc.
  { left. by apply award_in_transaction. }
  destruct (decide (binds a)) as [Hb | Hb].
  2: { right. left. by apply award_overflow. }
  destruct (decide (Exists (has_key (aw_idempotency_key a)) (xp_events db))) as [H|H].
  - right. right. left. rewrite (closed_id db Hc). by apply award_duplicate.
  - right. right. right. apply award_fresh; [done | done |]. by apply Forall_Exists_neg.
Qed.

Lemma filter_no_key key (l : list XpEvent) :
  Forall (fun e => ~ has_key key e) l -> filter (has_key key) l = [].
Proof.
  induction 1 as [|e l He _ IH]; [reflexivity |].
  by rewrite filter_cons_False.
Qed.

Lemma fmap_add_zero (x : option Z) : (fun n => n + 0) <$> x = x.
Proof. destruct x as [n|]; [cbn; f_equal; lia | reflexivity]. Qed.

(** The row a first award leaves, column by column. *)
Lemma awarded_row (a : Award) (old : option AgentStats) :
  let s1 := bump a (upserted a old) in
  total_xp s1 = from_option total_xp 0 old + aw_xp_amount a
  /\ lifetime_gold s1 = from_option lifetime_gold 0 old + aw_gold_amount a
  /\ lifetime_sessions s1 = counted a "session_complete" (lifetime_sessions <$> old)
  /\ lifetime_wins s1 = counted a "win" (lifetime_wins <$> old)
  /\ dm_sessions s1 = counted a "dm_hosted" (dm_sessions <$> old).
Proof.
  unfold bump, counted, indicator.
  destruct (String.eqb_spec (aw_event_type a) "dm_hosted") as [E|_];
    [rewrite E
    | destruct (String.eqb_spec (aw_event_type a) "session_complete") as [E|_];
      [rewrite E
      | destruct (String.eqb_spec (aw_event_type a) "win") as [E|_]]];
    destruct old as [s|]; cbn; unfold sql_succ; rewrite ?fmap_add_zero;
    repeat split; reflexivity.
Qed.

Lemma counted_fits (a : Award) (t : string) (c : option Z) :
  counter_fits 0 c -> counter_fits 1 c -> counter_fits 0 (counted a t (Some c)).
Proof.
  unfold counter_fits, counted, indicator. cbn [default].
  intros H0 H1 n. destruct c as [k|]; [| discriminate]. cbn. intros [= <-].
  destruct (String.eqb (aw_event_type a) t).
  - rewrite Z.add_0_r. by apply H1.
  - rewrite Z.add_0_r. specialize (H0 k eq_refl). by rewrite Z.add_0_r in *.
Qed.

Lemma counted_new_fits (a : Award) (t : string) : counter_fits 0 (counted a t None).
Proof.
  unfold counter_fits, counted, indicator. cbn. intros n [= <-].
  by destruct (String.eqb (aw_event_type a) t).
Qed.

(** The integers of the row a first award leaves fit 64 bits when those of
    the award do and the sums do. *)
Lemma awarded_row_fits (a : Award) (db : Db) :
  binds a ->
  totals_fit a db ->
  let old := agent_stats db !! aw_moltbook_id a in
  fits_int64 (from_option total_xp 0 old + aw_xp_amount a) = true
  /\ fits_int64 (from_option lifetime_gold 0 old + aw_gold_amount a) = true
  /\ Forall (counter_fits 0)
       [counted a "session_complete" (lifetime_sessions <$> old);
        counted a "win" (lifetime_wins <$> old);
        counted a "dm_hosted" (dm_sessions <$> old)].
Proof.
  intros Hb Hfit old. unfold totals_fit in Hfit. fold old in Hfit.
  destruct old as [s|]; cbn [from_option fmap option_fmap option_map].
  - destruct (Hfit s eq_refl) as (Hxp & Hgold & Hc).
    apply Forall_cons in Hc as [[Hs0 Hs1] Hc].
    apply Forall_cons in Hc as [[Hw0 Hw1] Hc].
    apply Forall_cons in Hc as [[Hd0 Hd1] _].
    split; [exact Hxp |]. split; [exact Hgold |].
    repeat constructor; by apply counted_fits.
  - unfold binds in Hb. cbn [forallb] in Hb.
    apply andb_prop in Hb as [_ Hb]. apply andb_prop in Hb as [_ Hb].
    apply andb_prop in Hb as [Hxp Hb]. apply andb_prop in Hb as [Hgold _].
    split; [exact Hxp |]. split; [exact Hgold |].
    repeat constructor; apply counted_new_fits.
Qed.

(** X28: on a connection with no transaction open, for awards whose
    integers and totals fit the 64-bit integers of the store, and for
    every idempotency key that is not in the ledger yet: a first
    [award_xp] under the key returns [True], appends exactly one event,
    adds its amounts to the subject's totals and one to the counter of its
    event type, all of them 64-bit integers still, and touches no other
    row and no other table; any later
    [award_xp] under the same key, with the same or other arguments,
    returns [False] and leaves the store, hence the statistics, as it
    was. *)
Theorem award_twice_changes_stats_once (a1 a2 : Award) (db : Db) :
  in_transaction db = false ->
  binds a1 ->
  binds a2 ->
  totals_fit a1 db ->
  Forall (fun e => ~ has_key (aw_idempotency_key a1) e) (xp_events db) ->
  aw_idempotency_key a2 = aw_idempotency_key a1 ->
  let old := agent_stats db !! aw_moltbook_id a1 in
  let '(r1, db1) := award a1 db in
  let '(r2, db2) := award a2 db1 in
  r1 = inr true
  /\ xp_events db1 = (xp_events db ++ [event_of a1])%list
  /\ length (filter (has_key (aw_idempotency_key a1)) (xp_events db1)) = 1%nat
  /\ (exists s1,
        agent_stats db1 !! aw_moltbook_id a1 = Some s1
        /\ total_xp s1 = from_option total_xp 0 old + aw_xp_amount a1
        /\ lifetime_gold s1 = from_option lifetime_gold 0 old + aw_gold_amount a1
        /\ lifetime_sessions s1 = counted a1 "session_complete" (lifetime_sessions <$> old)
        /\ lifetime_wins s1 = counted a1 "win" (lifetime_wins <$> old)
        /\ dm_sessions s1 = counted a1 "dm_hosted" (dm_sessions <$> old)
        /\ fits_int64 (total_xp s1) = true
        /\ fits_int64 (lifetime_gold s1) = true
        /\ Forall (counter_fits 0) [lifetime_sessions s1; lifetime_wins s1; dm_sessions s1])
  /\ (forall m, m <> aw_moltbook_id a1 -> agent_stats db1 !! m = agent_stats db !! m)
  /\ tx_queue db1 = tx_queue db
  /\ action_log db1 = action_log db
  /\ r2 = inr false
  /\ db2 = db1
  /\ (forall later : Db,
        in_transaction later = false ->
        Exists (has_key (aw_idempotency_key a1)) (xp_events later) ->
        award a2 later = (inr false, later)).
Proof.
  intros Hc Hb1 Hb2 Hfit Hfresh Hkey old.
  rewrite (award_fresh a1 db Hc Hb1 Hfresh).
  assert (Hdup : Exists (has_key (aw_idempotency_key a2)) (xp_events (awarded a1 db))).
  { simpl. apply Exists_app. right. apply Exists_cons_hd.
    unfold has_key. simpl. congruence. }
  rewrite (award_duplicate a2 (awarded a1 db) eq_refl Hb2 Hdup).
  split; [reflexivity |]. split; [reflexivity |]. split.
  { unfold awarded; cbn [xp_events].
    rewrite filter_app, (filter_cons_True _ (event_of a1)) by reflexivity.
    rewrite filter_nil, (filter_no_key _ _ Hfresh). reflexivity. }
  split.
  { eexists. split; [cbn [awarded agent_stats]; apply lookup_insert_eq |].
    destruct (awarded_row a1 (agent_stats db !! aw_moltbook_id a1))
      as (Hxp & Hgold & Hs & Hw & Hd).
    do 5 (split; [assumption |]).
    rewrite Hxp, Hgold, Hs, Hw, Hd.
    apply (awarded_row_fits a1 db Hb1 Hfit). }
  split.
  { intros m Hm. cbn [awarded agent_stats]. by rewrite lookup_insert_ne. }
  do 4 (split; [reflexivity |]).
  intros later Hl Hex. apply award_duplicate; [exact Hl | exact Hb2 |].
  by rewrite Hkey.
Qed.

Lemma award_twice_changes_stats_once_witness :
  let db := replay [award_win] empty_db in
  let old := agent_stats db !! aw_moltbook_id award_A1 in
  let '(r1, db1) := award award_A1 db in
  let '(r2, db2) := award award_A2 db1 in
  r1 = inr true
  /\ xp_events db1 = (xp_events db ++ [event_of award_A1])%list
  /\ length (filter (has_key (aw_idempotency_key award_A1)) (xp_events db1)) = 1%nat
  /\ (exists s1,
        agent_stats db1 !! aw_moltbook_id award_A1 = Some s1
        /\ total_xp s1 = from_option total_xp 0 old + aw_xp_amount award_A1
        /\ lifetime_gold s1 = from_option lifetime_gold 0 old + aw_gold_amount award_A1
        /\ lifetime_sessions s1
           = counted award_A1 "session_complete" (lifetime_sessions <$> old)
        /\ lifetime_wins s1 = counted award_A1 "win" (lifetime_wins <$> old)
        /\ dm_sessions s1 = counted award_A1 "dm_hosted" (dm_sessions <$> old)
        /\ fits_int64 (total_xp s1) = true
        /\ fits_int64 (lifetime_gold s1) = true
        /\ Forall (counter_fits 0) [lifetime_sessions s1; lifetime_wins s1; dm_sessions s1])
  /\ (forall m, m <> aw_moltbook_id award_A1 ->
        agent_stats db1 !! m = agent_stats db !! m)
  /\ tx_queue db1 = tx_queue db
  /\ action_log db1 = action_log db
  /\ r2 = inr false
  /\ db2 = db1
  /\ (forall later : Db,
        in_transaction later = false ->
        Exists (has_key (aw_idempotency_key award_A1)) (xp_events later) ->
        award award_A2 later = (inr false, later)).
Proof.
  apply (award_twice_changes_stats_once award_A1 award_A2 (replay [award_win] empty_db)).
  - reflexivity.
  - reflexivity.
  - reflexivity.
  - intros s Hs. vm_compute in Hs. injection Hs as <-.
    split; [reflexivity |]. split; [reflexivity |].
    repeat constructor; intros n [= <-]; reflexivity.
  - repeat constructor. intros H. discriminate H.
  - reflexivity.
Defined.

(** C6. A later award under a used key raises instead of returning
    [False] when it finds a transaction open. The scenario runner awards
    alice under a key and reports an action of hers twice: the second
    [log_action] is refused on the action id and returns [False] without a
    rollback, so the transaction of its [INSERT] stays open. The next
    award under the same key, with other amounts, fails at [begin]: the
    [except] clause does not find a duplicate in the message, rolls back
    and raises. No event is written and the statistics stay as they were,
    but the caller gets the error where the key is in the ledger. *)
Theorem later_award_raises_in_open_transaction :
  let '(r1, db1) := award award_A1 empty_db in
  let '(r2, db2) := internal_log_action quiet_ledger 120 act_req None db1 in
  let '(r3, db3) := internal_log_action quiet_ledger 130 act_req None db2 in
  let '(r4, db4) := award award_A2 db3 in
  r1 = inr true
  /\ in_transaction db2 = false
  /\ in_transaction db3 = true
  /\ action_log db3 = action_log db2
  /\ aw_idempotency_key award_A2 = aw_idempotency_key award_A1
  /\ Exists (has_key (aw_idempotency_key award_A2)) (xp_events db3)
  /\ r4 = inl (OperationalError "cannot start a transaction within a transaction")
  /\ r4 <> inr false
  /\ xp_events db4 = xp_events db1
  /\ agent_stats db4 = agent_stats db1.
Proof.
  vm_compute. repeat split; try discriminate.
  apply Exists_cons_hd. reflexivity.
Qed.

(** The integers are bound before the key is compared: a later award under
    a used key with an amount of 2^63 raises [OverflowError]. *)
Example later_award_raises_on_overflow :
  let '(r1, db1) := award award_A1 empty_db in
  let '(r2, db2) := award award_huge db1 in
  r1 = inr true
  /\ r2 = inl (OverflowError "Python int too large to convert to SQLite INTEGER")
  /\ xp_events db2 = xp_events db1
  /\ agent_stats db2 = agent_stats db1.
Proof. vm_compute. repeat split. Qed.

(** ** Levels *)

Lemma level_case_thresholds (xp : Z) :
  (level_case xp = legend <-> 10000 <= xp)
  /\ (level_case xp = veteran <-> 2000 <= xp < 10000)
  /\ (level_case xp = adventurer <-> 500 <= xp < 2000)
  /\ (level_case xp = novice <-> xp < 500).
Proof.
  unfold level_case.
  destruct (Z.leb_spec 10000 xp); [repeat split; intros; try lia; try discriminate |].
  destruct (Z.leb_spec 2000 xp); [repeat split; intros; try lia; try discriminate |].
  destruct (Z.leb_spec 500 xp); repeat split; intros; try lia; try discriminate.
Qed.

(** [rebuild_agent_stats] always leaves a row for the subject, and the
    level of that row is the threshold function of its total. *)
Lemma rebuild_level (now : Z) (m : string) (db : Db) :
  exists s, agent_stats (snd (rebuild_agent_stats now m db)) !! m = Some s
            /\ current_level s = level_case (total_xp s).
Proof.
  unfold rebuild_agent_stats, bind, commit, modify. simpl.
  destruct (agent_stats db !! m) as [s|]; simpl; rewrite lookup_insert_eq;
    eexists; (split; [reflexivity | reflexivity]).
Qed.

(** On a subject that has a row, a fresh award recomputes the level from
    the new total. *)
Lemma award_level_existing (a : Award) (db : Db) (s : AgentStats) :
  in_transaction db = false ->
  binds a ->
  Forall (fun e => ~ has_key (aw_idempotency_key a) e) (xp_events db) ->
  agent_stats db !! aw_moltbook_id a = Some s ->
  projection <$> agent_stats (snd (award a db)) !! aw_moltbook_id a
  = (fun s' => (total_xp s + aw_xp_amount a, lifetime_gold s + aw_gold_amount a,
                lifetime_sessions s', lifetime_wins s', dm_sessions s',
                level_case (total_xp s + aw_xp_amount a)))
      <$> agent_stats (snd (award a db)) !! aw_moltbook_id a.
Proof.
  intros Hc Hb Hfresh Hs. rewrite (award_fresh a db Hc Hb Hfresh). simpl.
  rewrite lookup_insert_eq, Hs. unfold bump. simpl.
  repeat (destruct (String.eqb (aw_event_type a) _); simpl; try reflexivity).
Qed.

(** On a subject that has no row, a fresh award inserts the row with the
    default level of the schema, whatever the amount. *)
Lemma award_level_first (a : Award) (db : Db) :
  in_transaction db = false ->
  binds a ->
  Forall (fun e => ~ has_key (aw_idempotency_key a) e) (xp_events db) ->
  agent_stats db !! aw_moltbook_id a = None ->
  current_level <$> agent_stats (snd (award a db)) !! aw_moltbook_id a = Some novice.
Proof.
  intros Hc Hb Hfresh Hs. rewrite (award_fresh a db Hc Hb Hfresh). simpl.
  rewrite lookup_insert_eq, Hs. unfold bump. simpl.
  repeat (destruct (String.eqb (aw_event_type a) _); simpl; try reflexivity).
Qed.

(** C10. The thresholds are those of the claim and [rebuild_agent_stats]
    applies them ([level_case_thresholds], [rebuild_level]), but the
    incremental path does not on a subject's first award: 10000 XP awarded
    to a subject without a row leave the level at [novice], where the
    thresholds give [legend]; rebuilding the same subject gives [legend]. *)
Theorem first_award_skips_thresholds :
  let db1 := snd (award award_legend empty_db) in
  let db2 := snd (rebuild_agent_stats 200 "bob" db1) in
  fst (award award_legend empty_db) = inr true
  /\ total_xp <$> agent_stats db1 !! "bob" = Some 10000
  /\ current_level <$> agent_stats db1 !! "bob" = Some novice
  /\ level_case 10000 = legend
  /\ current_level <$> agent_stats db2 !! "bob" = Some legend.
Proof. vm_compute. repeat split; reflexivity. Qed.

(** C3. A history of one award of 500 XP: the row of the incremental path
    and the row [rebuild_agent_stats] writes from the same events differ
    in [current_level]. *)
Theorem rebuild_differs_from_incremental :
  let db1 := replay [award_win] empty_db in
  let db2 := snd (rebuild_agent_stats 200 "alice" db1) in
  xp_events db2 = xp_events db1
  /\ projection <$> agent_stats db1 !! "alice"
     = Some (500, 0, Some 0, Some 1, Some 0, novice)
  /\ projection <$> agent_stats db2 !! "alice"
     = Some (500, 0, Some 0, Some 1, Some 0, adventurer).
Proof. vm_compute. repeat split; reflexivity. Qed.

(** ** The incremental path against the event log *)

Lemma total_snoc (l : list Z) (x : Z) : total (l ++ [x]) = total l + x.
Proof. unfold total. induction l as [|y l IH]; simpl; lia. Qed.

Lemma occurrences_snoc t rows e :
  occurrences t (rows ++ [e])
  = occurrences t rows + (if String.eqb (xe_event_type e) t then 1 else 0).
Proof. unfold occurrences. rewrite fmap_app. cbn [fmap list_fmap]. by rewrite total_snoc. Qed.

Lemma bump_fields (a : Award) (s : AgentStats) :
  total_xp (bump a s) = total_xp s
  /\ lifetime_gold (bump a s) = lifetime_gold s
  /\ current_level (bump a s) = current_level s
  /\ lifetime_sessions (bump a s)
     = (fun n => n + indicator a "session_complete") <$> lifetime_sessions s
  /\ lifetime_wins (bump a s) = (fun n => n + indicator a "win") <$> lifetime_wins s
  /\ dm_sessions (bump a s) = (fun n => n + indicator a "dm_hosted") <$> dm_sessions s.
Proof.
  unfold bump, indicator.
  destruct (String.eqb_spec (aw_event_type a) "dm_hosted") as [E|_];
    [rewrite E
    | destruct (String.eqb_spec (aw_event_type a) "session_complete") as [E|_];
      [rewrite E
      | destruct (String.eqb_spec (aw_event_type a) "win") as [E|_]]];
    simpl; unfold sql_succ;
    destruct (lifetime_sessions s), (lifetime_wins s), (dm_sessions s); simpl;
    repeat split; try reflexivity; f_equal; lia.
Qed.

Lemma events_of_awarded (a : Award) (db : Db) (m : string) :
  events_of m (awarded a db)
  = if decide (aw_moltbook_id a = m) then (events_of m db ++ [event_of a])%list
    else events_of m db.
Proof.
  unfold events_of, awarded. cbn [xp_events]. rewrite filter_app.
  destruct (decide (aw_moltbook_id a = m)) as [Heq|Hne].
  - by rewrite (filter_cons_True _ (event_of a)), filter_nil.
  - by rewrite (filter_cons_False _ (event_of a)), filter_nil, app_nil_r.
Qed.

Lemma award_keeps_match (a : Award) (db : Db) :
  stats_match_events db -> stats_match_events (snd (award a db)).
Proof.
  intros Hinv. destruct (award_total a db) as [-> | [-> | [-> | ->]]];
    [exact Hinv | exact Hinv | exact Hinv |].
  intros m. specialize (Hinv m). cbn [snd]. rewrite events_of_awarded.
  cbn [awarded agent_stats].
  destruct (decide (aw_moltbook_id a = m)) as [<-|Hne].
  - rewrite lookup_insert_eq.
    destruct (bump_fields a (upserted a (agent_stats db !! aw_moltbook_id a)))
      as (Hxp & Hgold & _ & Hs & Hw & Hd).
    rewrite Hxp, Hgold, Hs, Hw, Hd.
    rewrite !fmap_app, !occurrences_snoc. cbn [fmap list_fmap].
    rewrite !total_snoc. unfold indicator. simpl.
    destruct (agent_stats db !! aw_moltbook_id a) as [s|]; simpl.
    + destruct Hinv as (_ & -> & -> & -> & -> & ->).
      repeat split; try reflexivity. by destruct (events_of _ db).
    + rewrite Hinv. repeat split; try reflexivity. discriminate.
  - by rewrite lookup_insert_ne.
Qed.

Lemma replay_keeps_match (history : list Award) (db : Db) :
  stats_match_events db -> stats_match_events (replay history db).
Proof.
  revert db. induction history as [|a h IH]; intros db Hinv; [exact Hinv |].
  apply IH, award_keeps_match, Hinv.
Qed.

Lemma empty_db_matches : stats_match_events empty_db.
Proof. intros m. reflexivity. Qed.

(** For every history of awards and every subject the incremental path
    has a row for, [rebuild_agent_stats] recomputes the same totals and the
    same counters; the level it writes is the threshold function of the
    total. *)
Lemma rebuild_agrees_on_totals (history : list Award) (now : Z) (m : string)
    (s : AgentStats) :
  agent_stats (replay history empty_db) !! m = Some s ->
  exists s',
    agent_stats (snd (rebuild_agent_stats now m (replay history empty_db))) !! m = Some s'
    /\ total_xp s' = total_xp s
    /\ lifetime_gold s' = lifetime_gold s
    /\ lifetime_sessions s' = lifetime_sessions s
    /\ lifetime_wins s' = lifetime_wins s
    /\ dm_sessions s' = dm_sessions s
    /\ current_level s' = level_case (total_xp s).
Proof.
  intros Hs.
  pose proof (replay_keeps_match history empty_db empty_db_matches m) as Hinv.
  rewrite Hs in Hinv. destruct Hinv as (Hne & Hxp & Hgold & Hsess & Hwins & Hdm).
  unfold rebuild_agent_stats, bind, commit, modify. cbn [snd]. rewrite Hs.
  cbn [agent_stats set_agent_stats set_in_transaction]. rewrite lookup_insert_eq.
  eexists. split; [reflexivity |]. cbn.
  fold (events_of m (replay history empty_db)).
  destruct (events_of m (replay history empty_db)) as [|e rows] eqn:Hrows; [done |].
  rewrite Hxp, Hgold, Hsess, Hwins, Hdm.
  repeat split; reflexivity.
Qed.



(** ** The queue: lookups and inserts *)

Lemma same_action_iff m a r :
  same_action m a r = true <-> tx_moltbook_id r = m /\ tx_action_id r = a.
Proof.
  unfold same_action. rewrite andb_true_iff, !String.eqb_eq. reflexivity.
Qed.

Lemma find_none_existsb {A} (f : A -> bool) (l : list A) :
  find f l = None <-> existsb f l = false.
Proof.
  induction l as [|x l IH]; simpl; [done |].
  destruct (f x); simpl; [split; discriminate | exact IH].
Qed.

Lemma find_snoc {A} (f : A -> bool) (l : list A) (x : A) :
  find f (l ++ [x]) = match find f l with
                      | Some y => Some y
                      | None => if f x then Some x else None
                      end.
Proof.
  induction l as [|y l IH]; simpl; [reflexivity |].
  destruct (f y); [reflexivity | exact IH].
Qed.

Lemma existsb_false_filter m a (q : list TxRow) :
  existsb (same_action m a) q = false ->
  filter (fun r => tx_moltbook_id r = m /\ tx_action_id r = a) q = [].
Proof.
  induction q as [|r q IH]; simpl; [reflexivity |].
  intros [Hr Hq]%orb_false_elim.
  rewrite filter_cons_False; [by apply IH |].
  intros H%same_action_iff. congruence.
Qed.

Lemma enqueue_tx_fresh now a m method params db :
  get_tx_by_action m a db = None ->
  enqueue_tx now a m method params db
  = (inr (next_tx_id (tx_queue db)),
     set_in_transaction false
       (set_tx_queue (tx_queue db ++ [new_row now a m method params db]) db)).
Proof.
  unfold get_tx_by_action, enqueue_tx. intros H%find_none_existsb.
  rewrite H. reflexivity.
Qed.

Lemma enqueue_tx_duplicate now a m method params db r :
  get_tx_by_action m a db = Some r ->
  enqueue_tx now a m method params db
  = (inl (IntegrityError
            "UNIQUE constraint failed: tx_queue.moltbook_id, tx_queue.action_id"),
     implicit_begin db).
Proof.
  unfold get_tx_by_action, enqueue_tx. intros H.
  destruct (existsb (same_action m a) (tx_queue db)) eqn:E; [reflexivity |].
  apply find_none_existsb in E. congruence.
Qed.

Lemma log_action_never_raises now a sid m ty ep txt dm db :
  exists b db', log_action now a sid m ty ep txt dm db = (inr b, db')
                /\ tx_queue db' = tx_queue db.
Proof.
  unfold log_action, try_except, bind.
  destruct (existsb _ (action_log db)); simpl; eauto.
Qed.

(** ** The rate limit *)

Lemma check_rate_limit_spec now m db :
  (10 <= count_recent_txs now m db ->
   _check_rate_limit now m db = (inl rate_limited, db))
  /\ (count_recent_txs now m db < 10 ->
      _check_rate_limit now m db = (inr tt, db)).
Proof.
  unfold _check_rate_limit, rate_limited. cbn [max_tx_per_hour settings].
  destruct (Z.leb_spec 10 (count_recent_txs now m db)); split; intros; try lia;
    reflexivity.
Qed.

Lemma check_rate_limit_iff now m db :
  _check_rate_limit now m db = (inl rate_limited, db)
  <-> 10 <= count_recent_txs now m db.
Proof.
  destruct (check_rate_limit_spec now m db) as [Hge Hlt]. split; [| exact Hge].
  intros H. destruct (Z.le_gt_cases 10 (count_recent_txs now m db)) as [|Hc]; [done |].
  rewrite (Hlt Hc) in H. discriminate.
Qed.

Lemma game_enter_rate_limited ledger now req m db :
  10 <= count_recent_txs now m db ->
  game_enter ledger now req m db = (inl rate_limited, db).
Proof.
  intros H. unfold game_enter, bind.
  by rewrite (proj1 (check_rate_limit_spec now m db) H).
Qed.

Lemma game_action_rate_limited ledger now req m db :
  10 <= count_recent_txs now m db ->
  game_action ledger now req m db = (inl rate_limited, db).
Proof.
  intros H. unfold game_action, bind.
  by rewrite (proj1 (check_rate_limit_spec now m db) H).
Qed.

(** An admissible [POST /game/enter] of a new action id queues one row. *)
Lemma game_enter_queued ledger now req m db :
  epoch_open ledger ->
  count_recent_txs now m db < 10 ->
  get_tx_by_action m (ed_action_id req) db = None ->
  exists db',
    game_enter ledger now req m db
    = (inr (queued (next_tx_id (tx_queue db)) (ed_action_id req)), db')
    /\ tx_queue db'
       = (tx_queue db
          ++ [new_row now (ed_action_id req) m "enterDungeon"
                [JInt (ed_dungeon_id req)] db])%list.
Proof.
  intros Hopen Hcount Hnew. unfold game_enter, bind.
  rewrite (proj2 (check_rate_limit_spec now m db) Hcount).
  unfold epoch_open in Hopen.
  assert (Hgate :
    match get_epoch_info ledger with
    | Some ei =>
        if negb (epoch_state_raw ei =? 0) then
          Some (error_response "EPOCH_NOT_ACTIVE"
                  "Cannot enter dungeon during Grace period. Wait for next epoch."
                  409 [("current_epoch", JInt (current_epoch ei));
                       ("epoch_state", JStr (epoch_state ei))])
        else None
    | None => None
    end = None).
  { destruct (get_epoch_info ledger) as [ei|]; [| reflexivity].
    rewrite Hopen. reflexivity. }
  rewrite Hgate. unfold _check_idempotency. rewrite Hnew.
  rewrite (enqueue_tx_fresh _ _ _ _ _ _ Hnew).
  match goal with
  | |- context [log_action ?a ?b ?c ?d ?e ?f ?g ?h ?i] =>
      destruct (log_action_never_raises a b c d e f g h i) as (b0 & db' & Hlog & Hq)
  end.
  rewrite Hlog. exists db'. split; [reflexivity | exact Hq].
Qed.

Lemma count_recent_all now m t0 db :
  Forall (fun r => tx_moltbook_id r = m -> t0 <= tx_created_at r) (tx_queue db) ->
  now < t0 + 3600 ->
  count_recent_txs now m db = Z.of_nat (length (rows_of m db)).
Proof.
  intros Hall Hnow. unfold count_recent_txs, rows_of. f_equal. f_equal.
  induction Hall as [|r q Hr _ IH]; [reflexivity |].
  destruct (decide (tx_moltbook_id r = m)) as [Hm|Hm].
  - rewrite !filter_cons_True; [by f_equal | done |].
    split; [done |]. specialize (Hr Hm). lia.
  - rewrite !filter_cons_False; [done | done | tauto].
Qed.

Lemma get_tx_by_action_fresh m a db :
  Forall (fun r => tx_moltbook_id r = m -> tx_action_id r <> a) (tx_queue db) ->
  get_tx_by_action m a db = None.
Proof.
  unfold get_tx_by_action. induction 1 as [|r q Hr _ IH]; simpl; [reflexivity |].
  destruct (same_action m a r) eqn:E; [| exact IH].
  apply same_action_iff in E as [Hm Ha]. by destruct (Hr Hm).
Qed.

Lemma enter_all_under_limit ledger m t0 reqs :
  forall db,
    epoch_open ledger ->
    Forall (fun p => t0 <= p.1 < t0 + 3600) reqs ->
    NoDup (action_ids reqs) ->
    Forall (fun r => tx_moltbook_id r = m ->
                     t0 <= tx_created_at r /\ tx_action_id r ∉ action_ids reqs)
           (tx_queue db) ->
    (length (rows_of m db) + length reqs <= 10)%nat ->
    exists results db',
      enter_all ledger m reqs db = (results, db')
      /\ Forall2 (fun p r => exists id, r = inr (queued id (ed_action_id p.2)))
                 reqs results
      /\ Forall (fun r => tx_moltbook_id r = m -> t0 <= tx_created_at r) (tx_queue db')
      /\ length (rows_of m db') = (length (rows_of m db) + length reqs)%nat.
Proof.
  induction reqs as [|[now req] reqs IH]; intros db Hopen Htimes Hnodup Hrows Hlen.
  - exists [], db. simpl. repeat split; [constructor | | lia].
    eapply Forall_impl; [exact Hrows |]. simpl. tauto.
  - apply Forall_cons in Htimes as [Hnow Htimes].
    apply NoDup_cons in Hnodup as [Hhead Hnodup].
    assert (Hold : Forall (fun r => tx_moltbook_id r = m -> t0 <= tx_created_at r)
                          (tx_queue db)).
    { eapply Forall_impl; [exact Hrows |]. simpl. tauto. }
    assert (Hcount : count_recent_txs now m db < 10).
    { rewrite (count_recent_all now m t0 db Hold) by (simpl in Hnow; lia).
      simpl in Hlen. lia. }
    assert (Hfresh : get_tx_by_action m (ed_action_id req) db = None).
    { apply get_tx_by_action_fresh. eapply Forall_impl; [exact Hrows |].
      simpl. intros r Hr Hm Ha. destruct (Hr Hm) as [_ Hnot]. apply Hnot.
      rewrite Ha. apply list_elem_of_here. }
    destruct (game_enter_queued ledger now req m db Hopen Hcount Hfresh)
      as (db1 & Hrun & Hq).
    assert (Hrows1 : rows_of m db1 = (rows_of m db ++ [new_row now (ed_action_id req) m
                        "enterDungeon" [JInt (ed_dungeon_id req)] db])%list).
    { unfold rows_of. rewrite Hq, filter_app.
      by rewrite (filter_cons_True _ (new_row _ _ _ _ _ _)), filter_nil. }
    destruct (IH db1 Hopen Htimes Hnodup) as (results & db' & Hrest & Hall & Hinv & Hcnt).
    + rewrite Hq. apply Forall_app. split.
      * eapply Forall_impl; [exact Hrows |]. simpl. intros r Hr Hm.
        destruct (Hr Hm) as [Ht Hnot]. split; [exact Ht |].
        intros Hin. apply Hnot. by apply list_elem_of_further.
      * apply Forall_singleton. simpl. intros _. split; [simpl in Hnow; lia | exact Hhead].
    + rewrite Hrows1, length_app. simpl in *. lia.
    + exists (inr (queued (next_tx_id (tx_queue db)) (ed_action_id req)) :: results), db'.
      simpl. rewrite Hrun, Hrest. repeat split.
      * constructor; [by eexists | exact Hall].
      * exact Hinv.
      * rewrite Hcnt, Hrows1, length_app. simpl. lia.
Qed.

Lemma enter_all_app ledger m reqs1 reqs2 db :
  enter_all ledger m (reqs1 ++ reqs2) db
  = let '(rs1, db1) := enter_all ledger m reqs1 db in
    let '(rs2, db2) := enter_all ledger m reqs2 db1 in
    ((rs1 ++ rs2)%list, db2).
Proof.
  revert db. induction reqs1 as [|[now req] reqs1 IH]; intros db; simpl.
  - by destruct (enter_all ledger m reqs2 db).
  - destruct (game_enter ledger now req m db) as [r db']. rewrite IH.
    destruct (enter_all ledger m reqs1 db') as [rs1 db1].
    by destruct (enter_all ledger m reqs2 db1).
Qed.

Lemma rows_of_nil_forall m db (P : TxRow -> Prop) :
  rows_of m db = [] -> Forall (fun r => tx_moltbook_id r = m -> P r) (tx_queue db).
Proof.
  unfold rows_of. induction (tx_queue db) as [|r q IH]; [constructor |].
  destruct (decide (tx_moltbook_id r = m)) as [Hm|Hm].
  - by rewrite filter_cons_True.
  - rewrite filter_cons_False by done. intros H. constructor; [tauto | by apply IH].
Qed.

(** C9. [_check_rate_limit] rejects with 429 exactly when the caller has at
    least 10 entries created in the last hour, and the endpoints run it
    before anything else, so a rejected attempt leaves the store as it was.
    A caller without entries who makes 11 attempts with distinct action ids
    inside one hour, while the contract is not in its grace phase, has the
    first 10 queued and the 11th rejected with 429. *)
Theorem rate_limit_ten_per_hour (ledger : Ledger) (m : string) (t0 : Z)
    (reqs : list (Z * EnterDungeonRequest)) (last : Z * EnterDungeonRequest)
    (db : Db) :
  epoch_open ledger ->
  length reqs = 10%nat ->
  Forall (fun p => t0 <= p.1 < t0 + 3600) (reqs ++ [last]) ->
  NoDup (action_ids (reqs ++ [last])) ->
  rows_of m db = [] ->
  (forall now db0,
      _check_rate_limit now m db0 = (inl rate_limited, db0)
      <-> 10 <= count_recent_txs now m db0)
  /\ (forall now db0, count_recent_txs now m db0 < 10 ->
        _check_rate_limit now m db0 = (inr tt, db0))
  /\ (forall now req db0, 10 <= count_recent_txs now m db0 ->
        game_enter ledger now req m db0 = (inl rate_limited, db0))
  /\ (forall now req db0, 10 <= count_recent_txs now m db0 ->
        game_action ledger now req m db0 = (inl rate_limited, db0))
  /\ let '(results, db10) := enter_all ledger m reqs db in
     enter_all ledger m (reqs ++ [last]) db = ((results ++ [inl rate_limited])%list, db10)
     /\ Forall2 (fun p r => exists id, r = inr (queued id (ed_action_id p.2)))
                reqs results
     /\ length (rows_of m db10) = 10%nat.
Proof.
  intros Hopen Hlen Htimes Hnodup Hnone.
  split; [intros; apply check_rate_limit_iff |].
  split; [intros now db0; apply check_rate_limit_spec |].
  split; [intros; by apply game_enter_rate_limited |].
  split; [intros; by apply game_action_rate_limited |].
  apply Forall_app in Htimes as [Htimes Hlast].
  apply Forall_inv in Hlast.
  unfold action_ids in Hnodup. rewrite fmap_app in Hnodup.
  apply NoDup_app in Hnodup as (Hnodup & _ & _).
  destruct (enter_all_under_limit ledger m t0 reqs db Hopen Htimes Hnodup)
    as (results & db10 & Hrun & Hall & Hinv & Hcnt).
  { by apply (rows_of_nil_forall m db
                (fun r => t0 <= tx_created_at r /\ tx_action_id r ∉ action_ids reqs)). }
  { rewrite Hnone, Hlen. simpl. lia. }
  rewrite Hrun, enter_all_app, Hrun. destruct last as [now req]. simpl.
  rewrite Hnone, Hlen in Hcnt. simpl in Hcnt.
  rewrite game_enter_rate_limited.
  - repeat split; [exact Hall | exact Hcnt].
  - rewrite (count_recent_all now m t0 db10 Hinv) by (simpl in Hlast; lia). lia.
Qed.

Lemma rate_limit_ten_per_hour_witness :
  (forall now db0,
      _check_rate_limit now "alice" db0 = (inl rate_limited, db0)
      <-> 10 <= count_recent_txs now "alice" db0)
  /\ (forall now db0, count_recent_txs now "alice" db0 < 10 ->
        _check_rate_limit now "alice" db0 = (inr tt, db0))
  /\ (forall now req db0, 10 <= count_recent_txs now "alice" db0 ->
        game_enter quiet_ledger now req "alice" db0 = (inl rate_limited, db0))
  /\ (forall now req db0, 10 <= count_recent_txs now "alice" db0 ->
        game_action quiet_ledger now req "alice" db0 = (inl rate_limited, db0))
  /\ let '(results, db10) := enter_all quiet_ledger "alice" ten_enters empty_db in
     enter_all quiet_ledger "alice" (ten_enters ++ [enter_req 10]) empty_db
     = ((results ++ [inl rate_limited])%list, db10)
     /\ Forall2 (fun p r => exists id, r = inr (queued id (ed_action_id p.2)))
                ten_enters results
     /\ length (rows_of "alice" db10) = 10%nat.
Proof.
  apply (rate_limit_ten_per_hour quiet_ledger "alice" 1000 ten_enters (enter_req 10)
           empty_db).
  - reflexivity.
  - reflexivity.
  - repeat constructor; simpl; lia.
  - apply (bool_decide_unpack _). vm_compute. exact I.
  - reflexivity.
Defined.

(** ** Turn validation *)

Lemma validate_turn_index_mismatch ledger sid turn info :
  get_session_info ledger sid = Some info ->
  si_state info = 2 ->
  turn <> si_current_turn info ->
  validate_turn_index ledger sid turn = inl (turn_mismatch (si_current_turn info) turn).
Proof.
  intros Hinfo Hstate Hturn. unfold validate_turn_index. rewrite Hinfo, Hstate.
  simpl. destruct (Z.eqb_spec turn (si_current_turn info)); [done | reflexivity].
Qed.

(** C7, as amended. For an Active session and a declared turn that is not
    the current one: [validate_turn_index] answers TURN_MISMATCH with the
    current turn as [expected] and the declared one as [got];
    [POST /game/action] never changes the store; and it gives that answer
    when the caller is under the rate limit and the action id is not queued
    yet, the two checks it runs first. *)
Theorem turn_mismatch_after_guards (ledger : Ledger) (now : Z)
    (req : SubmitActionRequest) (m : string) (db : Db) (info : SessionInfo) :
  get_session_info ledger (sa_session_id req) = Some info ->
  si_state info = 2 ->
  sa_turn_index req <> si_current_turn info ->
  validate_turn_index ledger (sa_session_id req) (sa_turn_index req)
  = inl (turn_mismatch (si_current_turn info) (sa_turn_index req))
  /\ snd (game_action ledger now req m db) = db
  /\ (count_recent_txs now m db < 10 ->
      get_tx_by_action m (sa_action_id req) db = None ->
      game_action ledger now req m db
      = (inr (turn_mismatch (si_current_turn info) (sa_turn_index req)), db)).
Proof.
  intros Hinfo Hstate Hturn.
  pose proof (validate_turn_index_mismatch ledger _ _ info Hinfo Hstate Hturn) as Hval.
  split; [exact Hval |]. split.
  - unfold game_action, bind, _check_rate_limit, _check_idempotency.
    destruct (max_tx_per_hour settings <=? count_recent_txs now m db); [reflexivity |].
    destruct (get_tx_by_action m (sa_action_id req) db); [reflexivity |].
    rewrite Hval. reflexivity.
  - intros Hcount Hnew. unfold game_action, bind.
    rewrite (proj2 (check_rate_limit_spec now m db) Hcount).
    unfold _check_idempotency. rewrite Hnew, Hval. reflexivity.
Qed.

Lemma turn_mismatch_after_guards_witness :
  validate_turn_index arena_ledger 1 5 = inl (turn_mismatch 3 5)
  /\ snd (game_action arena_ledger 1000 late_action "alice" empty_db) = empty_db
  /\ (count_recent_txs 1000 "alice" empty_db < 10 ->
      get_tx_by_action "alice" "act-1" empty_db = None ->
      game_action arena_ledger 1000 late_action "alice" empty_db
      = (inr (turn_mismatch 3 5), empty_db)).
Proof.
  apply (turn_mismatch_after_guards arena_ledger 1000 late_action "alice" empty_db
           {| si_dm := Some "0xdm"; si_state := 2; si_current_turn := 3;
              si_current_actor := Some "0xplayer"; si_dm_epoch := 0 |}).
  - reflexivity.
  - reflexivity.
  - simpl. lia.
Defined.

(** C7 as stated fails: a caller at the rate limit who declares turn 5 of
    an Active session at turn 3 is answered 429, not TURN_MISMATCH. *)
Lemma turn_mismatch_counterexample :
  game_action arena_ledger 1600 late_action "alice" busy_db = (inl rate_limited, busy_db)
  /\ ~ rejects_turn_mismatch arena_ledger 1600 late_action "alice" busy_db.
Proof.
  assert (H : game_action arena_ledger 1600 late_action "alice" busy_db
              = (inl rate_limited, busy_db)).
  { apply game_action_rate_limited. vm_compute. discriminate. }
  split; [exact H |].
  intros Hclaim.
  specialize (Hclaim {| si_dm := Some "0xdm"; si_state := 2; si_current_turn := 3;
                        si_current_actor := Some "0xplayer"; si_dm_epoch := 0 |}
                eq_refl eq_refl).
  rewrite H in Hclaim. simpl in Hclaim.
  assert (Hne : (5 : Z) <> 3) by lia. specialize (Hclaim Hne). discriminate.
Qed.

(** ** Duplicate submissions *)

Lemma run_enter_returned (n : nat) (c : Entering) r db :
  run_enter n c (Returned r) db = (Returned r, db).
Proof. induction n as [|n IH]; [reflexivity |]. cbn. exact IH. Qed.

(** A request that takes its four steps without another one in between
    does what [game_enter] does. *)
Lemma game_enter_in_steps (c : Entering) (db : Db) :
  run_enter 4 c AtRateLimit db
  = let '(r, db') :=
      game_enter (en_ledger c) (en_now c) (en_req c) (en_moltbook_id c) db in
    (Returned r, db').
Proof.
  unfold game_enter, bind. cbn [run_enter step_enter].
  destruct (_check_rate_limit (en_now c) (en_moltbook_id c) db) as [[e|[]] db1];
    [reflexivity |].
  assert (Hrest :
    forall epoch,
      get_epoch_info (en_ledger c) = epoch ->
      (let '(pc', db') := step_enter c AtIdempotency db1 in
       let '(pc'0, db'0) := step_enter c pc' db' in
       let '(pc'1, db'1) := step_enter c pc'0 db'0 in (pc'1, db'1))
      = (let '(r, db') :=
           match _check_idempotency (en_moltbook_id c) (ed_action_id (en_req c)) db1 with
           | (inr a, s') =>
               match a with
               | Some r => ret (TxStatus r)
               | None =>
                   fun s =>
                     match enqueue_tx (en_now c) (ed_action_id (en_req c))
                             (en_moltbook_id c) "enterDungeon"
                             [JInt (ed_dungeon_id (en_req c))] s with
                     | (inr a0, s'0) =>
                         match log_action (en_now c) (ed_action_id (en_req c)) 0
                                 (en_moltbook_id c) "enter"
                                 (from_option current_epoch 0 epoch) None None s'0 with
                         | (inr _, s'1) => ret (queued a0 (ed_action_id (en_req c))) s'1
                         | (inl e, s'1) => (inl e, s'1)
                         end
                     | (inl e, s'0) => (inl e, s'0)
                     end
               end s'
           | (inl e, s') => (inl e, s')
           end in
         (Returned r, db'))).
  { intros epoch Hepoch. cbn [step_enter].
    destruct (_check_idempotency _ _ db1) as [[e|[existing|]] db2]; [reflexivity ..|].
    cbn [step_enter].
    destruct (enqueue_tx _ _ _ _ _ db2) as [[e|tx_id] db3]; [reflexivity |].
    cbn [step_enter]. rewrite Hepoch.
    destruct (log_action _ _ _ _ _ _ _ _ db3) as [[e|b] db4]; reflexivity. }
  destruct (get_epoch_info (en_ledger c)) as [ei|] eqn:Hei; [| by apply Hrest].
  destruct (negb (epoch_state_raw ei =? 0)); [reflexivity | by apply Hrest].
Qed.

(** C1. Two requests of one caller with one action id, on the empty store,
    the second arriving while the first is between its idempotency check
    and its insert: both pass [_check_idempotency]; the first is queued
    under id 1; the [INSERT] of the second is refused by the uniqueness
    constraint, and since no handler catches the error the caller gets it
    (the answer 500) instead of the id of the entry. One row is in the
    queue, and the connection is left inside a transaction. *)
Theorem concurrent_duplicate_gets_integrity_error :
  let '(pa, pb, db') :=
    run_schedule racing (enter_once 1000) (enter_once 1001)
      AtRateLimit AtRateLimit empty_db in
  pa = Returned (inr (queued 1 "enter-1"))
  /\ pb = Returned (inl unique_violation)
  /\ observed_id pa = Some 1
  /\ observed_id pb = None
  /\ (fun r => (tx_id r, tx_moltbook_id r, tx_action_id r)) <$> tx_queue db'
     = [(1, "alice", "enter-1")]
  /\ in_transaction db' = true
  /\ ~ both_observe_one_entry "alice" "enter-1" pa pb db'.
Proof.
  vm_compute. repeat split.
  intros [_ (id & _ & Hb)]. discriminate Hb.
Qed.

(** When the first request has returned before the second starts, and the
    caller is under the rate limit, the second is answered with the entry
    of the first. *)
Example sequential_duplicate_echoes :
  let '(pa, pb, db') :=
    run_schedule [true; true; true; true; false; false]
      (enter_once 1000) (enter_once 1001) AtRateLimit AtRateLimit empty_db in
  both_observe_one_entry "alice" "enter-1" pa pb db'
  /\ observed_id pb = Some 1.
Proof.
  vm_compute. repeat split. exists 1. split; reflexivity.
Qed.

(** The rate limit comes before the idempotency check: a caller with ten
    entries in the last hour who sends one of them again is answered 429,
    not with the entry. *)
Example resubmission_at_ceiling_rate_limited :
  tx_id <$> get_tx_by_action "alice" "enter-9" busy_db = Some 10
  /\ game_enter quiet_ledger 1600 (enter_req 9).2 "alice" busy_db
     = (inl rate_limited, busy_db).
Proof. vm_compute. split; reflexivity. Qed.

(** ** The nonce manager *)

Lemma get_nonce_cached tc n :
  get_nonce tc {| _nonce := Some n |} = (inr (n + 1), {| _nonce := Some (n + 1) |}).
Proof. reflexivity. Qed.

Lemma get_nonce_first c :
  get_nonce (inr c) {| _nonce := None |} = (inr c, {| _nonce := Some c |}).
Proof. reflexivity. Qed.

Lemma get_nonce_unreachable e :
  get_nonce (inl e) {| _nonce := None |} = (inl e, {| _nonce := None |}).
Proof. reflexivity. Qed.

Lemma send_tx_outcome node method args cl :
  send_outcome cl (send_tx node method args [] cl).
Proof.
  unfold send_tx, bind, get.
  destruct (runner_address cl) as [address|] eqn:Haddr; [| apply send_untouched].
  destruct (encodes node method args); cbn [negb]; [| apply send_untouched].
  unfold with_nonce_manager, get_nonce.
  destruct cl as [addr [[m|]] sent]; cbn in *.
  - destruct (gas_price node) as [e|price]; cbn.
    + match goal with |- send_outcome ?c _ => apply (send_nonce_spent c e (m + 1)) end.
      cbn. intros ? [= <-]. reflexivity.
    + destruct (send_raw_transaction node _) as [e|h] eqn:Hsend; cbn.
      * match goal with |- send_outcome ?c _ => apply (send_nonce_spent c e (m + 1)) end.
        cbn. intros ? [= <-]. reflexivity.
      * unfold ret. match goal with
        | |- send_outcome ?c (_, Build_ContractClient _ _ (_ ++ [?tx])) =>
            apply (send_broadcast c h (m + 1) tx)
        end; [cbn; intros ? [= <-]; reflexivity | reflexivity].
  - destruct (get_transaction_count node) as [e|c]; cbn; [apply send_untouched |].
    destruct (gas_price node) as [e|price]; cbn.
    + match goal with |- send_outcome ?k _ => apply (send_nonce_spent k e c) end.
      cbn. discriminate.
    + destruct (send_raw_transaction node _) as [e|h] eqn:Hsend; cbn.
      * match goal with |- send_outcome ?k _ => apply (send_nonce_spent k e c) end.
        cbn. discriminate.
      * unfold ret. match goal with
        | |- send_outcome ?k (_, Build_ContractClient _ _ (_ ++ [?tx])) =>
            apply (send_broadcast k h c tx)
        end; [cbn; discriminate | reflexivity].
Qed.

Lemma StronglySorted_snoc (l : list Z) (y : Z) :
  StronglySorted Z.lt l -> Forall (fun x => x < y) l -> StronglySorted Z.lt (l ++ [y]).
Proof.
  induction 1 as [|x l Hl IH Hx]; intros Hy; simpl.
  - repeat constructor.
  - apply Forall_cons in Hy as [Hxy Hy]. constructor; [by apply IH |].
    apply Forall_app. split; [exact Hx | by constructor].
Qed.

Lemma consecutive_snoc (l : list Z) (y : Z) :
  consecutive l -> (forall x, last l = Some x -> y = x + 1) -> consecutive (l ++ [y]).
Proof.
  induction l as [|a [|b r] IH]; intros Hl Hlast.
  - exact I.
  - simpl. split; [by apply Hlast | exact I].
  - destruct Hl as [Hb Hr]. split; [exact Hb |]. apply IH; [exact Hr | exact Hlast].
Qed.

Lemma send_outcome_sorted cl res :
  send_outcome cl res ->
  StronglySorted Z.lt (broadcast_nonces cl) -> nonces_bounded cl ->
  StronglySorted Z.lt (broadcast_nonces res.2) /\ nonces_bounded res.2.
Proof.
  unfold nonces_bounded, broadcast_nonces.
  intros [e | e n Hn | h n tx Hn Htx] Hsorted Hbound; cbn.
  - by split.
  - split; [exact Hsorted |]. eapply Forall_impl; [exact Hbound |].
    cbn. intros x (m & Hm & Hle). exists n. split; [reflexivity |].
    specialize (Hn m Hm). lia.
  - rewrite fmap_app. cbn. rewrite Htx. split.
    + apply StronglySorted_snoc; [exact Hsorted |].
      eapply Forall_impl; [exact Hbound |]. cbn. intros x (m & Hm & Hle).
      specialize (Hn m Hm). lia.
    + apply Forall_app. split.
      * eapply Forall_impl; [exact Hbound |]. cbn. intros x (m & Hm & Hle).
        exists n. split; [reflexivity |]. specialize (Hn m Hm). lia.
      * apply Forall_singleton. exists n. split; [reflexivity | lia].
Qed.

Lemma send_all_sorted calls :
  forall cl,
    StronglySorted Z.lt (broadcast_nonces cl) -> nonces_bounded cl ->
    StronglySorted Z.lt (broadcast_nonces (send_all calls cl).2).
Proof.
  induction calls as [|c calls IH]; intros cl Hsorted Hbound; [exact Hsorted |].
  cbn [send_all].
  destruct (send_outcome_sorted cl _ (send_tx_outcome (call_node c) (call_method c)
              (call_args c) cl) Hsorted Hbound) as [Hs Hb].
  destruct (send_tx _ _ _ _ cl) as [r cl']. specialize (IH cl' Hs Hb).
  destruct (send_all calls cl') as [rs cl'']. exact IH.
Qed.

Lemma send_all_consecutive calls :
  forall cl,
    consecutive (broadcast_nonces cl) -> cache_is_last cl ->
    Forall (fun r => exists h, r = inr h) (send_all calls cl).1 ->
    consecutive (broadcast_nonces (send_all calls cl).2).
Proof.
  induction calls as [|c calls IH]; intros cl Hcons Hlast Hok; [exact Hcons |].
  cbn [send_all] in *.
  pose proof (send_tx_outcome (call_node c) (call_method c) (call_args c) cl) as Hout.
  destruct (send_tx _ _ _ _ cl) as [r cl'].
  destruct (send_all calls cl') as [rs cl''] eqn:Hrest. cbn in Hok.
  apply Forall_cons in Hok as [(h & ->) Hok].
  replace cl'' with (send_all calls cl').2 by (by rewrite Hrest).
  inversion Hout as [ | | h' n tx Hn Htx]; subst.
  apply IH; [| | by rewrite Hrest].
  - unfold broadcast_nonces. cbn. rewrite fmap_app. cbn.
    apply consecutive_snoc; [exact Hcons |].
    intros x Hx. apply Hn. by apply Hlast.
  - intros x. unfold broadcast_nonces. cbn. rewrite fmap_app. cbn.
    rewrite last_snoc. by intros [= <-].
Qed.

Lemma StronglySorted_lt_NoDup (l : list Z) : StronglySorted Z.lt l -> NoDup l.
Proof.
  induction 1 as [|x l _ IH Hx]; constructor; [| exact IH].
  intros Hin. rewrite Forall_forall in Hx. specialize (Hx x Hin). lia.
Qed.

(** [POST /admin/mint-runner-tickets] never gets to its own read of the
    node's transaction count: whatever the node would answer, the endpoint
    answers 500 and leaves the client, its nonce manager and its
    broadcasts as they were. *)
Lemma admin_mint_never_sends node cl :
  admin_mint_runner_tickets node cl
  = (inl (HTTPException 500 "name 'os' is not defined"), cl).
Proof. reflexivity. Qed.

(** C2, as amended. For every run of [send_tx] calls on a client that has
    broadcast nothing yet, whatever the node answers: every nonce comes
    from [get_nonce], which hands out the node's pending count on first use
    and the cached value plus one afterwards; the nonces of the accepted
    transactions are strictly increasing, hence without repeats; and they
    are consecutive when every call of the run succeeds. No other path
    sends with a nonce of its own: the one endpoint written to read the
    node's count itself, [/admin/mint-runner-tickets], fails before that
    read and sends nothing. *)
Theorem send_tx_nonces_strictly_increase (calls : list Call)
    (address : option string) (nm : NonceManager) :
  let '(results, cl) :=
    send_all calls
      {| runner_address := address; nonce_manager := nm; broadcasts := [] |} in
  StronglySorted Z.lt (broadcast_nonces cl)
  /\ NoDup (broadcast_nonces cl)
  /\ (Forall (fun r => exists h, r = inr h) results ->
      consecutive (broadcast_nonces cl))
  /\ (forall tc n,
        get_nonce tc {| _nonce := Some n |}
        = (inr (n + 1), {| _nonce := Some (n + 1) |}))
  /\ (forall c,
        get_nonce (inr c) {| _nonce := None |} = (inr c, {| _nonce := Some c |}))
  /\ (forall node cl0,
        admin_mint_runner_tickets node cl0
        = (inl (HTTPException 500 "name 'os' is not defined"), cl0)).
Proof.
  set (cl0 := {| runner_address := address; nonce_manager := nm; broadcasts := [] |}).
  pose proof (send_all_sorted calls cl0) as Hsorted.
  pose proof (send_all_consecutive calls cl0) as Hcons.
  destruct (send_all calls cl0) as [results cl]. cbn in Hsorted, Hcons.
  assert (Hs : StronglySorted Z.lt (broadcast_nonces cl)).
  { apply Hsorted; constructor. }
  split; [exact Hs |]. split; [by apply StronglySorted_lt_NoDup |].
  split; [| split; [| split]; reflexivity].
  intros Hok. apply Hcons; [exact I | | exact Hok].
  intros x. cbn. discriminate.
Qed.

Lemma send_tx_nonces_strictly_increase_witness :
  let '(results, cl) := send_all [call_on true; call_on true; call_on true] fresh_client in
  Forall (fun r => exists h, r = inr h) results
  /\ broadcast_nonces cl = [7; 8; 9]
  /\ consecutive (broadcast_nonces cl).
Proof.
  pose proof (send_tx_nonces_strictly_increase
                [call_on true; call_on true; call_on true]
                (Some "0xrunner") {| _nonce := None |}) as H.
  fold fresh_client in H.
  destruct (send_all [call_on true; call_on true; call_on true] fresh_client)
    as [results cl] eqn:Hrun.
  destruct H as (_ & _ & Hcons & _).
  vm_compute in Hrun. injection Hrun as <- <-.
  assert (Hok : Forall (fun r : Exn + string => exists h, r = inr h)
                  [inr "0xhash7"; inr "0xhash8"; inr "0xhash9"])
    by (repeat constructor; eexists; reflexivity).
  split; [exact Hok |]. split; [reflexivity |]. exact (Hcons Hok).
Defined.

(** C2 as stated fails: a broadcast that the node refuses has already used
    up its nonce, so the next accepted transaction skips one. *)
Lemma failed_broadcast_leaves_gap :
  let '(results, cl) := send_all [call_on true; call_on false; call_on true] fresh_client in
  results = [inr "0xhash7";
             inl (Web3Error "insufficient funds for gas * price + value");
             inr "0xhash9"]
  /\ broadcast_nonces cl = [7; 9]
  /\ ~ consecutive (broadcast_nonces cl).
Proof.
  vm_compute. repeat split. intros [H _]. discriminate H.
Qed.

(** ** The worker *)

Lemma upd_upd now now' id s s' h h' e e' q :
  upd now' id s' h' e' (upd now id s h e q) = upd now' id s' h' e' q.
Proof.
  unfold upd. rewrite <- list_fmap_compose. apply list_fmap_ext.
  intros _ r _. cbn. destruct (tx_id r =? id) eqn:E; cbn; rewrite E; reflexivity.
Qed.

Section WorkerFacts.
Context {C : Type} (cli : Client C).

Lemma update_tx_status_run (w : World C) id s h e :
  with_db (fun now => update_tx_status now id s h e) w
  = (inr tt,
     {| db := set_in_transaction false
                (set_tx_queue (upd (clock w) id s h e (tx_queue (db w))) (db w));
        client := client w; clock := clock w; log := log w |}).
Proof. reflexivity. Qed.

(** Polling without an answer: the loop runs out, and only time has
    passed. *)
Lemma poll_receipt_timeout (n : nat) (tx : TxRow) (h : string) :
  forall w : World C,
    (forall k, (1 <= k <= n)%nat ->
       client_get_receipt cli h (Nat.iter k (client_sleep cli 2) (client w)) = None) ->
    poll_receipt cli n tx h w
    = (inr false,
       {| db := db w; client := Nat.iter n (client_sleep cli 2) (client w);
          clock := clock w + 2 * Z.of_nat n; log := log w |}).
Proof.
  induction n as [|n IH]; intros w Hnone.
  - cbn. destruct w; cbn. f_equal. f_equal. lia.
  - cbn [poll_receipt]. unfold bind at 1. unfold sleep, modify.
    unfold bind at 1. unfold get.
    cbn [client]. pose proof (Hnone 1%nat ltac:(lia)) as H1. cbn in H1. rewrite H1.
    rewrite IH.
    + cbn [db client clock log]. f_equal. f_equal.
      * rewrite <- Nat.iter_succ_r. reflexivity.
      * lia.
    + intros k Hk. cbn [client]. rewrite <- Nat.iter_succ_r. apply Hnone. lia.
Qed.

End WorkerFacts.

(** C8. When [send_tx] returned a hash and none of the 15 polls, 2 seconds
    apart, finds a receipt, [process_single_tx] returns normally; the entry
    is left [submitted] with that hash and no error; no XP event and no
    statistics are written; and the only trace is the warning
    [tx_receipt_timeout] in the log. *)
Theorem receipt_timeout_leaves_submitted {C : Type} (cli : Client C)
    (tx : TxRow) (w : World C) (h : string) (c1 : C) :
  client_send_tx cli (tx_method tx) (tx_params tx) (value_kwarg tx) (client w)
  = (inr h, c1) ->
  (forall k, (1 <= k <= 15)%nat ->
     client_get_receipt cli h (Nat.iter k (client_sleep cli 2) c1) = None) ->
  let '(r, w') := process_single_tx cli tx w in
  r = inr tt
  /\ tx_queue (db w') = upd (clock w) (tx_id tx) submitted (Some h) None (tx_queue (db w))
  /\ xp_events (db w') = xp_events (db w)
  /\ agent_stats (db w') = agent_stats (db w)
  /\ log w' = (log w ++ [(info, "tx_submitted"); (warning, "tx_receipt_timeout")])%list
  /\ clock w' = clock w + 30.
Proof.
  intros Hsend Hnone. unfold process_single_tx, try_except.
  unfold bind at 1. rewrite update_tx_status_run.
  unfold bind at 1. unfold with_client at 1. cbn [client].
  fold (value_kwarg tx). rewrite Hsend.
  unfold bind at 1. rewrite update_tx_status_run.
  unfold bind at 1. unfold logger at 1, modify.
  unfold bind at 1. rewrite poll_receipt_timeout by exact Hnone.
  cbn [db client clock log tx_queue set_tx_queue set_in_transaction xp_events agent_stats Z.of_nat Pos.of_succ_nat Pos.succ Z.mul Pos.mul Pos.add].
  unfold logger, modify.
  cbn [db client clock log tx_queue set_tx_queue set_in_transaction xp_events agent_stats].
  rewrite upd_upd, <- app_assoc. repeat split; try reflexivity; lia.
Qed.

(** C5. With the contract client of the repository every entry the worker
    processes ends [failed]: [send_tx] takes no keyword argument, so the
    call with [value=...] raises [TypeError] before a nonce is allocated or
    anything is built, signed or broadcast. *)
Theorem worker_call_rejected_by_send_tx (node : Node)
    (receipts : string -> option Receipt) (tx : TxRow) (w : World ContractClient) :
  let '(r, w') := process_single_tx (contract_client node receipts) tx w in
  r = inr tt
  /\ client w' = client w
  /\ tx_queue (db w')
     = upd (clock w) (tx_id tx) failed None
         (Some "ContractClient.send_tx() got an unexpected keyword argument 'value'")
         (tx_queue (db w))
  /\ log w' = (log w ++ [(error, "tx_failed")])%list.
Proof.
  unfold process_single_tx, try_except.
  unfold bind at 1. rewrite update_tx_status_run.
  unfold bind at 1. unfold with_client at 1.
  cbn [contract_client client_send_tx send_tx value_kwarg raise db client clock log].
  unfold logger, modify, bind. rewrite update_tx_status_run.
  cbn [db client clock log tx_queue set_tx_queue set_in_transaction str append].
  rewrite upd_upd. repeat split.
Qed.

Lemma receipt_timeout_leaves_submitted_witness :
  let '(r, w') := process_single_tx silent_client enter_row (one_pending tt) in
  r = inr tt
  /\ tx_queue (db w')
     = upd (clock (one_pending tt)) (tx_id enter_row) submitted (Some "0xabc") None
         (tx_queue (db (one_pending tt)))
  /\ xp_events (db w') = xp_events (db (one_pending tt))
  /\ agent_stats (db w') = agent_stats (db (one_pending tt))
  /\ log w' = (log (one_pending tt)
               ++ [(info, "tx_submitted"); (warning, "tx_receipt_timeout")])%list
  /\ clock w' = clock (one_pending tt) + 30.
Proof.
  apply (receipt_timeout_leaves_submitted silent_client enter_row (one_pending tt)
           "0xabc" tt).
  - reflexivity.
  - intros k _. reflexivity.
Defined.

(** The failing input of C5: the worker processes a pending [enterDungeon]
    entry with the repository's client in front of a node that would accept
    anything. The entry ends [failed] with the [TypeError] as its error,
    and nothing was broadcast. *)
Example enter_entry_fails_on_value_keyword :
  let node := {| encodes := fun _ _ => true; get_transaction_count := inr 7;
                 gas_price := inr 100;
                 send_raw_transaction := fun _ => inr "0xabc" |} in
  let cl := {| runner_address := Some "0xrunner";
               nonce_manager := {| _nonce := None |}; broadcasts := [] |} in
  let w' := snd (process_pending_txs (contract_client node (fun _ => None))
                   (one_pending cl)) in
  (fun r => (tx_status r, tx_hash r, tx_error r)) <$> tx_queue (db w')
  = [(failed, None,
      Some "ContractClient.send_tx() got an unexpected keyword argument 'value'")]
  /\ broadcasts (client w') = []
  /\ _nonce (nonce_manager (client w')) = None.
Proof. vm_compute. repeat split; reflexivity. Qed.



(** ** The life cycle of a queue entry *)

Lemma status_le_refl s : status_le s s.
Proof. by left. Qed.

Lemma status_le_trans a b c : status_le a b -> status_le b c -> status_le a c.
Proof. unfold status_le. intros [->|Hab] [->|Hbc]; auto. right. lia. Qed.

Lemma status_le_pending s : status_le pending s.
Proof. destruct s; [by left | right; cbn; lia ..]. Qed.

Lemma advances_refl r : advances r r.
Proof. repeat split; auto using status_le_refl. Qed.

Lemma advances_trans a b c : advances a b -> advances b c -> advances a c.
Proof.
  intros (H1 & H2 & H3 & H4 & H5) (G1 & G2 & G3 & G4 & G5).
  repeat split; try congruence; eauto using status_le_trans.
Qed.

Lemma queue_advances_refl q : queue_advances q q.
Proof.
  exists q, []. split; [by rewrite app_nil_r |].
  apply Forall2_same_length_lookup. split; [done |].
  intros i x y Hx Hy. assert (x = y) as -> by congruence. apply advances_refl.
Qed.

Lemma queue_advances_trans q q' q'' :
  queue_advances q q' -> queue_advances q' q'' -> queue_advances q q''.
Proof.
  intros (q1 & q2 & -> & H1) (p1 & p2 & -> & H2).
  apply Forall2_app_inv_l in H2 as (p1a & p1b & Ha & Hb & ->).
  exists p1a, (p1b ++ p2)%list. split; [by rewrite app_assoc |].
  clear Hb. revert p1a Ha. induction H1 as [|x y l l' Hxy _ IH]; intros p1a Ha.
  - apply Forall2_nil_inv_l in Ha as ->. constructor.
  - apply Forall2_cons_inv_l in Ha as (z & p' & Hyz & Hrest & ->).
    constructor; [by eapply advances_trans | by apply IH].
Qed.

Lemma queue_advances_lookup q q' i r :
  queue_advances q q' -> q !! i = Some r ->
  exists r', q' !! i = Some r' /\ advances r r'.
Proof.
  intros (q1 & q2 & -> & H) Hi.
  destruct (Forall2_lookup_l _ _ _ _ _ H Hi) as (r' & Hr' & Hadv).
  exists r'. split; [by apply lookup_app_l_Some | exact Hadv].
Qed.

(** *** One update *)

Lemma upd_ids now id s h e q : tx_id <$> upd now id s h e q = tx_id <$> q.
Proof.
  unfold upd. rewrite <- list_fmap_compose. apply list_fmap_ext.
  intros _ r _. cbn. by destruct (tx_id r =? id).
Qed.

Lemma upd_advances now id s h e q :
  Forall (fun r => tx_id r = id ->
                   status_le (tx_status r) s
                   /\ forall h0, tx_hash r = Some h0 -> h = Some h0) q ->
  Forall2 advances q (upd now id s h e q).
Proof.
  unfold upd. induction 1 as [|r q Hr _ IH]; cbn; constructor; [| exact IH].
  destruct (Z.eqb_spec (tx_id r) id) as [Heq|Hne]; [| apply advances_refl].
  destruct (Hr Heq) as [Hs Hh]. repeat split; auto.
Qed.

Lemma upd_wf now id s h e q :
  (h = None \/ 2 <= status_rank s) -> wf_queue q -> wf_queue (upd now id s h e q).
Proof.
  intros Hok [Hnodup Hrows]. split; [by rewrite upd_ids |].
  unfold upd. apply Forall_fmap. eapply Forall_impl; [exact Hrows |].
  intros r Hr. cbn. destruct (tx_id r =? id); [exact Hok | exact Hr].
Qed.

Lemma upd_other now id s h e q r :
  r ∈ upd now id s h e q -> tx_id r <> id -> r ∈ q.
Proof.
  unfold upd. intros (r0 & -> & Hin)%list_elem_of_fmap Hne.
  destruct (Z.eqb_spec (tx_id r0) id) as [Heq|_]; [| exact Hin].
  cbn in Hne. contradiction.
Qed.

(** *** One entry processed by the worker *)

(** The award of the worker comes right after the [commit] of
    [update_tx_status] and binds small integers, so it returns. *)
Lemma award_xp_keeps_queue now k m t src md db :
  in_transaction db = false ->
  exists b db',
    award_xp now k m 0 0 t 10 0 src md db = (inr b, db')
    /\ tx_queue db' = tx_queue db
    /\ in_transaction db' = false.
Proof.
  intros Hc.
  set (a := {| aw_now := now; aw_idempotency_key := k; aw_moltbook_id := m;
               aw_session_id := 0; aw_epoch_id := 0; aw_event_type := t;
               aw_xp_amount := 10; aw_gold_amount := 0; aw_source := src;
               aw_metadata := md |}).
  change (award_xp now k m 0 0 t 10 0 src md db) with (award a db).
  assert (Hb : binds a) by reflexivity.
  destruct (decide (Exists (has_key (aw_idempotency_key a)) (xp_events db))) as [H|H].
  - rewrite (award_duplicate a db Hc Hb H). by exists false, db.
  - rewrite (award_fresh a db Hc Hb); [| by apply Forall_Exists_neg].
    by exists true, (awarded a db).
Qed.

Section Lifecycle.
Context {C : Type} (cli : Client C).

(** The polling loop never raises; it leaves the queue alone or writes
    [mined] or [failed], with the hash, on the entry. *)
Lemma poll_receipt_queue (n : nat) (tx : TxRow) (h : string) :
  forall w : World C,
    exists b w',
      poll_receipt cli n tx h w = (inr b, w')
      /\ (tx_queue (db w') = tx_queue (db w)
          \/ exists now s, (s = mined \/ s = failed)
               /\ tx_queue (db w')
                  = upd now (tx_id tx) s (Some h) None (tx_queue (db w))).
Proof.
  induction n as [|n IH]; intros w.
  - exists false, w. split; [reflexivity | by left].
  - cbn [poll_receipt]. unfold bind at 1. unfold sleep, modify.
    unfold bind at 1. unfold get. cbn [client].
    destruct (client_get_receipt cli h (client_sleep cli 2 (client w)))
      as [receipt|].
    + unfold bind at 1. rewrite update_tx_status_run.
      cbn [db client clock log].
      destruct (bool_decide (receipt_status receipt = Some 1)).
      * cbn [bool_decide decide_rel Status_eq_dec].
        rewrite bool_decide_eq_true_2 by reflexivity.
        unfold bind at 1. unfold bind at 1. unfold with_db at 1.
        cbn [db client clock log].
        destruct (award_xp_keeps_queue (clock w + 2) ("tx_mined:" ++ pretty (tx_id tx))
                    (tx_moltbook_id tx) ("tx_" ++ tx_method tx) "tx_worker"
                    None
                    (set_in_transaction false
                       (set_tx_queue
                          (upd (clock w + 2) (tx_id tx) mined (Some h) None
                             (tx_queue (db w))) (db w))) eq_refl)
          as (b & db' & Haward & Hq & _).
        rewrite Haward. unfold ret at 1. unfold bind at 1.
        unfold logger, modify, ret. eexists _, _. split; [reflexivity |].
        right. exists (clock w + 2), mined. split; [by left |].
        cbn [db]. rewrite Hq. reflexivity.
      * rewrite bool_decide_eq_false_2 by discriminate.
        unfold ret at 1. unfold bind at 1. unfold logger, modify.
        unfold bind at 1. unfold ret.
        eexists _, _. split; [reflexivity |].
        right. exists (clock w + 2), failed. split; [by right | reflexivity].
    + destruct (IH {| db := db w; client := client_sleep cli 2 (client w);
                      clock := clock w + 2; log := log w |})
        as (b & w' & Hrun & Hq).
      exists b, w'. split; [exact Hrun | exact Hq].
Qed.

(** The last write of [process_single_tx] on its entry: [failed] without
    a hash, or [submitted], [mined] or [failed] with the hash [send_tx]
    returned. *)
Lemma process_single_tx_queue (tx : TxRow) (w : World C) :
  exists now s h e,
    tx_queue (db (process_single_tx cli tx w).2)
    = upd now (tx_id tx) s h e (tx_queue (db w))
    /\ ((s = failed /\ h = None)
        \/ (exists hh, h = Some hh /\ (s = submitted \/ s = mined \/ s = failed))).
Proof.
  unfold process_single_tx, try_except.
  unfold bind at 1. rewrite update_tx_status_run.
  unfold bind at 1. unfold with_client at 1. cbn [client].
  destruct (client_send_tx cli (tx_method tx) (tx_params tx) _ (client w))
    as [[e|h] c1].
  - unfold logger, modify, bind. rewrite update_tx_status_run.
    cbn [snd db tx_queue set_tx_queue set_in_transaction clock]. rewrite upd_upd.
    eexists _, _, _, _. split; [reflexivity |]. by left.
  - unfold bind at 1. rewrite update_tx_status_run.
    unfold bind at 1. unfold logger at 1, modify.
    unfold bind at 1. cbn [db client clock log].
    match goal with
    | |- context [poll_receipt cli 15 tx h ?w1] =>
        destruct (poll_receipt_queue 15 tx h w1) as (b & w' & Hpoll & Hq);
        rewrite Hpoll
    end.
    cbn [db tx_queue set_tx_queue set_in_transaction] in Hq. rewrite upd_upd in Hq.
    assert (Hres : exists u, (if b then ret tt
                              else logger warning "tx_receipt_timeout") w'
                             = (inr tt, u) /\ tx_queue (db u) = tx_queue (db w')).
    { destruct b; eexists; split; reflexivity. }
    destruct Hres as (u & -> & Hu). cbn [snd]. rewrite Hu.
    destruct Hq as [-> | (now & s & Hs & ->)].
    + eexists _, _, _, _. split; [reflexivity |]. right. eauto.
    + rewrite upd_upd. eexists _, _, _, _. split; [reflexivity |].
      right. exists h. split; [reflexivity |]. tauto.
Qed.

End Lifecycle.

Section Cycle.
Context {C : Type} (cli : Client C).

Lemma process_single_tx_step (tx : TxRow) (w : World C) :
  wf_queue (tx_queue (db w)) ->
  untouched [tx_id tx] (tx_queue (db w)) ->
  let q' := tx_queue (db (process_single_tx cli tx w).2) in
  queue_advances (tx_queue (db w)) q'
  /\ wf_queue q'
  /\ (forall ids, tx_id tx ∉ ids -> untouched ids (tx_queue (db w)) -> untouched ids q').
Proof.
  intros Hwf Hfresh.
  destruct (process_single_tx_queue cli tx w) as (now & s & h & e & -> & Hcases).
  cbn zeta. split; [| split].
  - exists (upd now (tx_id tx) s h e (tx_queue (db w))), [].
    split; [by rewrite app_nil_r |]. apply upd_advances.
    eapply Forall_impl; [exact Hfresh |]. cbn. intros r Hr Hid.
    destruct Hr as [-> ->]; [rewrite Hid; apply list_elem_of_here |].
    split; [apply status_le_pending | discriminate].
  - apply upd_wf; [| exact Hwf].
    destruct Hcases as [[-> ->] | (hh & -> & [-> | [-> | ->]])]; cbn;
      first [by left | right; lia].
  - intros ids Hnot Hids. unfold untouched in *. apply Forall_forall. intros r Hin Hr.
    assert (Hne : tx_id r <> tx_id tx) by (intros Heq; apply Hnot; by rewrite <- Heq).
    rewrite Forall_forall in Hids. apply Hids; [| exact Hr].
    eapply upd_other; [exact Hin | exact Hne].
Qed.

Lemma for_each_advances (txs : list TxRow) :
  forall w : World C,
    NoDup (tx_id <$> txs) ->
    wf_queue (tx_queue (db w)) ->
    untouched (tx_id <$> txs) (tx_queue (db w)) ->
    let q' := tx_queue (db (for_each cli txs w).2) in
    queue_advances (tx_queue (db w)) q' /\ wf_queue q'.
Proof.
  induction txs as [|tx txs IH]; intros w Hnodup Hwf Hfresh.
  - split; [apply queue_advances_refl | exact Hwf].
  - cbn [fmap list_fmap] in Hnodup, Hfresh.
    apply NoDup_cons in Hnodup as [Hhead Hnodup].
    destruct (process_single_tx_step tx w Hwf) as (Hadv & Hwf1 & Hkeep).
    { eapply Forall_impl; [exact Hfresh |]. cbn. intros r Hr Hin. apply Hr.
      apply list_elem_of_singleton in Hin. rewrite Hin. apply list_elem_of_here. }
    assert (Hrest : untouched (tx_id <$> txs)
                      (tx_queue (db (process_single_tx cli tx w).2))).
    { apply Hkeep; [exact Hhead |].
      eapply Forall_impl; [exact Hfresh |]. cbn. intros r Hr Hin. apply Hr.
      by apply list_elem_of_further. }
    cbn [for_each]. unfold bind.
    destruct (process_single_tx cli tx w) as [[e|[]] w1]; cbn [snd] in *.
    + split; assumption.
    + destruct (IH w1 Hnodup Hwf1 Hrest) as [Hadv2 Hwf2].
      split; [by eapply queue_advances_trans | exact Hwf2].
Qed.

End Cycle.

(** *** One cycle, and runs of operations *)

Lemma NoDup_ids_eq (q : list TxRow) (a b : TxRow) :
  NoDup (tx_id <$> q) -> a ∈ q -> b ∈ q -> tx_id a = tx_id b -> a = b.
Proof.
  intros Hnodup (i & Hi)%list_elem_of_lookup (j & Hj)%list_elem_of_lookup Heq.
  assert (i = j) as ->; [| congruence].
  eapply (NoDup_lookup _ i j (tx_id a) Hnodup).
  - by rewrite list_lookup_fmap, Hi.
  - by rewrite list_lookup_fmap, Hj, Heq.
Qed.

Lemma pending_batch (limit : nat) (db0 : Db) :
  wf_queue (tx_queue db0) ->
  NoDup (tx_id <$> get_pending_txs limit db0)
  /\ untouched (tx_id <$> get_pending_txs limit db0) (tx_queue db0).
Proof.
  intros [Hnodup Hrows]. unfold get_pending_txs.
  set (chosen := filter (fun r => tx_status r = pending) (tx_queue db0)).
  assert (Hsub : take limit (merge_sort by_created_at chosen) ⊆ chosen).
  { intros r Hr. eapply elem_of_sublist in Hr; [| apply sublist_take].
    by rewrite merge_sort_Permutation in Hr. }
  split.
  - eapply sublist_NoDup; [| apply fmap_sublist, sublist_take].
    rewrite merge_sort_Permutation.
    eapply sublist_NoDup; [exact Hnodup |]. apply fmap_sublist, sublist_filter.
  - apply Forall_forall. intros r Hr (tx & Hid & Htx)%list_elem_of_fmap.
    apply Hsub, list_elem_of_filter in Htx as [Hpending Htx].
    assert (r = tx) as -> by (by eapply NoDup_ids_eq).
    split; [exact Hpending |].
    rewrite Forall_forall in Hrows. destruct (Hrows tx Htx) as [Hh | Hrank]; [exact Hh |].
    rewrite Hpending in Hrank. cbn in Hrank. lia.
Qed.

Lemma next_tx_id_above (q : list TxRow) (r : TxRow) :
  r ∈ q -> tx_id r < next_tx_id q.
Proof.
  unfold next_tx_id. induction q as [|x q IH]; [by intros ?%elem_of_nil |].
  intros [-> | Hin]%elem_of_cons; cbn; [lia |]. specialize (IH Hin). lia.
Qed.

Section Runs.
Context {C : Type} (cli : Client C).

Lemma run_op_advances (op : Op) (w : World C) :
  wf_queue (tx_queue (db w)) ->
  queue_advances (tx_queue (db w)) (tx_queue (db (run_op cli op w)))
  /\ wf_queue (tx_queue (db (run_op cli op w))).
Proof.
  intros Hwf. destruct op as [action_id moltbook_id method params | | seconds].
  - cbn [run_op]. unfold with_db, enqueue_tx.
    destruct (existsb _ (tx_queue (db w))); cbn.
    + split; [apply queue_advances_refl | exact Hwf].
    + destruct Hwf as [Hnodup Hrows]. split; [| split].
      * eexists (tx_queue (db w)), _. split; [reflexivity |].
        apply Forall2_same_length_lookup. split; [done |].
        intros i x y Hx Hy. assert (x = y) as -> by congruence.
        apply advances_refl.
      * rewrite fmap_app. cbn. apply NoDup_app. split; [exact Hnodup |].
        split; [| apply NoDup_singleton].
        intros x (r & -> & Hr)%list_elem_of_fmap Hin.
        apply list_elem_of_singleton in Hin.
        pose proof (next_tx_id_above _ _ Hr). lia.
      * apply Forall_app. split; [exact Hrows |].
        apply Forall_singleton. by left.
  - cbn [run_op]. unfold process_pending_txs, bind, get.
    destruct (pending_batch 5 (db w) Hwf) as [Hnodup Hfresh].
    apply (for_each_advances cli _ w Hnodup Hwf Hfresh).
  - cbn. split; [apply queue_advances_refl | exact Hwf].
Qed.

Lemma run_ops_advances (ops : list Op) :
  forall w : World C,
    wf_queue (tx_queue (db w)) ->
    queue_advances (tx_queue (db w)) (tx_queue (db (run_ops cli ops w)))
    /\ wf_queue (tx_queue (db (run_ops cli ops w))).
Proof.
  induction ops as [|op ops IH]; intros w Hwf.
  - split; [apply queue_advances_refl | exact Hwf].
  - destruct (run_op_advances op w Hwf) as [Hadv Hwf1].
    destruct (IH (run_op cli op w) Hwf1) as [Hadv2 Hwf2].
    split; [by eapply queue_advances_trans | exact Hwf2].
Qed.

End Runs.

Lemma initial_world_wf {C} (c : C) (now : Z) :
  wf_queue (tx_queue (db (initial_world c now))).
Proof. split; constructor. Qed.

(** One worker instance whose cycles run to their end with nothing in
    between. Start from the empty store and apply any operations (enqueues,
    whole worker cycles with any client behaviour, time passing), then any
    further operations. An entry that was in the queue after the first run
    is still at its place after the second, with the same id, caller and
    action id; its status is the same or further along [pending],
    [submitting], [submitted], then [mined] or [failed]; a hash it had is
    unchanged; and it had a hash only if it was [submitted] or later. The
    property is lost when a second instance or a request runs between the
    steps of a cycle, as the section on worker instances shows. *)
Lemma status_only_moves_forward {C : Type} (cli : Client C) (c0 : C) (t0 : Z)
    (ops1 ops2 : list Op) (i : nat) (r1 : TxRow) :
  let w1 := run_ops cli ops1 (initial_world c0 t0) in
  let w2 := run_ops cli ops2 w1 in
  tx_queue (db w1) !! i = Some r1 ->
  exists r2,
    tx_queue (db w2) !! i = Some r2
    /\ tx_id r2 = tx_id r1
    /\ tx_action_id r2 = tx_action_id r1
    /\ tx_moltbook_id r2 = tx_moltbook_id r1
    /\ status_le (tx_status r1) (tx_status r2)
    /\ (forall h, tx_hash r1 = Some h -> tx_hash r2 = Some h)
    /\ (tx_hash r1 = None \/ 2 <= status_rank (tx_status r1)).
Proof.
  intros w1 w2 Hi.
  destruct (run_ops_advances cli ops1 (initial_world c0 t0) (initial_world_wf c0 t0))
    as [_ Hwf1]. fold w1 in Hwf1.
  destruct (run_ops_advances cli ops2 w1 Hwf1) as [Hadv _]. fold w2 in Hadv.
  destruct (queue_advances_lookup _ _ i r1 Hadv Hi) as (r2 & Hr2 & H1 & H2 & H3 & H4 & H5).
  exists r2. repeat split; try assumption.
  destruct Hwf1 as [_ Hrows]. rewrite Forall_forall in Hrows.
  apply Hrows. by eapply list_elem_of_lookup_2.
Qed.

Example mined_after_one_cycle :
  (fun r => (tx_status r, tx_hash r, tx_error r))
    <$> tx_queue (db (run_ops prompt_client [enter_op; OpWorkerCycle]
                        (initial_world tt 1000)))
  = [(mined, Some "0xabc", None)].
Proof. vm_compute. reflexivity. Qed.

(** ** Wallet linking *)

Lemma lower_ascii_idem c : lower_ascii (lower_ascii c) = lower_ascii c.
Proof.
  destruct c as [[] [] [] [] [] [] [] []]; reflexivity.
Qed.

Lemma lower_idem s : lower (lower s) = lower s.
Proof.
  induction s as [|c s IH]; simpl; [reflexivity |].
  by rewrite lower_ascii_idem, IH.
Qed.

Lemma consume_after_store now now' w n ttl s :
  now' < now + ttl ->
  consume_nonce now' w (store_nonce now w n ttl s).2
  = (inr (Some n),
     {| store_db := set_in_transaction false (store_db s);
        nonces := delete w (nonces s);
        linked_at := linked_at s |}).
Proof.
  intros Hlt. unfold consume_nonce, store_nonce, modify. cbn.
  rewrite lookup_insert_eq. cbn.
  destruct (Z.ltb_spec now' (now + ttl)); [| lia].
  by rewrite delete_insert_eq.
Qed.

Lemma consume_absent now w s :
  nonces s !! w = None -> consume_nonce now w s = (inr None, s).
Proof. intros H. unfold consume_nonce. by rewrite H. Qed.

(** X1: a nonce stored for a wallet is handed out by the first
    [consume_nonce] before its expiry, whatever was stored for the wallet
    before, and by no later one. *)
Theorem stored_nonce_single_use now now' w n ttl s :
  now' < now + ttl ->
  exists s2,
    consume_nonce now' w (store_nonce now w n ttl s).2 = (inr (Some n), s2)
    /\ forall later, consume_nonce later w s2 = (inr None, s2).
Proof.
  intros Hlt. eexists. split; [by apply consume_after_store |].
  intros later. apply consume_absent. cbn. apply lookup_delete_eq.
Qed.

Lemma stored_nonce_single_use_witness :
  exists s2,
    consume_nonce 1299 "0xab" (store_nonce 1000 "0xab" "n1" 300 empty_store).2
    = (inr (Some "n1"), s2)
    /\ forall later, consume_nonce later "0xab" s2 = (inr None, s2).
Proof. apply (stored_nonce_single_use 1000 1299 "0xab" "n1" 300 empty_store). lia. Defined.

(** X2: from the expiry time on, [consume_nonce] answers [None] and leaves
    the expired row in the table. *)
Theorem expired_nonce_refused_and_kept now now' w n ttl s :
  now + ttl <= now' ->
  let s1 := (store_nonce now w n ttl s).2 in
  consume_nonce now' w s1 = (inr None, s1)
  /\ n_nonce <$> nonces s1 !! w = Some n.
Proof.
  intros Hle s1. unfold s1, consume_nonce, store_nonce, modify. cbn.
  rewrite lookup_insert_eq. cbn.
  destruct (Z.ltb_spec now' (now + ttl)); [lia | done].
Qed.

Lemma expired_nonce_refused_and_kept_witness :
  let s1 := (store_nonce 1000 "0xab" "n1" 300 empty_store).2 in
  consume_nonce 1300 "0xab" s1 = (inr None, s1)
  /\ n_nonce <$> nonces s1 !! "0xab" = Some "n1".
Proof. apply (expired_nonce_refused_and_kept 1000 1300 "0xab" "n1" 300 empty_store). lia. Defined.

Section LinkingFacts.
Context (recover_message : string -> string -> Exn + string).

Lemma auth_link_without_nonce now req m s :
  nonces s !! lower (lw_wallet_address req) = None ->
  auth_link recover_message now req m s = (inl no_valid_nonce, s).
Proof.
  intros H. unfold auth_link, bind. by rewrite (consume_absent _ _ _ H).
Qed.

Lemma auth_link_with_nonce t t' W n sig m s :
  n <> "" -> t' < t + 300 ->
  auth_link recover_message t' {| lw_wallet_address := W; lw_signature := sig |} m
    (auth_nonce t n W s).2
  = let s1 := {| store_db := set_in_transaction false (store_db s);
                 nonces := delete (lower W) (nonces s);
                 linked_at := linked_at s |} in
    if verify_signature recover_message (lower W) n sig
    then (inr {| lw_success := true; lw_linked := lower W |},
          (create_wallet_binding t' m (lower W) s1).2)
    else (inl (HTTPException 400 "Invalid signature"), s1).
Proof.
  intros Hn Hlt.
  change (auth_nonce t n W s).2 with (store_nonce t (lower W) n 300 s).2.
  unfold auth_link, bind. cbn [lw_wallet_address lw_signature].
  rewrite consume_after_store by done.
  destruct n as [|c n]; [done |].
  destruct (verify_signature recover_message (lower W) (String c n) sig); reflexivity.
Qed.

End LinkingFacts.

(** X3: a nonce requested for a wallet and a signature of that wallet link
    the wallet, in lower case, to the caller; the same request sent again
    is refused, because the nonce is spent. *)
Theorem link_succeeds_once (recover_message : string -> string -> Exn + string)
    t t' t'' W n sig signer m s :
  n <> "" -> t' < t + 300 ->
  recover_message (link_message n) sig = inr signer ->
  lower signer = lower W ->
  let req := {| lw_wallet_address := W; lw_signature := sig |} in
  exists s2,
    auth_link recover_message t' req m (auth_nonce t n W s).2
    = (inr {| lw_success := true; lw_linked := lower W |}, s2)
    /\ get_wallet_binding m (store_db s2) = Some (lower W)
    /\ auth_link recover_message t'' req m s2 = (inl no_valid_nonce, s2).
Proof.
  intros Hn Hlt Hrec Hsig req. unfold req.
  rewrite (auth_link_with_nonce recover_message) by done. cbv zeta.
  unfold verify_signature. rewrite Hrec, lower_idem, Hsig, String.eqb_refl.
  eexists. split; [reflexivity |]. split.
  - cbn. unfold get_wallet_binding. cbn. apply lookup_insert_eq.
  - apply (auth_link_without_nonce recover_message). cbn. apply lookup_delete_eq.
Qed.

(** X4: a signature that does not verify costs the nonce: the request is
    refused with "Invalid signature", no binding is written (every table
    is as it was before the nonce was requested, and the deletion of the
    nonce has committed, so no transaction is open), and a later request
    for that wallet fails for want of a nonce whatever its signature. *)
Theorem bad_signature_burns_nonce (recover_message : string -> string -> Exn + string)
    t t' W n sig m s :
  n <> "" -> t' < t + 300 ->
  verify_signature recover_message (lower W) n sig = false ->
  exists s2,
    auth_link recover_message t' {| lw_wallet_address := W; lw_signature := sig |} m
      (auth_nonce t n W s).2
    = (inl (HTTPException 400 "Invalid signature"), s2)
    /\ store_db s2 = set_in_transaction false (store_db s)
    /\ forall t'' sig' m',
         auth_link recover_message t''
           {| lw_wallet_address := W; lw_signature := sig' |} m' s2
         = (inl no_valid_nonce, s2).
Proof.
  intros Hn Hlt Hbad. rewrite auth_link_with_nonce by done. cbv zeta.
  rewrite Hbad. eexists. split; [reflexivity |]. split; [reflexivity |].
  intros t'' sig' m'. apply (auth_link_without_nonce recover_message). cbn.
  apply lookup_delete_eq.
Qed.

Lemma link_succeeds_once_witness :
  exists s2,
    auth_link recover_plain 1100 {| lw_wallet_address := "0xAB"; lw_signature := "0xab" |}
      "alice" (auth_nonce 1000 "n1" "0xAB" empty_store).2
    = (inr {| lw_success := true; lw_linked := "0xab" |}, s2)
    /\ get_wallet_binding "alice" (store_db s2) = Some "0xab"
    /\ auth_link recover_plain 1200
         {| lw_wallet_address := "0xAB"; lw_signature := "0xab" |} "alice" s2
       = (inl no_valid_nonce, s2).
Proof.
  apply (link_succeeds_once recover_plain 1000 1100 1200 "0xAB" "n1" "0xab" "0xab"
           "alice" empty_store); [discriminate | lia | reflexivity | reflexivity].
Defined.

Lemma bad_signature_burns_nonce_witness :
  exists s2,
    auth_link recover_plain 1100 {| lw_wallet_address := "0xAB"; lw_signature := "0xcd" |}
      "alice" (auth_nonce 1000 "n1" "0xAB" empty_store).2
    = (inl (HTTPException 400 "Invalid signature"), s2)
    /\ store_db s2 = store_db empty_store
    /\ forall t'' sig' m',
         auth_link recover_plain t''
           {| lw_wallet_address := "0xAB"; lw_signature := sig' |} m' s2
         = (inl no_valid_nonce, s2).
Proof.
  apply (bad_signature_burns_nonce recover_plain 1000 1100 "0xAB" "n1" "0xcd"
           "alice" empty_store); [discriminate | lia | reflexivity].
Defined.

Section SimpleLinkFacts.
Context (to_checksum_address : string -> Exn + string).

Lemma auth_link_simple_bound t a w old m s :
  to_checksum_address a = inr w ->
  get_wallet_binding m (store_db s) = Some old ->
  auth_link_simple to_checksum_address t a m s
  = (inl (HTTPException 400 "Wallet already linked. Cannot re-link."), s).
Proof.
  intros Ha Hb. unfold auth_link_simple, bind, of_answer. rewrite Ha. cbn.
  by rewrite Hb.
Qed.

Lemma auth_link_simple_unbound t a w m s :
  to_checksum_address a = inr w ->
  get_wallet_binding m (store_db s) = None ->
  auth_link_simple to_checksum_address t a m s
  = let s1 := (create_wallet_binding t m w s).2 in
    match enqueue_tx t ("register:" ++ w) m "registerAgent" [JStr w] (store_db s1) with
    | (inr _, d) =>
        (inr {| sl_ok := true; sl_wallet := w;
                sl_message := "Registered + 5 tickets minted" |},
         {| store_db := d; nonces := nonces s1; linked_at := linked_at s1 |})
    | (inl e, d) =>
        (inl e, {| store_db := d; nonces := nonces s1; linked_at := linked_at s1 |})
    end.
Proof.
  intros Ha Hb. unfold auth_link_simple, bind, of_answer. rewrite Ha. cbn.
  rewrite Hb. unfold with_store_db. cbn.
  destruct (enqueue_tx _ _ _ _ _ _) as [[e|id] d]; reflexivity.
Qed.

End SimpleLinkFacts.

(** X5: once [/auth/link-simple] has answered an agent, every later call by
    that agent is refused with status 400 and changes nothing, whatever
    address it names. *)
Theorem simple_link_only_once (to_checksum_address : string -> Exn + string)
    t t' a a' w' m s r s1 :
  auth_link_simple to_checksum_address t a m s = (inr r, s1) ->
  to_checksum_address a' = inr w' ->
  auth_link_simple to_checksum_address t' a' m s1
  = (inl (HTTPException 400 "Wallet already linked. Cannot re-link."), s1).
Proof.
  intros Hfirst Ha'.
  assert (exists old, get_wallet_binding m (store_db s1) = Some old) as [old Hold].
  { revert Hfirst. unfold auth_link_simple, bind, of_answer.
    destruct (to_checksum_address a) as [e|w]; [discriminate |]. cbn.
    destruct (get_wallet_binding m (store_db s)); [discriminate |].
    unfold with_store_db. cbn.
    unfold enqueue_tx. cbn.
    destruct (existsb _ _); [discriminate |]. cbn.
    intros [= _ <-]. exists w. unfold get_wallet_binding. cbn.
    apply lookup_insert_eq. }
  by eapply (auth_link_simple_bound to_checksum_address).
Qed.

(** X6: after a wallet was linked with [/auth/link-simple] and unlinked by
    the administrator, linking the same wallet again stores the binding and
    then fails on the insert of the [registerAgent] entry, which the first
    link left in the queue. *)
Theorem relink_after_unlink_fails_bound (to_checksum_address : string -> Exn + string)
    t t' a w m s :
  to_checksum_address a = inr w ->
  get_wallet_binding m (store_db s) = None ->
  get_tx_by_action m ("register:" ++ w) (store_db s) = None ->
  let s1 := (auth_link_simple to_checksum_address t a m s).2 in
  let s2 := (admin_unlink_wallet m s1).2 in
  exists s3,
    auth_link_simple to_checksum_address t' a m s2
    = (inl (IntegrityError
              "UNIQUE constraint failed: tx_queue.moltbook_id, tx_queue.action_id"),
       s3)
    /\ get_wallet_binding m (store_db s3) = Some w
    /\ tx_queue (store_db s3) = tx_queue (store_db s1).
Proof.
  intros Ha Hb Hq s1 s2.
  assert (Hs1 : tx_queue (store_db s1)
                = (tx_queue (store_db s)
                   ++ [new_row t ("register:" ++ w) m "registerAgent" [JStr w]
                         (store_db s)])%list).
  { unfold s1. rewrite (auth_link_simple_unbound to_checksum_address _ _ _ _ _ Ha Hb). cbv zeta.
    rewrite enqueue_tx_fresh by exact Hq. reflexivity. }
  assert (Hs2 : get_wallet_binding m (store_db s2) = None).
  { unfold s2, admin_unlink_wallet, get_wallet_binding.
    destruct (_ =? 0); cbn; apply lookup_delete_eq. }
  assert (Hq2 : tx_queue (store_db s2) = tx_queue (store_db s1)).
  { unfold s2, admin_unlink_wallet. destruct (_ =? 0); reflexivity. }
  rewrite (auth_link_simple_unbound to_checksum_address _ _ _ _ _ Ha Hs2). cbv zeta.
  assert (Hdup : exists r,
            get_tx_by_action m ("register:" ++ w)
              (store_db (create_wallet_binding t' m w s2).2) = Some r).
  { unfold get_tx_by_action. cbn. rewrite Hq2, Hs1, find_snoc.
    unfold get_tx_by_action in Hq. rewrite Hq. cbn.
    unfold same_action. cbn. rewrite !String.eqb_refl. cbn. eauto. }
  destruct Hdup as [r Hr].
  rewrite (enqueue_tx_duplicate _ _ _ _ _ _ _ Hr).
  eexists. split; [reflexivity |]. split.
  - unfold get_wallet_binding. cbn. apply lookup_insert_eq.
  - cbn. exact Hq2.
Qed.

Lemma simple_link_only_once_witness :
  auth_link_simple checksum_plain 1100 "0xCD" "alice"
    (auth_link_simple checksum_plain 1000 "0xAB" "alice" empty_store).2
  = (inl (HTTPException 400 "Wallet already linked. Cannot re-link."),
     (auth_link_simple checksum_plain 1000 "0xAB" "alice" empty_store).2).
Proof.
  apply (simple_link_only_once checksum_plain 1000 1100 "0xAB" "0xCD" "0xCD" "alice"
           empty_store
           {| sl_ok := true; sl_wallet := "0xAB";
              sl_message := "Registered + 5 tickets minted" |});
    reflexivity.
Defined.

Lemma relink_after_unlink_fails_bound_witness :
  let s1 := (auth_link_simple checksum_plain 1000 "0xAB" "alice" empty_store).2 in
  let s2 := (admin_unlink_wallet "alice" s1).2 in
  exists s3,
    auth_link_simple checksum_plain 1100 "0xAB" "alice" s2
    = (inl (IntegrityError
              "UNIQUE constraint failed: tx_queue.moltbook_id, tx_queue.action_id"),
       s3)
    /\ get_wallet_binding "alice" (store_db s3) = Some "0xAB"
    /\ tx_queue (store_db s3) = tx_queue (store_db s1).
Proof.
  apply (relink_after_unlink_fails_bound checksum_plain 1000 1100 "0xAB" "0xAB" "alice"
           empty_store); reflexivity.
Defined.

(** ** Reading the queue *)

Lemma find_id_unique (q : list TxRow) (r : TxRow) :
  NoDup (tx_id <$> q) -> r ∈ q -> find (fun x => tx_id x =? tx_id r) q = Some r.
Proof.
  induction q as [|x q IH]; intros Hnd Hin; [by apply elem_of_nil in Hin |].
  cbn in Hnd. apply NoDup_cons in Hnd as [Hx Hnd]. cbn.
  apply elem_of_cons in Hin as [-> | Hin].
  - by rewrite Z.eqb_refl.
  - destruct (Z.eqb_spec (tx_id x) (tx_id r)) as [E|_]; [| by apply IH].
    exfalso. apply Hx. rewrite E. apply list_elem_of_fmap. eauto.
Qed.

Lemma find_id_new (q : list TxRow) (r : TxRow) :
  tx_id r = next_tx_id q ->
  find (fun x => tx_id x =? tx_id r) (q ++ [r]) = Some r.
Proof.
  intros Hid. rewrite find_snoc.
  destruct (find _ q) as [y|] eqn:E.
  - apply find_some in E as [Hy Heq]. apply Z.eqb_eq in Heq.
    apply list_elem_of_In in Hy. pose proof (next_tx_id_above _ _ Hy). lia.
  - by rewrite Z.eqb_refl.
Qed.

Lemma find_elem {A} (f : A -> bool) (l : list A) (x : A) :
  find f l = Some x -> x ∈ l.
Proof. intros [H _]%find_some. by apply list_elem_of_In. Qed.

(** X7: whatever status report [POST /game/enter] returns, for a new entry
    or for the entry of an earlier submission, [GET /tx/{id}] with the id of
    the report returns the same report. *)
Theorem enter_report_matches_tx_status ledger now req m db r db' :
  NoDup (tx_id <$> tx_queue db) ->
  game_enter ledger now req m db = (inr (TxStatus r), db') ->
  tx_status_handler (resp_id r) db' = (inr r, db').
Proof.
  intros Hnd. unfold game_enter, bind at 1.
  destruct (_check_rate_limit now m db) as [[e|[]] d0] eqn:Hrl; [discriminate |].
  assert (d0 = db) as ->.
  { revert Hrl. unfold _check_rate_limit. destruct (_ <=? _); congruence. }
  destruct (get_epoch_info ledger) as [ei|];
    [destruct (negb (epoch_state_raw ei =? 0)); [discriminate |] |].
  all: unfold bind at 1, _check_idempotency.
  all: destruct (get_tx_by_action m (ed_action_id req) db) as [existing|] eqn:Hget.
  all: try (unfold ret; intros [= <- <-]; unfold tx_status_handler, get_tx; cbn;
            rewrite find_id_unique; [reflexivity | exact Hnd | by eapply find_elem]).
  all: unfold bind at 1; rewrite enqueue_tx_fresh by exact Hget.
  all: unfold bind at 1.
  all: match goal with
       | |- context [log_action ?a ?b ?c ?d ?e ?f ?g ?h ?i] =>
           destruct (log_action_never_raises a b c d e f g h i) as (b0 & d2 & -> & Hq)
       end.
  all: unfold ret, queued; intros [= <- <-]; unfold tx_status_handler, get_tx.
  all: cbn [resp_id]; rewrite Hq; cbn [tx_queue set_tx_queue set_in_transaction].
  all: pose proof (find_id_new (tx_queue db)
                     (new_row now (ed_action_id req) m "enterDungeon"
                        [JInt (ed_dungeon_id req)] db) eq_refl) as Hfind.
  all: cbn [new_row tx_id] in Hfind; cbn [new_row]; rewrite Hfind; reflexivity.
Qed.

Lemma enter_report_matches_tx_status_witness :
  tx_status_handler 1 (game_enter quiet_ledger 1000 (enter_req 1).2 "alice" empty_db).2
  = (inr {| resp_id := 1; resp_action_id := (ed_action_id (enter_req 1).2);
            resp_status := pending; resp_tx_hash := None; resp_error := None |},
     (game_enter quiet_ledger 1000 (enter_req 1).2 "alice" empty_db).2).
Proof.
  apply (enter_report_matches_tx_status quiet_ledger 1000 (enter_req 1).2 "alice"
           empty_db
           {| resp_id := 1; resp_action_id := (ed_action_id (enter_req 1).2);
              resp_status := pending; resp_tx_hash := None; resp_error := None |}
           (game_enter quiet_ledger 1000 (enter_req 1).2 "alice" empty_db).2).
  - constructor.
  - reflexivity.
Defined.

#[local] Instance by_created_at_total : Total by_created_at.
Proof. intros a b. unfold by_created_at. lia. Qed.

#[local] Instance by_created_at_trans : Transitive by_created_at.
Proof. intros a b c. unfold by_created_at. lia. Qed.

Lemma batch_rows (limit : nat) (db : Db) (r : TxRow) :
  r ∈ get_pending_txs limit db -> r ∈ tx_queue db /\ tx_status r = pending.
Proof.
  unfold get_pending_txs. intros Hr.
  eapply elem_of_sublist in Hr; [| apply sublist_take].
  rewrite merge_sort_Permutation, list_elem_of_filter in Hr. tauto.
Qed.

(** X8: the batch [get_pending_txs] returns has at most [limit] entries,
    all of them pending entries of the queue, in the order of their
    creation time; and every pending entry it leaves out was created no
    earlier than each entry of the batch. *)
Theorem pending_batch_is_oldest (limit : nat) (db : Db) :
  let batch := get_pending_txs limit db in
  (length batch <= limit)%nat
  /\ Forall (fun r => r ∈ tx_queue db /\ tx_status r = pending) batch
  /\ StronglySorted by_created_at batch
  /\ forall r r', r' ∈ batch -> r ∈ tx_queue db -> tx_status r = pending ->
       r ∉ batch -> tx_created_at r' <= tx_created_at r.
Proof.
  intros batch. unfold batch, get_pending_txs.
  set (l := merge_sort by_created_at _).
  assert (Hs : StronglySorted by_created_at l) by (apply StronglySorted_merge_sort; apply _).
  assert (Hp : forall r, r ∈ l <-> r ∈ tx_queue db /\ tx_status r = pending).
  { intros r. unfold l. rewrite merge_sort_Permutation, list_elem_of_filter. tauto. }
  split; [| split; [| split]].
  - rewrite length_take. lia.
  - apply Forall_forall. intros r Hr. by apply (batch_rows limit).
  - rewrite <- (take_drop limit l) in Hs. by apply StronglySorted_app_1_l in Hs.
  - intros r r' Hr' Hr Hpend Hout.
    assert (Hin : r ∈ l) by by apply Hp.
    rewrite <- (take_drop limit l) in Hin. apply elem_of_app in Hin as [Hin | Hin]; [done |].
    rewrite <- (take_drop limit l) in Hs.
    exact (StronglySorted_app_1_elem_of _ _ _ _ _ Hs Hr' Hin).
Qed.

(** ** What a worker cycle leaves alone *)

Lemma upd_lookup_other now id s h e (q : list TxRow) (i : nat) (r : TxRow) :
  q !! i = Some r -> tx_id r <> id -> upd now id s h e q !! i = Some r.
Proof.
  intros Hi Hne. unfold upd. rewrite list_lookup_fmap, Hi. cbn.
  destruct (Z.eqb_spec (tx_id r) id); [done | reflexivity].
Qed.

Lemma count_recent_upd t m now id s h e (d : Db) :
  count_recent_txs t m (set_tx_queue (upd now id s h e (tx_queue d)) d)
  = count_recent_txs t m d.
Proof.
  unfold count_recent_txs. cbn [tx_queue set_tx_queue set_in_transaction]. f_equal.
  induction (tx_queue d) as [|r q IH]; [reflexivity |].
  cbn [upd fmap list_fmap]. fold (upd now id s h e q).
  set (r' := if tx_id r =? id then set_status now s h e r else r).
  assert (Hm : tx_moltbook_id r' = tx_moltbook_id r) by (unfold r'; by destruct (_ =? _)).
  assert (Hc : tx_created_at r' = tx_created_at r) by (unfold r'; by destruct (_ =? _)).
  destruct (decide (tx_moltbook_id r = m /\ t - 3600 < tx_created_at r)) as [Hy | Hn].
  - rewrite !filter_cons_True by (rewrite ?Hm, ?Hc; exact Hy).
    cbn [length]. f_equal. exact IH.
  - rewrite !filter_cons_False by (rewrite ?Hm, ?Hc; exact Hn). exact IH.

Qed.

Lemma count_recent_queue t m (d d' : Db) :
  tx_queue d' = tx_queue d -> count_recent_txs t m d' = count_recent_txs t m d.
Proof. unfold count_recent_txs. by intros ->. Qed.

Section CycleFacts.
Context {C : Type} (cli : Client C).

Lemma for_each_spares (txs : list TxRow) (i : nat) (r : TxRow) :
  forall w : World C,
    Forall (fun tx => tx_id tx <> tx_id r) txs ->
    tx_queue (db w) !! i = Some r ->
    tx_queue (db (for_each cli txs w).2) !! i = Some r.
Proof.
  induction txs as [|tx txs IH]; intros w Hne Hi; [exact Hi |].
  apply Forall_cons in Hne as [Hne Hrest].
  cbn [for_each]. unfold bind.
  destruct (process_single_tx cli tx w) as [[e|[]] w1] eqn:E.
  - cbn. destruct (process_single_tx_queue cli tx w) as (now & s & h & e' & Hq & _).
    rewrite E in Hq. cbn in Hq. rewrite Hq. apply upd_lookup_other; [exact Hi | congruence].
  - apply IH; [exact Hrest |].
    destruct (process_single_tx_queue cli tx w) as (now & s & h & e' & Hq & _).
    rewrite E in Hq. cbn in Hq. rewrite Hq. apply upd_lookup_other; [exact Hi | congruence].
Qed.

Lemma for_each_count (txs : list TxRow) t m :
  forall w : World C,
    count_recent_txs t m (db (for_each cli txs w).2) = count_recent_txs t m (db w).
Proof.
  induction txs as [|tx txs IH]; intros w; [reflexivity |].
  assert (Hone : count_recent_txs t m (db (process_single_tx cli tx w).2)
                 = count_recent_txs t m (db w)).
  { destruct (process_single_tx_queue cli tx w) as (now & s & h & e' & Hq & _).
    rewrite <- (count_recent_upd t m now (tx_id tx) s h e' (db w)).
    apply count_recent_queue. exact Hq. }
  cbn [for_each]. unfold bind.
  destruct (process_single_tx cli tx w) as [[e|[]] w1] eqn:E; cbn in Hone |- *.
  - exact Hone.
  - rewrite IH. exact Hone.
Qed.

End CycleFacts.

(** X9: a cycle of the worker does not change the number of entries that
    count against a caller's rate limit: an entry counts from its creation
    for an hour, whether it is pending, mined or failed. *)
Theorem worker_cycle_keeps_rate_count {C : Type} (cli : Client C) (w : World C)
    (t : Z) (m : string) :
  count_recent_txs t m (db (process_pending_txs cli w).2) = count_recent_txs t m (db w).
Proof.
  unfold process_pending_txs, bind, get. apply for_each_count.
Qed.

Section CycleSpares.
Context {C : Type} (cli : Client C).

Lemma cycle_spares (w : World C) (i : nat) (r : TxRow) :
  NoDup (tx_id <$> tx_queue (db w)) ->
  tx_queue (db w) !! i = Some r ->
  r ∉ get_pending_txs 5 (db w) ->
  tx_queue (db (process_pending_txs cli w).2) !! i = Some r.
Proof.
  intros Hnd Hi Hout. unfold process_pending_txs, bind, get.
  apply for_each_spares; [| exact Hi].
  apply Forall_forall. intros tx Htx Heq. apply Hout.
  assert (tx ∈ tx_queue (db w)).
  { by apply (batch_rows 5). }
  assert (tx = r) as <-; [| exact Htx].
  eapply NoDup_ids_eq; [exact Hnd | done | by eapply list_elem_of_lookup_2 | exact Heq].
Qed.

End CycleSpares.

Section SettledFacts.
Context {C : Type} (cli : Client C).

Lemma run_op_spares (op : Op) (w : World C) (i : nat) (r : TxRow) :
  wf_queue (tx_queue (db w)) ->
  tx_queue (db w) !! i = Some r ->
  tx_status r <> pending ->
  tx_queue (db (run_op cli op w)) !! i = Some r.
Proof.
  intros Hwf Hi Hst. destruct op as [a m method params | | seconds].
  - cbn. unfold with_db, enqueue_tx.
    destruct (existsb _ (tx_queue (db w))); cbn; [exact Hi |].
    apply lookup_app_l_Some. exact Hi.
  - cbn. apply cycle_spares; [apply Hwf | exact Hi |].
    intros Hin. apply batch_rows in Hin as [_ Hp]. contradiction.
  - exact Hi.
Qed.

Lemma run_ops_spares (ops : list Op) (i : nat) (r : TxRow) :
  forall w : World C,
    wf_queue (tx_queue (db w)) ->
    tx_queue (db w) !! i = Some r ->
    tx_status r <> pending ->
    tx_queue (db (run_ops cli ops w)) !! i = Some r.
Proof.
  induction ops as [|op ops IH]; intros w Hwf Hi Hst; [exact Hi |].
  cbn. apply IH; [| by apply run_op_spares | exact Hst].
  by apply (run_op_advances cli op w).
Qed.

End SettledFacts.

(** X10: an entry that has left [pending] is never touched again. Start
    from the empty store and apply any operations (enqueues, worker cycles
    with any client behaviour, time passing); an entry that is then
    [submitting], [submitted], [mined] or [failed] is still at its place,
    with every column unchanged, after any further operations. In
    particular the worker never retries a failed entry and never looks
    again for the receipt of an entry it left [submitted]. *)
Theorem settled_entry_never_changes {C : Type} (cli : Client C) (c0 : C) (t0 : Z)
    (ops1 ops2 : list Op) (i : nat) (r : TxRow) :
  let w1 := run_ops cli ops1 (initial_world c0 t0) in
  tx_queue (db w1) !! i = Some r ->
  tx_status r <> pending ->
  tx_queue (db (run_ops cli ops2 w1)) !! i = Some r.
Proof.
  intros w1 Hi Hst. apply run_ops_spares; [| exact Hi | exact Hst].
  apply (run_ops_advances cli ops1). apply initial_world_wf.
Qed.

Lemma settled_entry_never_changes_witness :
  let w1 := run_ops silent_client [enter_op; OpWorkerCycle] (initial_world tt 1000) in
  tx_queue (db (run_ops silent_client [OpTick 60; OpWorkerCycle; OpWorkerCycle] w1))
    !! 0%nat
  = Some (set_status 1000 submitted (Some "0xabc") None enter_row).
Proof.
  apply (settled_entry_never_changes silent_client tt 1000 [enter_op; OpWorkerCycle]
           [OpTick 60; OpWorkerCycle; OpWorkerCycle] 0
           (set_status 1000 submitted (Some "0xabc") None enter_row)).
  - vm_compute. reflexivity.
  - cbn. discriminate.
Defined.

(** X11: one cycle of the worker handles a batch of at most five entries
    and leaves every other entry of the queue at its place, unchanged. *)
Theorem cycle_touches_only_its_batch {C : Type} (cli : Client C) (w : World C) :
  NoDup (tx_id <$> tx_queue (db w)) ->
  let batch := get_pending_txs 5 (db w) in
  (length batch <= 5)%nat
  /\ forall i r, tx_queue (db w) !! i = Some r -> r ∉ batch ->
       tx_queue (db (process_pending_txs cli w).2) !! i = Some r.
Proof.
  intros Hnd batch. split.
  - unfold batch, get_pending_txs. rewrite length_take. lia.
  - intros i r Hi Hout. by apply cycle_spares.
Qed.

Lemma cycle_touches_only_its_batch_witness :
  let w := settled_and_pending in
  let batch := get_pending_txs 5 (db w) in
  (fun r => (tx_id r, tx_status r)) <$> tx_queue (db w) = [(1, submitted); (2, pending)]
  /\ tx_id <$> batch = [2]
  /\ (fun r => (tx_id r, tx_status r))
       <$> tx_queue (db (process_pending_txs prompt_client w).2)
     = [(1, submitted); (2, mined)]
  /\ (length batch <= 5)%nat
  /\ forall i r, tx_queue (db w) !! i = Some r -> r ∉ batch ->
       tx_queue (db (process_pending_txs prompt_client w).2) !! i = Some r.
Proof.
  split; [reflexivity |]. split; [reflexivity |]. split; [reflexivity |].
  apply (cycle_touches_only_its_batch prompt_client settled_and_pending).
  apply (bool_decide_unpack _). vm_compute. exact I.
Defined.

(** ** The paths of [process_single_tx] *)

Lemma mined_award_returns now tx d :
  in_transaction d = false ->
  exists b, award (mined_award now tx) d = (inr b, (award (mined_award now tx) d).2).
Proof.
  intros Hc. assert (Hb : binds (mined_award now tx)) by reflexivity.
  destruct (decide (Exists (has_key (aw_idempotency_key (mined_award now tx)))
                      (xp_events d))) as [H|H].
  - rewrite (award_duplicate _ d Hc Hb H). by exists false.
  - rewrite (award_fresh _ d Hc Hb); [| by apply Forall_Exists_neg]. by exists true.
Qed.

Section PathFacts.
Context {C : Type} (cli : Client C).

Lemma poll_step_none (n : nat) (tx : TxRow) (h : string) (w : World C) :
  client_get_receipt cli h (client_sleep cli 2 (client w)) = None ->
  poll_receipt cli (S n) tx h w
  = poll_receipt cli n tx h
      {| db := db w; client := client_sleep cli 2 (client w);
         clock := clock w + 2; log := log w |}.
Proof.
  intros Hnone. cbn [poll_receipt]. unfold bind at 1. unfold sleep, modify.
  unfold bind at 1. unfold get. cbn [client]. rewrite Hnone. reflexivity.
Qed.

Lemma poll_step_found (n : nat) (tx : TxRow) (h : string) (rc : Receipt) (w : World C) :
  client_get_receipt cli h (client_sleep cli 2 (client w)) = Some rc ->
  poll_receipt cli (S n) tx h w
  = let now := clock w + 2 in
    let d1 := set_in_transaction false
                (set_tx_queue
                   (upd now (tx_id tx)
                      (if bool_decide (receipt_status rc = Some 1) then mined else failed)
                      (Some h) None (tx_queue (db w))) (db w)) in
    (inr true,
     {| db := if bool_decide (receipt_status rc = Some 1)
              then (award (mined_award now tx) d1).2 else d1;
        client := client_sleep cli 2 (client w);
        clock := now; log := (log w ++ [(info, "tx_mined")])%list |}).
Proof.
  intros Hsome. cbn [poll_receipt]. unfold bind at 1. unfold sleep, modify.
  unfold bind at 1. unfold get. cbn [client]. rewrite Hsome.
  unfold bind at 1. rewrite update_tx_status_run. cbn [db client clock log].
  cbv zeta.
  destruct (bool_decide (receipt_status rc = Some 1)) eqn:Hst.
  - rewrite bool_decide_eq_true_2 by reflexivity.
    unfold bind at 1. unfold bind at 1. unfold with_db at 1. cbn [db client clock log].
    change (award_xp (clock w + 2) ("tx_mined:" ++ pretty (tx_id tx)) (tx_moltbook_id tx)
              0 0 ("tx_" ++ tx_method tx) 10 0 "tx_worker" None)
      with (award (mined_award (clock w + 2) tx)).
    destruct (mined_award_returns (clock w + 2) tx
                (set_in_transaction false
                   (set_tx_queue (upd (clock w + 2) (tx_id tx) mined (Some h) None
                                    (tx_queue (db w))) (db w))) eq_refl) as [b ->].
    reflexivity.
  - rewrite bool_decide_eq_false_2 by discriminate. reflexivity.
Qed.

Lemma poll_receipt_found (n : nat) (tx : TxRow) (h : string) (rc : Receipt) :
  forall (k : nat) (w : World C),
    (1 <= k <= n)%nat ->
    (forall j, (1 <= j < k)%nat ->
       client_get_receipt cli h (Nat.iter j (client_sleep cli 2) (client w)) = None) ->
    client_get_receipt cli h (Nat.iter k (client_sleep cli 2) (client w)) = Some rc ->
    poll_receipt cli n tx h w
    = let now := clock w + 2 * Z.of_nat k in
      let d1 := set_in_transaction false
                  (set_tx_queue
                     (upd now (tx_id tx)
                        (if bool_decide (receipt_status rc = Some 1) then mined else failed)
                        (Some h) None (tx_queue (db w))) (db w)) in
      (inr true,
       {| db := if bool_decide (receipt_status rc = Some 1)
                then (award (mined_award now tx) d1).2 else d1;
          client := Nat.iter k (client_sleep cli 2) (client w);
          clock := now; log := (log w ++ [(info, "tx_mined")])%list |}).
Proof.
  induction n as [|n IH]; intros k w Hk Hnone Hsome; [lia |].
  destruct (decide (k = 1%nat)) as [-> | Hk1].
  - cbn in Hsome. rewrite (poll_step_found n tx h rc w Hsome). cbv zeta.
    replace (clock w + 2 * Z.of_nat 1) with (clock w + 2) by lia. reflexivity.
  - destruct k as [|k]; [lia |].
    pose proof (Hnone 1%nat ltac:(lia)) as H1. cbn in H1.
    rewrite (poll_step_none n tx h w H1).
    rewrite (IH k); cbn [db client clock log].
    + cbv zeta. rewrite <- Nat.iter_succ_r.
      replace (clock w + 2 + 2 * Z.of_nat k) with (clock w + 2 * Z.of_nat (S k)) by lia.
      reflexivity.
    + lia.
    + intros j Hj. rewrite <- Nat.iter_succ_r. apply Hnone. lia.
    + rewrite <- Nat.iter_succ_r. exact Hsome.
Qed.

End PathFacts.

Lemma mined_award_bump now tx s : bump (mined_award now tx) s = s.
Proof. reflexivity. Qed.

Lemma process_single_tx_found {C : Type} (cli : Client C) (tx : TxRow) (w : World C)
    (h : string) (c1 : C) (k : nat) (rc : Receipt) :
  client_send_tx cli (tx_method tx) (tx_params tx) (value_kwarg tx) (client w)
  = (inr h, c1) ->
  (1 <= k <= 15)%nat ->
  (forall j, (1 <= j < k)%nat ->
     client_get_receipt cli h (Nat.iter j (client_sleep cli 2) c1) = None) ->
  client_get_receipt cli h (Nat.iter k (client_sleep cli 2) c1) = Some rc ->
  process_single_tx cli tx w
  = let now := clock w + 2 * Z.of_nat k in
    let d1 := set_in_transaction false
                (set_tx_queue
                   (upd now (tx_id tx)
                      (if bool_decide (receipt_status rc = Some 1) then mined else failed)
                      (Some h) None (tx_queue (db w))) (db w)) in
    (inr tt,
     {| db := if bool_decide (receipt_status rc = Some 1)
              then (award (mined_award now tx) d1).2 else d1;
        client := Nat.iter k (client_sleep cli 2) c1;
        clock := now;
        log := (log w ++ [(info, "tx_submitted"); (info, "tx_mined")])%list |}).
Proof.
  intros Hsend Hk Hnone Hsome. unfold process_single_tx, try_except.
  unfold bind at 1. rewrite update_tx_status_run.
  unfold bind at 1. unfold with_client at 1. cbn [client].
  fold (value_kwarg tx). rewrite Hsend.
  unfold bind at 1. rewrite update_tx_status_run.
  unfold bind at 1. unfold logger at 1, modify.
  unfold bind at 1.
  rewrite (poll_receipt_found cli 15 tx h rc k) by (cbn [client]; done).
  cbn [db client clock log tx_queue set_tx_queue set_in_transaction]. cbv zeta.
  rewrite !upd_upd, <- app_assoc.
  destruct (bool_decide (receipt_status rc = Some 1)); reflexivity.
Qed.

(** X12: when [send_tx] returned a hash and one of the 15 polls finds a
    receipt with status 1, the entry ends [mined] with that hash and no
    error, and, if no event with the key [tx_mined:<id>] exists yet, one
    event of 10 XP of type [tx_<method>] is appended for the submitter,
    whose XP total grows by 10. *)
Theorem mined_entry_awards_ten_xp {C : Type} (cli : Client C) (tx : TxRow)
    (w : World C) (h : string) (c1 : C) (k : nat) (rc : Receipt) :
  client_send_tx cli (tx_method tx) (tx_params tx) (value_kwarg tx) (client w)
  = (inr h, c1) ->
  (1 <= k <= 15)%nat ->
  (forall j, (1 <= j < k)%nat ->
     client_get_receipt cli h (Nat.iter j (client_sleep cli 2) c1) = None) ->
  client_get_receipt cli h (Nat.iter k (client_sleep cli 2) c1) = Some rc ->
  receipt_status rc = Some 1 ->
  Forall (fun e => ~ has_key ("tx_mined:" ++ pretty (tx_id tx)) e) (xp_events (db w)) ->
  let now := clock w + 2 * Z.of_nat k in
  let '(r, w') := process_single_tx cli tx w in
  r = inr tt
  /\ tx_queue (db w') = upd now (tx_id tx) mined (Some h) None (tx_queue (db w))
  /\ xp_events (db w') = (xp_events (db w) ++ [event_of (mined_award now tx)])%list
  /\ total_xp <$> agent_stats (db w') !! tx_moltbook_id tx
     = Some (from_option total_xp 0 (agent_stats (db w) !! tx_moltbook_id tx) + 10)
  /\ log w' = (log w ++ [(info, "tx_submitted"); (info, "tx_mined")])%list.
Proof.
  intros Hsend Hk Hnone Hsome Hst Hfresh now.
  rewrite (process_single_tx_found cli tx w h c1 k rc Hsend Hk Hnone Hsome). cbv zeta.
  rewrite bool_decide_eq_true_2 by exact Hst.
  rewrite award_fresh by (first [exact Hfresh | reflexivity]).
  cbn [snd db log awarded tx_queue set_tx_queue set_in_transaction xp_events agent_stats].
  repeat split.
  change (aw_moltbook_id (mined_award (clock w + 2 * Z.of_nat k) tx))
    with (tx_moltbook_id tx).
  rewrite lookup_insert_eq, mined_award_bump. cbn [fmap option_fmap option_map].
  f_equal. destruct (agent_stats (db w) !! tx_moltbook_id tx); cbn; lia.
Qed.

Lemma mined_entry_awards_ten_xp_witness :
  let w := one_pending tt in
  let '(r, w') := process_single_tx prompt_client enter_row w in
  r = inr tt
  /\ tx_queue (db w')
     = upd (clock w + 2 * Z.of_nat 1) (tx_id enter_row) mined (Some "0xabc") None
         (tx_queue (db w))
  /\ xp_events (db w')
     = (xp_events (db w)
        ++ [event_of (mined_award (clock w + 2 * Z.of_nat 1) enter_row)])%list
  /\ total_xp <$> agent_stats (db w') !! tx_moltbook_id enter_row
     = Some (from_option total_xp 0 (agent_stats (db w) !! tx_moltbook_id enter_row) + 10)
  /\ log w' = (log w ++ [(info, "tx_submitted"); (info, "tx_mined")])%list.
Proof.
  apply (mined_entry_awards_ten_xp prompt_client enter_row (one_pending tt) "0xabc" tt
           1 {| receipt_status := Some 1 |}).
  - reflexivity.
  - lia.
  - intros j Hj. lia.
  - reflexivity.
  - reflexivity.
  - constructor.
Defined.

(** X13: when a poll finds a receipt whose status is not 1 (a reverted
    transaction), the entry ends [failed] with its hash kept and with no
    error text, and no XP event or statistics are written. *)
Theorem reverted_entry_fails_without_error {C : Type} (cli : Client C) (tx : TxRow)
    (w : World C) (h : string) (c1 : C) (k : nat) (rc : Receipt) :
  client_send_tx cli (tx_method tx) (tx_params tx) (value_kwarg tx) (client w)
  = (inr h, c1) ->
  (1 <= k <= 15)%nat ->
  (forall j, (1 <= j < k)%nat ->
     client_get_receipt cli h (Nat.iter j (client_sleep cli 2) c1) = None) ->
  client_get_receipt cli h (Nat.iter k (client_sleep cli 2) c1) = Some rc ->
  receipt_status rc <> Some 1 ->
  let '(r, w') := process_single_tx cli tx w in
  r = inr tt
  /\ tx_queue (db w')
     = upd (clock w + 2 * Z.of_nat k) (tx_id tx) failed (Some h) None (tx_queue (db w))
  /\ xp_events (db w') = xp_events (db w)
  /\ agent_stats (db w') = agent_stats (db w)
  /\ log w' = (log w ++ [(info, "tx_submitted"); (info, "tx_mined")])%list.
Proof.
  intros Hsend Hk Hnone Hsome Hst.
  rewrite (process_single_tx_found cli tx w h c1 k rc Hsend Hk Hnone Hsome). cbv zeta.
  rewrite bool_decide_eq_false_2 by exact Hst. repeat split.
Qed.

Lemma reverted_entry_fails_without_error_witness :
  let w := one_pending tt in
  let '(r, w') := process_single_tx reverting_client enter_row w in
  r = inr tt
  /\ tx_queue (db w')
     = upd (clock w + 2 * Z.of_nat 1) (tx_id enter_row) failed (Some "0xabc") None
         (tx_queue (db w))
  /\ xp_events (db w') = xp_events (db w)
  /\ agent_stats (db w') = agent_stats (db w)
  /\ log w' = (log w ++ [(info, "tx_submitted"); (info, "tx_mined")])%list.
Proof.
  apply (reverted_entry_fails_without_error reverting_client enter_row (one_pending tt)
           "0xabc" tt 1 {| receipt_status := Some 0 |}).
  - reflexivity.
  - lia.
  - intros j Hj. lia.
  - reflexivity.
  - discriminate.
Defined.

(** X14: when [send_tx] raises, whatever the exception, [process_single_tx]
    returns normally at once: the entry ends [failed] with the text of the
    exception as its error and without a hash, no time is spent polling,
    and the XP ledger is untouched. *)
Theorem send_failure_marks_entry_failed {C : Type} (cli : Client C) (tx : TxRow)
    (w : World C) (e : Exn) (c1 : C) :
  client_send_tx cli (tx_method tx) (tx_params tx) (value_kwarg tx) (client w)
  = (inl e, c1) ->
  let '(r, w') := process_single_tx cli tx w in
  r = inr tt
  /\ tx_queue (db w') = upd (clock w) (tx_id tx) failed None (Some (str e)) (tx_queue (db w))
  /\ xp_events (db w') = xp_events (db w)
  /\ agent_stats (db w') = agent_stats (db w)
  /\ clock w' = clock w
  /\ log w' = (log w ++ [(error, "tx_failed")])%list.
Proof.
  intros Hsend. unfold process_single_tx, try_except.
  unfold bind at 1. rewrite update_tx_status_run.
  unfold bind at 1. unfold with_client at 1. cbn [client].
  fold (value_kwarg tx). rewrite Hsend.
  unfold logger, modify, bind. rewrite update_tx_status_run.
  cbn [db client clock log tx_queue set_tx_queue set_in_transaction xp_events agent_stats].
  rewrite upd_upd. repeat split.
Qed.

Lemma send_failure_marks_entry_failed_witness :
  let w := one_pending tt in
  let '(r, w') := process_single_tx refusing_client enter_row w in
  r = inr tt
  /\ tx_queue (db w')
     = upd (clock w) (tx_id enter_row) failed None
         (Some (str (Web3Error "insufficient funds"))) (tx_queue (db w))
  /\ xp_events (db w') = xp_events (db w)
  /\ agent_stats (db w') = agent_stats (db w)
  /\ clock w' = clock w
  /\ log w' = (log w ++ [(error, "tx_failed")])%list.
Proof.
  apply (send_failure_marks_entry_failed refusing_client enter_row (one_pending tt)
           (Web3Error "insufficient funds") tt).
  reflexivity.
Defined.

(** ** The worker in steps *)

Section StepFacts.
Context {C : Type} (cli : Client C).

Lemma run_worker_app (n k : nat) (pc : WorkerPc) (w : World C) :
  run_worker cli (n + k) pc w
  = let '(pc', w') := run_worker cli n pc w in run_worker cli k pc' w'.
Proof.
  revert pc w. induction n as [|n IH]; intros pc w; [reflexivity |].
  cbn [Nat.add run_worker]. destruct (step_worker cli pc w) as [pc1 w1]. apply IH.
Qed.

Lemma step_submitting tx rest (w : World C) :
  step_worker cli (AtEntry AtSubmitting tx rest) w
  = (AtEntry AtSend tx rest,
     {| db := set_in_transaction false
                (set_tx_queue
                   (upd (clock w) (tx_id tx) submitting None None (tx_queue (db w)))
                   (db w));
        client := client w; clock := clock w; log := log w |}).
Proof. reflexivity. Qed.

Lemma step_send_ok tx rest (w : World C) h c1 :
  client_send_tx cli (tx_method tx) (tx_params tx) (value_kwarg tx) (client w)
  = (inr h, c1) ->
  step_worker cli (AtEntry AtSend tx rest) w
  = (AtEntry (AtSubmitted h) tx rest,
     {| db := db w; client := c1; clock := clock w; log := log w |}).
Proof.
  intros H. unfold step_worker, step_entry, then_at, with_client.
  fold (value_kwarg tx). by rewrite H.
Qed.

Lemma step_send_raises tx rest (w : World C) e c1 :
  client_send_tx cli (tx_method tx) (tx_params tx) (value_kwarg tx) (client w)
  = (inl e, c1) ->
  step_worker cli (AtEntry AtSend tx rest) w
  = (AtEntry (AtExcept e) tx rest,
     {| db := db w; client := c1; clock := clock w; log := log w |}).
Proof.
  intros H. unfold step_worker, step_entry, then_at, with_client.
  fold (value_kwarg tx). by rewrite H.
Qed.

Lemma step_submitted tx rest (w : World C) h :
  step_worker cli (AtEntry (AtSubmitted h) tx rest) w
  = (AtEntry (AtPoll 15 h) tx rest,
     {| db := set_in_transaction false
                (set_tx_queue
                   (upd (clock w) (tx_id tx) submitted (Some h) None (tx_queue (db w)))
                   (db w));
        client := client w; clock := clock w;
        log := (log w ++ [(info, "tx_submitted")])%list |}).
Proof. reflexivity. Qed.

Lemma step_except tx rest (w : World C) e :
  step_worker cli (AtEntry (AtExcept e) tx rest) w
  = (next_entry rest,
     {| db := set_in_transaction false
                (set_tx_queue
                   (upd (clock w) (tx_id tx) failed None (Some (str e))
                      (tx_queue (db w)))
                   (db w));
        client := client w; clock := clock w;
        log := (log w ++ [(error, "tx_failed")])%list |}).
Proof. reflexivity. Qed.

Lemma step_poll_out tx rest (w : World C) h :
  step_worker cli (AtEntry (AtPoll 0 h) tx rest) w
  = (next_entry rest,
     {| db := db w; client := client w; clock := clock w;
        log := (log w ++ [(warning, "tx_receipt_timeout")])%list |}).
Proof. reflexivity. Qed.

Lemma step_poll_none tx rest (w : World C) h n :
  client_get_receipt cli h (client_sleep cli 2 (client w)) = None ->
  step_worker cli (AtEntry (AtPoll (S n) h) tx rest) w
  = (AtEntry (AtPoll n h) tx rest,
     {| db := db w; client := client_sleep cli 2 (client w);
        clock := clock w + 2; log := log w |}).
Proof.
  intros H. unfold step_worker, step_entry, then_at, bind, sleep, modify, get, ret.
  cbn [client]. by rewrite H.
Qed.

Lemma step_poll_found tx rest (w : World C) h n rc :
  client_get_receipt cli h (client_sleep cli 2 (client w)) = Some rc ->
  step_worker cli (AtEntry (AtPoll (S n) h) tx rest) w
  = (AtEntry
       (AtResolved (if bool_decide (receipt_status rc = Some 1) then mined else failed) h)
       tx rest,
     {| db := db w; client := client_sleep cli 2 (client w);
        clock := clock w + 2; log := log w |}).
Proof.
  intros H. unfold step_worker, step_entry, then_at, bind, sleep, modify, get, ret.
  cbn [client]. by rewrite H.
Qed.

Lemma step_resolved_mined tx rest (w : World C) h :
  step_worker cli (AtEntry (AtResolved mined h) tx rest) w
  = (AtEntry AtAward tx rest,
     {| db := set_in_transaction false
                (set_tx_queue
                   (upd (clock w) (tx_id tx) mined (Some h) None (tx_queue (db w)))
                   (db w));
        client := client w; clock := clock w; log := log w |}).
Proof. reflexivity. Qed.

Lemma step_resolved_failed tx rest (w : World C) h :
  step_worker cli (AtEntry (AtResolved failed h) tx rest) w
  = (next_entry rest,
     {| db := set_in_transaction false
                (set_tx_queue
                   (upd (clock w) (tx_id tx) failed (Some h) None (tx_queue (db w)))
                   (db w));
        client := client w; clock := clock w;
        log := (log w ++ [(info, "tx_mined")])%list |}).
Proof. reflexivity. Qed.

Lemma step_award tx rest (w : World C) :
  in_transaction (db w) = false ->
  step_worker cli (AtEntry AtAward tx rest) w
  = (next_entry rest,
     {| db := (award (mined_award (clock w) tx) (db w)).2;
        client := client w; clock := clock w;
        log := (log w ++ [(info, "tx_mined")])%list |}).
Proof.
  intros Hc. unfold step_worker, step_entry, then_at, bind, with_db.
  change (award_xp (clock w) ("tx_mined:" ++ pretty (tx_id tx)) (tx_moltbook_id tx)
            0 0 ("tx_" ++ tx_method tx) 10 0 "tx_worker" None)
    with (award (mined_award (clock w) tx)).
  destruct (mined_award_returns (clock w) tx (db w) Hc) as [b ->]. reflexivity.
Qed.

(** The polling loop in steps, with what follows it in [process_single_tx]. *)
Lemma poll_in_steps (tx : TxRow) (rest : list TxRow) (h : string) (n : nat) :
  forall w : World C,
    exists k w',
      run_worker cli k (AtEntry (AtPoll n h) tx rest) w = (next_entry rest, w')
      /\ (let* found := poll_receipt cli n tx h in
          if found then ret tt else logger warning "tx_receipt_timeout") w
         = (inr tt, w').
Proof.
  induction n as [|n IH]; intros w.
  - exists 1%nat. eexists. split; reflexivity.
  - destruct (client_get_receipt cli h (client_sleep cli 2 (client w))) as [rc|] eqn:Hrc.
    + unfold bind at 1. rewrite (poll_step_found cli n tx h rc w Hrc). cbv zeta.
      destruct (bool_decide (receipt_status rc = Some 1)) eqn:Hst.
      * exists 3%nat. eexists. split; [| reflexivity].
        cbn [run_worker]. rewrite (step_poll_found _ _ _ _ _ _ Hrc), Hst.
        rewrite step_resolved_mined, step_award by reflexivity. reflexivity.
      * exists 2%nat. eexists. split; [| reflexivity].
        cbn [run_worker]. rewrite (step_poll_found _ _ _ _ _ _ Hrc), Hst.
        rewrite step_resolved_failed. reflexivity.
    + destruct (IH {| db := db w; client := client_sleep cli 2 (client w);
                      clock := clock w + 2; log := log w |}) as (k & w' & Hrun & Hbig).
      exists (S k), w'. split.
      * cbn [run_worker]. rewrite (step_poll_none _ _ _ _ _ Hrc). exact Hrun.
      * unfold bind at 1. rewrite (poll_step_none cli n tx h w Hrc). exact Hbig.
Qed.

(** The steps of one entry, run without anything in between, do what
    [process_single_tx] does. *)
Lemma process_single_tx_in_steps (tx : TxRow) (rest : list TxRow) (w : World C) :
  exists n,
    run_worker cli n (AtEntry AtSubmitting tx rest) w
    = (next_entry rest, (process_single_tx cli tx w).2)
    /\ (process_single_tx cli tx w).1 = inr tt.
Proof.
  destruct (client_send_tx cli (tx_method tx) (tx_params tx) (value_kwarg tx) (client w))
    as [[e|h] c1] eqn:Hsend.
  - exists 3%nat.
    assert (Hsteps : run_worker cli 3 (AtEntry AtSubmitting tx rest) w
                     = (next_entry rest,
                        (run_worker cli 3 (AtEntry AtSubmitting tx rest) w).2)).
    { cbn [run_worker]. rewrite step_submitting.
      rewrite (step_send_raises _ _ _ e c1) by exact Hsend.
      rewrite step_except. reflexivity. }
    assert (Hbig : process_single_tx cli tx w
                   = (inr tt, (run_worker cli 3 (AtEntry AtSubmitting tx rest) w).2)).
    { cbn [run_worker]. rewrite step_submitting.
      rewrite (step_send_raises _ _ _ e c1) by exact Hsend.
      rewrite step_except.
      unfold process_single_tx, try_except.
      unfold bind at 1. rewrite update_tx_status_run.
      unfold bind at 1. unfold with_client at 1. cbn [client].
      fold (value_kwarg tx). rewrite Hsend. reflexivity. }
    rewrite Hbig. split; [exact Hsteps | reflexivity].
  - destruct (poll_in_steps tx rest h 15
                {| db := set_in_transaction false
                           (set_tx_queue
                              (upd (clock w) (tx_id tx) submitted (Some h) None
                                 (tx_queue
                                    (set_in_transaction false
                                       (set_tx_queue
                                          (upd (clock w) (tx_id tx) submitting
                                             None None (tx_queue (db w)))
                                          (db w)))))
                              (set_in_transaction false
                                 (set_tx_queue
                                    (upd (clock w) (tx_id tx) submitting None None
                                       (tx_queue (db w)))
                                    (db w))));
                   client := c1; clock := clock w;
                   log := (log w ++ [(info, "tx_submitted")])%list |})
      as (k & w' & Hrun & Hpoll).
    exists (3 + k)%nat.
    assert (Hsteps : run_worker cli (3 + k) (AtEntry AtSubmitting tx rest) w
                     = (next_entry rest, w')).
    { rewrite run_worker_app. cbn [run_worker].
      rewrite step_submitting. rewrite (step_send_ok _ _ _ h c1) by exact Hsend.
      rewrite step_submitted. cbn [db client clock log]. exact Hrun. }
    assert (Hbig : process_single_tx cli tx w = (inr tt, w')).
    { unfold process_single_tx, try_except.
      unfold bind at 1. rewrite update_tx_status_run.
      unfold bind at 1. unfold with_client at 1. cbn [client].
      fold (value_kwarg tx). rewrite Hsend.
      unfold bind at 1. rewrite update_tx_status_run.
      unfold bind at 1. unfold logger at 1, modify.
      cbn [db client clock log]. rewrite Hpoll. reflexivity. }
    rewrite Hbig. split; [exact Hsteps | reflexivity].
Qed.

(** The steps of a cycle, run without anything in between, do what
    [process_pending_txs] does. *)
Lemma for_each_in_steps (txs : list TxRow) :
  forall w : World C,
    exists n,
      run_worker cli n (next_entry txs) w = (CycleDone (inr tt), (for_each cli txs w).2)
      /\ (for_each cli txs w).1 = inr tt.
Proof.
  induction txs as [|tx txs IH]; intros w.
  - exists 0%nat. split; reflexivity.
  - destruct (process_single_tx_in_steps tx txs w) as (n & Hrun & Hr).
    destruct (IH (process_single_tx cli tx w).2) as (k & Hrun2 & Hr2).
    exists (n + k)%nat. cbn [next_entry]. rewrite run_worker_app, Hrun, Hrun2.
    cbn [for_each]. unfold bind.
    destruct (process_single_tx cli tx w) as [[e|[]] w1]; [discriminate Hr |].
    split; [reflexivity | exact Hr2].
Qed.

Lemma process_pending_txs_in_steps (w : World C) :
  exists n,
    run_worker cli n AtFetch w
    = (CycleDone (inr tt), (process_pending_txs cli w).2)
    /\ (process_pending_txs cli w).1 = inr tt.
Proof.
  destruct (for_each_in_steps (get_pending_txs 5 (db w)) w) as (n & Hrun & Hr).
  exists (S n). split; [exact Hrun | exact Hr].
Qed.

End StepFacts.

(** ** Worker instances on one store *)

(** C4. Two worker instances on one store, with the contract client of the
    repository, and one pending entry. Both fetch their batch before either
    has marked the entry, so both hold it. The first instance marks it
    [submitting], fails in [send_tx] and marks it [failed]; the second then
    starts on its copy and marks the entry [submitting] again, clearing the
    error, before it fails in turn. The status of the entry goes from
    [failed] back to [submitting]. *)
Theorem second_instance_pulls_entry_back :
  let cli := contract_client (steady_node true) (fun _ => None) in
  let idle := {| inst_pc := AtFetch; inst_client := fresh_client; inst_log := [];
                 inst_in_transaction := false |} in
  let stores :=
    run_instances cli [true; false; true; true; true; false; false; false]
      idle idle (db (one_pending fresh_client)) 1005 in
  let type_error :=
    Some "ContractClient.send_tx() got an unexpected keyword argument 'value'" in
  (fun d => (fun r => (tx_id r, tx_status r, tx_hash r, tx_error r)) <$> tx_queue d)
    <$> stores
  = [[(1, pending, None, None)];
     [(1, pending, None, None)];
     [(1, submitting, None, None)];
     [(1, submitting, None, None)];
     [(1, failed, None, type_error)];
     [(1, submitting, None, None)];
     [(1, submitting, None, None)];
     [(1, failed, None, type_error)]]
  /\ ~ status_le failed submitting.
Proof.
  split; [vm_compute; reflexivity |].
  intros [H | H]; [discriminate H | cbn in H; lia].
Qed.

(** With a client whose [send_tx] accepts the call, the second instance
    also clears the hash the first one recorded, pulls the entry back from
    [mined], and sends its transaction a second time. *)
Example second_instance_clears_hash :
  let idle := {| inst_pc := AtFetch; inst_client := tt; inst_log := [];
                 inst_in_transaction := false |} in
  let stores :=
    run_instances prompt_client
      [true; false; true; true; true; true; true; true; false; false; false]
      idle idle (db (one_pending tt)) 1005 in
  (fun d => (fun r => (tx_status r, tx_hash r)) <$> tx_queue d) <$> stores
  = [[(pending, None)]; [(pending, None)];
     [(submitting, None)]; [(submitting, None)]; [(submitted, Some "0xabc")];
     [(submitted, Some "0xabc")]; [(mined, Some "0xabc")]; [(mined, Some "0xabc")];
     [(submitting, None)]; [(submitting, None)]; [(submitted, Some "0xabc")]].
Proof. vm_compute. reflexivity. Qed.

(** One process is enough when a request comes in between: the worker has
    marked alice's entry [mined] and is about to award the XP; bob enters
    with the action id alice used, his [log_action] is refused and leaves
    the transaction open; the worker's [award_xp] fails at [begin], and the
    [except] clause marks the mined entry [failed] and clears its hash. *)
Example refused_log_action_fails_mined_entry :
  let db0 := (game_enter quiet_ledger 1000 (enter_req 1).2 "alice" empty_db).2 in
  let w0 := {| db := db0; client := tt; clock := 1005; log := [] |} in
  let '(pc1, w1) := run_worker prompt_client 6 AtFetch w0 in
  let db2 := (game_enter quiet_ledger 1008 (enter_req 1).2 "bob" (db w1)).2 in
  let w2 := {| db := db2; client := client w1; clock := 1008; log := log w1 |} in
  let '(pc3, w3) := run_worker prompt_client 2 pc1 w2 in
  (exists tx, pc1 = AtEntry AtAward tx [])
  /\ (fun r => (tx_status r, tx_hash r)) <$> get_tx 1 (db w1)
     = Some (mined, Some "0xabc")
  /\ in_transaction db2 = true
  /\ (fun r => (tx_status r, tx_hash r, tx_error r)) <$> get_tx 1 (db w3)
     = Some (failed, None, Some "cannot start a transaction within a transaction")
  /\ xp_events (db w3) = [].
Proof.
  vm_compute. split; [eexists; reflexivity |]. repeat split.
Qed.

(** ** The endpoints of the dungeon master *)

Lemma dm_tuples_of_ok (a : DMResponseAction) : Forall tuple_ok (dm_tuples_of a).
Proof.
  unfold dm_tuples_of.
  repeat apply Forall_app_2.
  - destruct (Z.ltb_spec 0 (dma_gold_reward a)); [| constructor].
    apply Forall_singleton. exists 1, (dma_target a), (dma_gold_reward a).
    repeat split; lia.
  - destruct (Z.ltb_spec 0 (dma_xp_reward a)); [| constructor].
    apply Forall_singleton. exists 2, (dma_target a), (dma_xp_reward a).
    repeat split; lia.
  - destruct (Z.ltb_spec 0 (dma_damage a)); [| constructor].
    apply Forall_singleton. exists 3, (dma_target a), (dma_damage a).
    repeat split; lia.
  - destruct (dma_is_killed a); [| constructor].
    apply Forall_singleton. exists 4, (dma_target a), 0. repeat split; lia.
Qed.

(** X15: every tuple of the [dm_actions] that [game_dm] sends to the
    contract has an action type from 1 to 6, never the type 0 of a
    narration; a gold reward, XP reward or damage appears only with a
    positive value, and kills, completion and failure carry the value 0. *)
Theorem dm_actions_well_formed (req : SubmitDMRequest) :
  Forall tuple_ok (dm_actions_of req).
Proof.
  unfold dm_actions_of. repeat apply Forall_app_2.
  - apply Forall_concat, Forall_fmap, Forall_forall. intros a _. apply dm_tuples_of_ok.
  - destruct (sd_is_complete req); [| constructor].
    apply Forall_singleton. exists 5, ZERO_ADDR, 0. repeat split; lia.
  - destruct (sd_is_failed req); [| constructor].
    apply Forall_singleton. exists 6, ZERO_ADDR, 0. repeat split; lia.
Qed.

Lemma check_idempotency_fresh m a db :
  get_tx_by_action m a db = None -> _check_idempotency m a db = (inr None, db).
Proof. intros H. unfold _check_idempotency. by rewrite H. Qed.

Lemma check_idempotency_state m a db :
  (_check_idempotency m a db).2 = db.
Proof. unfold _check_idempotency. by destruct (get_tx_by_action m a db). Qed.

Lemma check_rate_limit_state now m db : (_check_rate_limit now m db).2 = db.
Proof. unfold _check_rate_limit. by destruct (_ <=? _). Qed.

Lemma logged_existsb a db :
  existsb (fun r => String.eqb (al_action_id r) a) (action_log db) = true
  <-> logged a db.
Proof.
  unfold logged. rewrite existsb_exists, Exists_exists. split.
  - intros (r & Hin & Heq). exists r. split; [by apply list_elem_of_In |].
    by apply String.eqb_eq.
  - intros (r & Hin & Heq). exists r. split; [by apply list_elem_of_In |].
    by apply String.eqb_eq.
Qed.

(** An action id that is in the log: the [INSERT] is refused, [log_action]
    answers [False] and leaves the transaction open. *)
Lemma log_action_logged now a sid m ty ep txt dm db :
  logged a db ->
  log_action now a sid m ty ep txt dm db = (inr false, implicit_begin db).
Proof.
  intros Hl%logged_existsb. unfold log_action, try_except, bind. rewrite Hl.
  reflexivity.
Qed.

(** A new action id: the row is appended and committed. *)
Lemma log_action_new now a sid m ty ep txt dm db :
  ~ logged a db ->
  log_action now a sid m ty ep txt dm db
  = (inr true,
     set_in_transaction false
       (set_action_log
          (action_log db ++
             [{| al_action_id := a; al_session_id := sid; al_moltbook_id := m;
                 al_action_type := ty; al_epoch_id := ep; al_action_text := txt;
                 al_dm_actions_json := dm; al_created_at := now |}]) db)).
Proof.
  intros Hl. unfold log_action, try_except, bind.
  destruct (existsb _ (action_log db)) eqn:E; [| reflexivity].
  by apply logged_existsb in E.
Qed.

Lemma log_action_frame now a sid m ty ep txt dm db :
  exists b db',
    log_action now a sid m ty ep txt dm db = (inr b, db')
    /\ tx_queue db' = tx_queue db
    /\ xp_events db' = xp_events db
    /\ agent_stats db' = agent_stats db
    /\ wallet_bindings db' = wallet_bindings db.
Proof.
  unfold log_action, try_except, bind.
  destruct (existsb _ (action_log db)); cbn; eauto 10.
Qed.

(** An acceptance that passes the checks: the entry is queued, the action
    is logged unless its id is in the log already, and the award runs on
    the store these two leave. *)
Lemma accept_dm_accepted ledger now req m db sinfo :
  count_recent_txs now m db < 10 ->
  get_tx_by_action m (ad_action_id req) db = None ->
  get_session_info ledger (ad_session_id req) = Some sinfo ->
  si_state sinfo = 1 ->
  si_dm_epoch sinfo = ad_dm_epoch req ->
  exists db1,
    game_accept_dm ledger now req m db
    = (let '(r, db2) := award (dm_hosted_award ledger now req m) db1 in
       (match r with
        | inl e => inl e
        | inr _ => inr (queued (next_tx_id (tx_queue db)) (ad_action_id req))
        end, db2))
    /\ tx_queue db1
       = (tx_queue db
          ++ [new_row now (ad_action_id req) m "acceptDM"
                [JInt (ad_session_id req); JInt (ad_dm_epoch req);
                 from_option JStr JNull (si_dm sinfo)] db])%list
    /\ xp_events db1 = xp_events db
    /\ agent_stats db1 = agent_stats db
    /\ (logged (ad_action_id req) db -> in_transaction db1 = true)
    /\ (~ logged (ad_action_id req) db -> in_transaction db1 = false)
    /\ (forall x, x <> ad_action_id req -> logged x db1 -> logged x db).
Proof.
  intros Hrl Hfresh Hinfo Hstate Hepoch.
  unfold game_accept_dm. unfold bind at 1.
  rewrite (proj2 (check_rate_limit_spec now m db) Hrl).
  unfold bind at 1. rewrite (check_idempotency_fresh _ _ _ Hfresh).
  rewrite Hinfo, Hstate, Hepoch, !Z.eqb_refl. cbn [negb].
  unfold bind at 1. rewrite enqueue_tx_fresh by exact Hfresh.
  unfold bind at 1.
  change (award_xp now (dm_hosted_key (ad_session_id req) m) m (ad_session_id req)
            (from_option current_epoch 0 (get_epoch_info ledger)) "dm_hosted" 75 0
            "accept_dm" None)
    with (award (dm_hosted_award ledger now req m)).
  match goal with
  | |- context [log_action ?a ?b ?c ?d ?e ?f ?g ?h ?i] =>
      set (d0 := i);
      assert (Hlog : (logged b d0 <-> logged (ad_action_id req) db)) by reflexivity;
      destruct (decide (Exists (fun r => al_action_id r = b) (action_log d0)))
        as [Hl | Hl];
      [rewrite (log_action_logged a b c d e f g h d0 Hl)
      | rewrite (log_action_new a b c d e f g h d0 Hl)]
  end.
  - cbn beta iota.
    match goal with |- context [bind (award _) _ ?d] => exists d end.
    split; [| split; [| split; [| split; [| split; [| split]]]]].
    + unfold bind. destruct (award _ _) as [[e|b] d2]; reflexivity.
    + reflexivity.
    + reflexivity.
    + reflexivity.
    + reflexivity.
    + intros Hn. exfalso. apply Hn, Hlog, Hl.
    + intros x _ Hx. exact Hx.
  - cbn beta iota.
    match goal with |- context [bind (award _) _ ?d] => exists d end.
    split; [| split; [| split; [| split; [| split; [| split]]]]].
    + unfold bind. destruct (award _ _) as [[e|b] d2]; reflexivity.
    + reflexivity.
    + reflexivity.
    + reflexivity.
    + intros Hy. exfalso. apply Hl, Hlog, Hy.
    + reflexivity.
    + intros x Hx. unfold logged. cbn [action_log set_action_log set_in_transaction].
      rewrite Exists_app, Exists_cons, Exists_nil. cbn [al_action_id].
      intros [Hy | [Hy | []]]; [exact Hy | by destruct Hx].
Qed.

Lemma award_keeps_queue (a : Award) (db : Db) :
  tx_queue (award a db).2 = tx_queue db.
Proof. destruct (award_total a db) as [-> | [-> | [-> | ->]]]; reflexivity. Qed.

(** X16: [POST /game/accept-dm] changes the store only when it queues the
    entry. Unless the caller is under the rate limit, the action id is new
    for the caller, and the session waits for its dungeon master with the
    epoch the request names, the request leaves the store as it is. When
    it does queue the entry, and the session id and the epoch fit 64 bits,
    the caller is answered with the new entry if the action id is not in
    the action log; if it is there (logged for another agent or by
    [/internal/log-action]), the refused [log_action] leaves a transaction
    open, [award_xp] fails at [begin], and the caller gets that error with
    the entry queued and no XP event written. *)
Theorem accept_dm_refusal_changes_nothing ledger now req m db :
  let '(r, db') := game_accept_dm ledger now req m db in
  db' = db
  \/ (count_recent_txs now m db < 10
      /\ get_tx_by_action m (ad_action_id req) db = None
      /\ (exists sinfo,
            get_session_info ledger (ad_session_id req) = Some sinfo
            /\ si_state sinfo = 1
            /\ si_dm_epoch sinfo = ad_dm_epoch req
            /\ tx_queue db'
               = (tx_queue db
                  ++ [new_row now (ad_action_id req) m "acceptDM"
                        [JInt (ad_session_id req); JInt (ad_dm_epoch req);
                         from_option JStr JNull (si_dm sinfo)] db])%list)
      /\ (fits_int64 (ad_session_id req) = true ->
          fits_int64 (from_option current_epoch 0 (get_epoch_info ledger)) = true ->
          (logged (ad_action_id req) db ->
           r = inl (OperationalError "cannot start a transaction within a transaction")
           /\ xp_events db' = xp_events db
           /\ agent_stats db' = agent_stats db)
          /\ (~ logged (ad_action_id req) db ->
              r = inr (queued (next_tx_id (tx_queue db)) (ad_action_id req))))).
Proof.
  destruct (Z.le_gt_cases 10 (count_recent_txs now m db)) as [Hge | Hlt].
  { unfold game_accept_dm, bind.
    rewrite (proj1 (check_rate_limit_spec now m db) Hge). by left. }
  destruct (get_tx_by_action m (ad_action_id req) db) as [existing|] eqn:Hget.
  { unfold game_accept_dm, bind.
    rewrite (proj2 (check_rate_limit_spec now m db) Hlt).
    unfold _check_idempotency. rewrite Hget. by left. }
  destruct (get_session_info ledger (ad_session_id req)) as [sinfo|] eqn:Hinfo.
  2: { unfold game_accept_dm, bind.
       rewrite (proj2 (check_rate_limit_spec now m db) Hlt).
       rewrite (check_idempotency_fresh _ _ _ Hget), Hinfo. by left. }
  destruct (Z.eqb_spec (si_state sinfo) 1) as [Hstate | Hstate].
  2: { unfold game_accept_dm, bind.
       rewrite (proj2 (check_rate_limit_spec now m db) Hlt).
       rewrite (check_idempotency_fresh _ _ _ Hget), Hinfo.
       destruct (Z.eqb_spec (si_state sinfo) 1) as [|_]; [done |]. cbn [negb].
       destruct (si_state sinfo =? 2); by left. }
  destruct (Z.eqb_spec (ad_dm_epoch req) (si_dm_epoch sinfo)) as [Hepoch | Hepoch].
  2: { unfold game_accept_dm, bind.
       rewrite (proj2 (check_rate_limit_spec now m db) Hlt).
       rewrite (check_idempotency_fresh _ _ _ Hget), Hinfo, Hstate.
       cbn [Z.eqb negb Pos.eqb].
       destruct (Z.eqb_spec (ad_dm_epoch req) (si_dm_epoch sinfo)) as [|_]; [done |].
       by left. }
  destruct (accept_dm_accepted ledger now req m db sinfo Hlt Hget Hinfo
              Hstate (eq_sym Hepoch))
    as (db1 & -> & Hq1 & Hx1 & Hs1 & Hopen & Hclosed & _).
  pose proof (award_keeps_queue (dm_hosted_award ledger now req m) db1) as Hq2.
  destruct (award (dm_hosted_award ledger now req m) db1) as [r2 d2] eqn:Haward.
  cbn [snd] in Hq2.
  right. split; [lia |]. split; [reflexivity |]. split.
  { exists sinfo. split; [reflexivity |]. split; [exact Hstate |].
    split; [by rewrite Hepoch |]. by rewrite Hq2, Hq1. }
  intros Hsid Hep.
  assert (Hb : binds (dm_hosted_award ledger now req m)).
  { unfold binds. cbn. by rewrite Hsid, Hep. }
  split.
  - intros Hl. rewrite (award_in_transaction _ db1 (Hopen Hl)) in Haward.
    injection Haward as <- <-.
    split; [reflexivity |]. split; [exact Hx1 | exact Hs1].
  - intros Hl. specialize (Hclosed Hl). revert Haward.
    destruct (decide (Exists (has_key (aw_idempotency_key
                                         (dm_hosted_award ledger now req m)))
                        (xp_events db1))) as [H|H].
    + rewrite (award_duplicate _ db1 Hclosed Hb H). by intros [= <- <-].
    + rewrite (award_fresh _ db1 Hclosed Hb); [| by apply Forall_Exists_neg].
      by intros [= <- <-].
Qed.

(** X17: the 75 XP for hosting are awarded when the acceptance is queued,
    once per session and agent. For action ids that are not in the action
    log, and a session id and an epoch that fit 64 bits: a second
    acceptance of the same session by the same agent under another action
    id is queued as a second entry and leaves the XP events and the
    statistics as the first left them. *)
Theorem accept_dm_awards_once ledger t1 t2 sid ep a1 a2 m db sinfo :
  get_session_info ledger sid = Some sinfo ->
  si_state sinfo = 1 ->
  si_dm_epoch sinfo = ep ->
  a1 <> a2 ->
  get_tx_by_action m a1 db = None ->
  get_tx_by_action m a2 db = None ->
  ~ logged a1 db ->
  ~ logged a2 db ->
  fits_int64 sid = true ->
  fits_int64 (from_option current_epoch 0 (get_epoch_info ledger)) = true ->
  count_recent_txs t1 m db < 10 ->
  Forall (fun e => ~ has_key (dm_hosted_key sid m) e) (xp_events db) ->
  let req1 := {| ad_session_id := sid; ad_dm_epoch := ep; ad_action_id := a1 |} in
  let req2 := {| ad_session_id := sid; ad_dm_epoch := ep; ad_action_id := a2 |} in
  let '(r1, db1) := game_accept_dm ledger t1 req1 m db in
  count_recent_txs t2 m db1 < 10 ->
  let '(r2, db2) := game_accept_dm ledger t2 req2 m db1 in
  r1 = inr (queued (next_tx_id (tx_queue db)) a1)
  /\ r2 = inr (queued (next_tx_id (tx_queue db1)) a2)
  /\ length (tx_queue db2) = S (S (length (tx_queue db)))
  /\ xp_events db1 = (xp_events db ++ [event_of (dm_hosted_award ledger t1 req1 m)])%list
  /\ xp_events db2 = xp_events db1
  /\ agent_stats db2 = agent_stats db1.
Proof.
  intros Hinfo Hstate Hepoch Hne Hf1 Hf2 Hl1 Hl2 Hsid Hep Hrl1 Hkey req1 req2.
  destruct (accept_dm_accepted ledger t1 req1 m db sinfo Hrl1 Hf1 Hinfo Hstate Hepoch)
    as (d1 & Hrun1 & Hq1 & Hx1 & Hs1 & _ & Hc1 & Hlg1).
  assert (Hb1 : binds (dm_hosted_award ledger t1 req1 m)).
  { unfold binds. cbn. by rewrite Hsid, Hep. }
  rewrite Hrun1, (award_fresh _ d1 (Hc1 Hl1) Hb1) by (by rewrite Hx1).
  set (db1 := awarded (dm_hosted_award ledger t1 req1 m) d1). intros Hrl2.
  assert (Hf2' : get_tx_by_action m a2 db1 = None).
  { unfold get_tx_by_action in *. cbn [db1 awarded tx_queue]. rewrite Hq1, find_snoc, Hf2.
    cbn. unfold same_action. cbn.
    destruct (String.eqb_spec a1 a2) as [| _]; [done |].
    by rewrite andb_false_r. }
  destruct (accept_dm_accepted ledger t2 req2 m db1 sinfo Hrl2 Hf2' Hinfo Hstate Hepoch)
    as (d2 & Hrun2 & Hq2 & Hx2 & Hs2 & _ & Hc2 & _).
  assert (Hl2' : ~ logged a2 db1).
  { intros Hy. apply Hl2, (Hlg1 a2); [by intros -> | exact Hy]. }
  assert (Hb2 : binds (dm_hosted_award ledger t2 req2 m)).
  { unfold binds. cbn. by rewrite Hsid, Hep. }
  rewrite Hrun2.
  rewrite (award_duplicate _ d2 (Hc2 Hl2') Hb2).
  - split; [reflexivity |]. split; [reflexivity |]. split; [| split; [| split]].
    + rewrite Hq2. cbn [db1 awarded tx_queue]. rewrite Hq1, !length_app. cbn. lia.
    + cbn [db1 awarded xp_events]. by rewrite Hx1.
    + exact Hx2.
    + exact Hs2.
  - rewrite Hx2. cbn [db1 awarded xp_events]. apply Exists_app. right.
    apply Exists_cons_hd. reflexivity.
Qed.

Lemma accept_dm_awards_once_witness :
  let ledger := ledger_with waiting_session in
  let '(r1, db1) := game_accept_dm ledger 1000 (accept_req "a1") "dora" empty_db in
  count_recent_txs 1060 "dora" db1 < 10 ->
  let '(r2, db2) := game_accept_dm ledger 1060 (accept_req "a2") "dora" db1 in
  r1 = inr (queued (next_tx_id (tx_queue empty_db)) "a1")
  /\ r2 = inr (queued (next_tx_id (tx_queue db1)) "a2")
  /\ length (tx_queue db2) = S (S (length (tx_queue empty_db)))
  /\ xp_events db1
     = (xp_events empty_db
        ++ [event_of (dm_hosted_award ledger 1000 (accept_req "a1") "dora")])%list
  /\ xp_events db2 = xp_events db1
  /\ agent_stats db2 = agent_stats db1.
Proof.
  apply (accept_dm_awards_once (ledger_with waiting_session) 1000 1060 7 3 "a1" "a2"
           "dora" empty_db waiting_session).
  - reflexivity.
  - reflexivity.
  - reflexivity.
  - discriminate.
  - reflexivity.
  - reflexivity.
  - intros H. inversion H.
  - intros H. inversion H.
  - reflexivity.
  - reflexivity.
  - vm_compute. reflexivity.
  - constructor.
Defined.

Lemma validate_turn_index_ok ledger sid turn sinfo :
  get_session_info ledger sid = Some sinfo ->
  si_state sinfo = 2 ->
  si_current_turn sinfo = turn ->
  validate_turn_index ledger sid turn = inr sinfo.
Proof.
  intros Hinfo Hstate Hturn. unfold validate_turn_index.
  by rewrite Hinfo, Hstate, Hturn, !Z.eqb_refl.
Qed.

(** X18: [POST /game/dm] by any caller who is under the rate limit, with a
    new action id, for an Active session at its current turn, queues one
    [submitDMResponse] entry. The address the entry names as dungeon master
    is the one the session records ([dm], or [current_actor] when the
    session has none), whoever the caller is; no wallet binding of the
    caller is read or needed. *)
Theorem dm_response_relays_session_dm (dumps_actions : list DMResponseAction -> string)
    ledger now req m db sinfo :
  count_recent_txs now m db < 10 ->
  get_tx_by_action m (sd_action_id req) db = None ->
  get_session_info ledger (sd_session_id req) = Some sinfo ->
  si_state sinfo = 2 ->
  si_current_turn sinfo = sd_turn_index req ->
  exists db',
    game_dm dumps_actions ledger now req m db
    = (inr (queued (next_tx_id (tx_queue db)) (sd_action_id req)), db')
    /\ tx_queue db'
       = (tx_queue db
          ++ [new_row now (sd_action_id req) m "submitDMResponse"
                [JInt (sd_session_id req); JInt (sd_turn_index req);
                 JStr (sd_narrative req); JList (dm_actions_of req);
                 from_option JStr JNull
                   (or_else (si_dm sinfo) (si_current_actor sinfo))] db])%list
    /\ wallet_bindings db' = wallet_bindings db.
Proof.
  intros Hrl Hfresh Hinfo Hstate Hturn. unfold game_dm. unfold bind at 1.
  rewrite (proj2 (check_rate_limit_spec now m db) Hrl).
  unfold bind at 1. rewrite (check_idempotency_fresh _ _ _ Hfresh).
  rewrite (validate_turn_index_ok _ _ _ _ Hinfo Hstate Hturn).
  unfold bind at 1. rewrite enqueue_tx_fresh by exact Hfresh.
  unfold bind at 1.
  match goal with
  | |- context [log_action ?a ?b ?c ?d ?e ?f ?g ?h ?i] =>
      destruct (log_action_frame a b c d e f g h i) as (b0 & db1 & -> & Hq & _ & _ & Hw)
  end.
  exists db1. split; [reflexivity |]. split; [exact Hq | exact Hw].
Qed.

Lemma dm_response_relays_session_dm_witness :
  let req := {| sd_session_id := 7; sd_turn_index := 4; sd_narrative := "The door opens.";
                sd_actions := [{| dma_target := "0xa000000000000000000000000000000000000002";
                                  dma_xp_reward := 5; dma_gold_reward := 0;
                                  dma_damage := 0; dma_is_killed := false |}];
                sd_is_complete := false; sd_is_failed := false;
                sd_action_id := "dm-1" |} in
  exists db',
    game_dm (fun _ => "[]") (ledger_with active_session) 1000 req "mallory" empty_db
    = (inr (queued (next_tx_id (tx_queue empty_db)) (sd_action_id req)), db')
    /\ tx_queue db'
       = (tx_queue empty_db
          ++ [new_row 1000 (sd_action_id req) "mallory" "submitDMResponse"
                [JInt (sd_session_id req); JInt (sd_turn_index req);
                 JStr (sd_narrative req); JList (dm_actions_of req);
                 from_option JStr JNull
                   (or_else (si_dm active_session) (si_current_actor active_session))]
                empty_db])%list
    /\ wallet_bindings db' = wallet_bindings empty_db.
Proof.
  intros req.
  apply (dm_response_relays_session_dm (fun _ => "[]") (ledger_with active_session) 1000
           req "mallory" empty_db active_session).
  - vm_compute. reflexivity.
  - reflexivity.
  - reflexivity.
  - reflexivity.
  - reflexivity.
Defined.

(** ** The backends *)

Lemma _q_from_plain (k : Z) (p rest : string) :
  plain p -> _q_from k (p ++ rest) = p ++ _q_from k rest.
Proof.
  induction p as [|c p IH]; intros Hp; [reflexivity |].
  change (String c p ++ rest) with (String c (p ++ rest)).
  change (String c p ++ _q_from k rest) with (String c (p ++ _q_from k rest)).
  cbn [_q_from]. destruct (Ascii.eqb_spec c "?") as [-> | _].
  - exfalso. apply (Hp "?"%char); [| reflexivity]. cbn. apply list_elem_of_here.
  - f_equal. apply IH. intros c' Hc'. apply Hp. cbn. by apply list_elem_of_further.
Qed.

Lemma append_empty_r (s : string) : s ++ "" = s.
Proof.
  induction s as [|c s IH]; [reflexivity |].
  change (String c s ++ "") with (String c (s ++ "")). by rewrite IH.
Qed.

Lemma _q_from_marks (rest : list string) :
  forall (k : Z) (first : string),
    plain first -> Forall plain rest ->
    _q_from k (with_marks first rest) = with_numbers (k + 1) first rest.
Proof.
  induction rest as [|p ps IH]; intros k first Hf Hr.
  - cbn [with_marks with_numbers]. rewrite <- (append_empty_r first) at 1.
    rewrite _q_from_plain by exact Hf. cbn [_q_from]. apply append_empty_r.
  - apply Forall_cons in Hr as [Hp Hps]. cbn [with_marks with_numbers].
    rewrite _q_from_plain by exact Hf. f_equal.
    change ("?" ++ with_marks p ps) with (String "?" (with_marks p ps)).
    cbn [_q_from Ascii.eqb Bool.eqb]. cbv iota. f_equal. f_equal.
    by apply IH.
Qed.

(** X19: [_q] numbers the placeholders in the order of the text: pieces
    without a question mark that are joined by [?] come out joined by [$1],
    [$2], ..., and the pieces themselves are unchanged. *)
Theorem q_numbers_placeholders_in_order (first : string) (rest : list string) :
  plain first -> Forall plain rest ->
  _q (with_marks first rest) = with_numbers 1 first rest.
Proof. intros Hf Hr. unfold _q. by rewrite _q_from_marks. Qed.

Lemma plain_decide (s : string) :
  forallb (fun c => negb (Ascii.eqb c "?")) (String.list_ascii_of_string s) = true ->
  plain s.
Proof.
  intros H c Hc ->. rewrite forallb_forall in H.
  apply list_elem_of_In in Hc. apply H in Hc. discriminate.
Qed.

Lemma q_numbers_placeholders_in_order_witness :
  _q (with_marks "UPDATE tx_queue SET status = " [", tx_hash = "; " WHERE id = "; ""])
  = with_numbers 1 "UPDATE tx_queue SET status = " [", tx_hash = "; " WHERE id = "; ""].
Proof.
  apply (q_numbers_placeholders_in_order "UPDATE tx_queue SET status = "
           [", tx_hash = "; " WHERE id = "; ""]).
  - apply plain_decide. reflexivity.
  - repeat constructor; apply plain_decide; reflexivity.
Defined.

(** X20: [create_backend] hands a PostgreSQL URL on as it is, and for
    every other URL opens an SQLite file whose path is never empty: a URL
    that is empty, or that is nothing but the prefix [sqlite:///] or
    [sqlite://], opens [gateway.db]. *)
Theorem sqlite_path_never_empty (database_url : string) :
  match create_backend database_url with
  | PostgresBackend dsn => dsn = database_url
  | SQLiteBackend path =>
      path <> ""
      /\ (database_url = "" \/ database_url = "sqlite:///" \/ database_url = "sqlite://"
          -> path = "gateway.db")
  end.
Proof.
  unfold create_backend.
  destruct (String.prefix "postgresql://" database_url
            || String.prefix "postgres://" database_url)%bool; [reflexivity |].
  split.
  - destruct (String.prefix "sqlite:///" database_url);
      [| destruct (String.prefix "sqlite://" database_url)].
    all: match goal with
         | |- match ?p with EmptyString => _ | String _ _ => _ end <> _ =>
             destruct p; discriminate
         end.
  - intros [-> | [-> | ->]]; reflexivity.
Qed.

(** ** Agent verification *)

(** X21: once a token was verified, [verify_agent] answers with the stored
    profile for the next 300 seconds without regard to the API: a token the
    API has revoked, or an API that cannot be reached, is not noticed
    before the entry expires. *)
Theorem verified_token_served_from_cache api api' now later now' later' token
    profile cache cache1 :
  verify_agent api now later token cache = (inr profile, cache1) ->
  cache !! token = None ->
  now' < later + CACHE_TTL ->
  verify_agent api' now' later' token cache1 = (inr profile, cache1).
Proof.
  intros Hfirst Hnone Hlt. revert Hfirst. unfold verify_agent. rewrite Hnone.
  destruct (api token) as [e | status success agent]; [discriminate |].
  destruct (status =? 401); [discriminate |].
  destruct (negb (status =? 200)); [discriminate |].
  destruct (negb success); [discriminate |].
  intros [= <- <-]. rewrite lookup_insert_eq.
  by destruct (Z.ltb_spec now' (later + CACHE_TTL)); [| lia].
Qed.

Lemma verified_token_served_from_cache_witness :
  verify_agent api_revoked 1299 1299 "tok"
    (verify_agent (api_accepts [("id", JStr "a1")]) 1000 1000 "tok" ∅).2
  = (inr [("id", JStr "a1")],
     (verify_agent (api_accepts [("id", JStr "a1")]) 1000 1000 "tok" ∅).2).
Proof.
  apply (verified_token_served_from_cache (api_accepts [("id", JStr "a1")]) api_revoked
           1000 1000 1299 1299 "tok" [("id", JStr "a1")] ∅).
  - reflexivity.
  - reflexivity.
  - reflexivity.
Defined.

(** X22: from the expiry time on the cached profile is not used any more:
    the entry is deleted and the API decides, and when the API then refuses
    the token the error is raised and the token is left out of the cache. *)
Theorem expired_token_asks_api_again api now later now' later' token profile cache cache1 :
  verify_agent api now later token cache = (inr profile, cache1) ->
  cache !! token = None ->
  later + CACHE_TTL <= now' ->
  verify_agent api_revoked now' later' token cache1 = (inl "Invalid Moltbook token", cache).
Proof.
  intros Hfirst Hnone Hge. revert Hfirst. unfold verify_agent. rewrite Hnone.
  destruct (api token) as [e | status success agent]; [discriminate |].
  destruct (status =? 401); [discriminate |].
  destruct (negb (status =? 200)); [discriminate |].
  destruct (negb success); [discriminate |].
  intros [= <- <-]. rewrite lookup_insert_eq.
  destruct (Z.ltb_spec now' (later + CACHE_TTL)); [lia |].
  cbn. by rewrite delete_insert_eq, delete_id.
Qed.

Lemma expired_token_asks_api_again_witness :
  verify_agent api_revoked 1300 1300 "tok"
    (verify_agent (api_accepts [("id", JStr "a1")]) 1000 1000 "tok" ∅).2
  = (inl "Invalid Moltbook token", ∅).
Proof.
  apply (expired_token_asks_api_again (api_accepts [("id", JStr "a1")]) 1000 1000 1300
           1300 "tok" [("id", JStr "a1")] ∅
           (verify_agent (api_accepts [("id", JStr "a1")]) 1000 1000 "tok" ∅).2).
  - reflexivity.
  - reflexivity.
  - reflexivity.
Defined.

(** ** Statistics *)

Lemma total_filter_bounds (f : XpEvent -> Z) (P : XpEvent -> Prop)
    `{!forall e, Decision (P e)} (l : list XpEvent) :
  Forall (fun e => 0 <= f e) l ->
  0 <= total (f <$> filter P l) <= total (f <$> l).
Proof.
  induction 1 as [|e l He _ IH]; [cbn; lia |].
  destruct (decide (P e)).
  - rewrite filter_cons_True by done. unfold total in *. cbn. lia.
  - rewrite filter_cons_False by done. unfold total in *. cbn. lia.
Qed.

(** The events a history leaves are events of the history: with amounts
    that are not negative, their sum is at most the sum over the
    history. *)
Lemma replay_events_bounded (f : XpEvent -> Z) (g : Award -> Z) :
  (forall a, f (event_of a) = g a) ->
  forall (history : list Award) (db : Db) (k : Z),
    Forall (fun a => 0 <= g a) history ->
    Forall (fun e => 0 <= f e) (xp_events db) ->
    total (f <$> xp_events db) <= k ->
    Forall (fun e => 0 <= f e) (xp_events (replay history db))
    /\ total (f <$> xp_events (replay history db)) <= k + total (g <$> history).
Proof.
  intros Hfg history. induction history as [|a h IH]; intros db k Hh Hpos Hk.
  { change (replay [] db) with db. split; [exact Hpos |].
    change (total (g <$> [])) with 0. lia. }
  apply Forall_cons in Hh as [Ha Hh].
  change (replay (a :: h) db) with (replay h (award a db).2).
  replace (k + total (g <$> a :: h)) with ((k + g a) + total (g <$> h))
    by (rewrite fmap_cons; unfold total; cbn [foldr]; lia).
  destruct (award_total a db) as [-> | [-> | [-> | ->]]]; cbn [snd].
  1-3: apply IH; [exact Hh | exact Hpos | cbn [xp_events set_in_transaction]; lia].
  apply IH; [exact Hh | |].
  - cbn [awarded xp_events]. apply Forall_app. split; [exact Hpos |].
    apply Forall_singleton. by rewrite Hfg.
  - cbn [awarded xp_events]. rewrite fmap_app. cbn [fmap list_fmap].
    rewrite total_snoc, Hfg. lia.
Qed.

(** X23: for every history of awards whose amounts are not negative and
    sum up to less than 2^63, so that no total leaves the 64-bit integers
    of the store, the legacy [get_agent_stats] reports for an agent the sum
    of the XP and the sum of the gold of the agent's recorded events, both
    0 for an agent without events and both 64-bit integers, and always 0
    events. *)
Theorem legacy_stats_sum_events (history : list Award) (m : string) :
  Forall (fun a => 0 <= aw_xp_amount a /\ 0 <= aw_gold_amount a) history ->
  total (aw_xp_amount <$> history) < 2 ^ 63 ->
  total (aw_gold_amount <$> history) < 2 ^ 63 ->
  let db := replay history empty_db in
  get_agent_stats m db
  = {| ls_total_xp := total (xe_xp_amount <$> events_of m db);
       ls_total_gold := total (xe_gold_amount <$> events_of m db);
       ls_total_events := 0 |}
  /\ fits_int64 (ls_total_xp (get_agent_stats m db)) = true
  /\ fits_int64 (ls_total_gold (get_agent_stats m db)) = true.
Proof.
  intros Hpos Hxp Hgold db.
  assert (Hrun : get_agent_stats m db
                 = {| ls_total_xp := total (xe_xp_amount <$> events_of m db);
                      ls_total_gold := total (xe_gold_amount <$> events_of m db);
                      ls_total_events := 0 |}).
  { pose proof (replay_keeps_match history empty_db empty_db_matches m) as Hinv.
    fold db in Hinv. unfold get_agent_stats, get_agent_full_stats.
    destruct (agent_stats db !! m) as [s|].
    - destruct Hinv as (_ & -> & -> & _). reflexivity.
    - rewrite Hinv. reflexivity. }
  split; [exact Hrun |]. rewrite Hrun. cbn [ls_total_xp ls_total_gold].
  assert (H63 : 2 ^ 63 = 9223372036854775808) by reflexivity.
  rewrite H63 in Hxp, Hgold.
  destruct (replay_events_bounded xe_xp_amount aw_xp_amount (fun _ => eq_refl)
              history empty_db 0) as [Hx Hxs].
  { eapply Forall_impl; [exact Hpos | by intros a [? _]]. }
  { constructor. }
  { reflexivity. }
  destruct (replay_events_bounded xe_gold_amount aw_gold_amount (fun _ => eq_refl)
              history empty_db 0) as [Hg Hgs].
  { eapply Forall_impl; [exact Hpos | by intros a [_ ?]]. }
  { constructor. }
  { reflexivity. }
  fold db in Hx, Hxs, Hg, Hgs.
  pose proof (total_filter_bounds xe_xp_amount (fun e => xe_moltbook_id e = m)
                (xp_events db) Hx) as Bx.
  pose proof (total_filter_bounds xe_gold_amount (fun e => xe_moltbook_id e = m)
                (xp_events db) Hg) as Bg.
  fold (events_of m db) in Bx, Bg.
  unfold fits_int64. split; apply andb_true_intro; split; apply Z.leb_le; lia.
Qed.

Lemma legacy_stats_sum_events_witness :
  let db := replay [award_A1; award_win; award_A2; award_legend] empty_db in
  get_agent_stats "alice" db
  = {| ls_total_xp := total (xe_xp_amount <$> events_of "alice" db);
       ls_total_gold := total (xe_gold_amount <$> events_of "alice" db);
       ls_total_events := 0 |}
  /\ fits_int64 (ls_total_xp (get_agent_stats "alice" db)) = true
  /\ fits_int64 (ls_total_gold (get_agent_stats "alice" db)) = true.
Proof.
  apply (legacy_stats_sum_events [award_A1; award_win; award_A2; award_legend] "alice").
  - repeat constructor; discriminate.
  - reflexivity.
  - reflexivity.
Defined.

(** X24: action ids are unique in the action log across all agents, but in
    the queue only per agent. When an agent enters with an action id that
    is already in the log, from any agent, and that the agent has not
    queued, the entry is queued and reported as pending like any other,
    and the log is left as it is: the action of this agent is not
    logged. *)
Theorem foreign_action_id_queued_not_logged ledger now req m db :
  epoch_open ledger ->
  count_recent_txs now m db < 10 ->
  get_tx_by_action m (ed_action_id req) db = None ->
  logged (ed_action_id req) db ->
  exists db',
    game_enter ledger now req m db
    = (inr (queued (next_tx_id (tx_queue db)) (ed_action_id req)), db')
    /\ tx_queue db'
       = (tx_queue db
          ++ [new_row now (ed_action_id req) m "enterDungeon"
                [JInt (ed_dungeon_id req)] db])%list
    /\ action_log db' = action_log db.
Proof.
  intros Hopen Hrl Hfresh Hlog. unfold game_enter. unfold bind at 1.
  rewrite (proj2 (check_rate_limit_spec now m db) Hrl).
  unfold epoch_open in Hopen.
  destruct (get_epoch_info ledger) as [ei|]; [rewrite Hopen; cbn [Z.eqb negb] |].
  all: unfold bind at 1, _check_idempotency; rewrite Hfresh.
  all: unfold bind at 1; rewrite enqueue_tx_fresh by exact Hfresh.
  all: unfold bind at 1; rewrite log_action_logged by exact Hlog.
  all: eexists; split; [reflexivity |]; split; reflexivity.
Qed.

Lemma foreign_action_id_queued_not_logged_witness :
  let db := (game_enter quiet_ledger 1000 (enter_req 1).2 "alice" empty_db).2 in
  exists db',
    game_enter quiet_ledger 1060 (enter_req 1).2 "bob" db
    = (inr (queued (next_tx_id (tx_queue db)) (ed_action_id (enter_req 1).2)), db')
    /\ tx_queue db'
       = (tx_queue db
          ++ [new_row 1060 (ed_action_id (enter_req 1).2) "bob" "enterDungeon"
                [JInt (ed_dungeon_id (enter_req 1).2)] db])%list
    /\ action_log db' = action_log db.
Proof.
  apply (foreign_action_id_queued_not_logged quiet_ledger 1060 (enter_req 1).2 "bob"
           (game_enter quiet_ledger 1000 (enter_req 1).2 "alice" empty_db).2).
  - reflexivity.
  - vm_compute. reflexivity.
  - reflexivity.
  - apply Exists_cons_hd. reflexivity.
Defined.



(** ** The leaderboard *)

#[local] Instance by_col_desc_total col : Total (by_col_desc col).
Proof.
  intros a b. unfold by_col_desc.
  destruct (col a.2), (col b.2); cbn; try tauto. lia.
Qed.

#[local] Instance by_col_desc_trans col : Transitive (by_col_desc col).
Proof.
  intros a b c. unfold by_col_desc.
  destruct (col a.2), (col b.2), (col c.2); cbn; try tauto. lia.
Qed.

Lemma ranked_length col i rows : length (ranked col i rows) = length rows.
Proof. revert i. induction rows as [|r rows IH]; intros i; cbn; [done | by rewrite IH]. Qed.

Lemma ranked_ranks col rows :
  forall i, le_rank <$> ranked col i rows = seqZ (i + 1) (Z.of_nat (length rows)).
Proof.
  induction rows as [|r rows IH]; intros i; [reflexivity |].
  cbn [ranked fmap list_fmap length le_rank]. rewrite IH.
  rewrite (seqZ_cons (i + 1)) by lia. f_equal. f_equal; lia.
Qed.

Lemma ranked_Forall col (P : LeaderboardEntry -> Prop) rows :
  forall i,
    (forall j r, r ∈ rows ->
       P {| le_rank := j; le_moltbook_id := r.1; le_display_name := display_name r.2;
            le_value := col r.2; le_level := current_level r.2 |}) ->
    Forall P (ranked col i rows).
Proof.
  induction rows as [|r rows IH]; intros i H; [constructor |].
  cbn. constructor.
  - apply H. apply list_elem_of_here.
  - apply IH. intros j r' Hr'. apply H. by apply list_elem_of_further.
Qed.

Lemma ranked_sorted col rows :
  forall i,
    StronglySorted (by_col_desc col) rows ->
    StronglySorted (fun a b => value_le (le_value b) (le_value a)) (ranked col i rows).
Proof.
  induction rows as [|r rows IH]; intros i Hs; [constructor |].
  apply StronglySorted_inv in Hs as [Hs Hall]. cbn. constructor; [by apply IH |].
  apply ranked_Forall. intros j r' Hr'. cbn.
  rewrite Forall_forall in Hall. exact (Hall r' Hr').
Qed.

(** X26: for one of the three metrics and a limit that is not negative,
    [GET /leaderboard/{metric}] returns at most 100 entries, as many as the
    limit and the number of agents allow; their ranks are 1, 2, 3, ... in
    the order of the list; the values do not increase along the list; and
    every entry shows name, value and level of an agent's row. *)
Theorem leaderboard_is_ranked (metric : string) (limit : Z) (db : Db)
    (entries : list LeaderboardEntry) :
  0 <= limit ->
  leaderboard metric limit db = (inr entries, db) ->
  length entries = Nat.min (Z.to_nat (Z.min limit 100)) (size (agent_stats db))
  /\ (length entries <= 100)%nat
  /\ le_rank <$> entries = seqZ 1 (Z.of_nat (length entries))
  /\ StronglySorted (fun a b => value_le (le_value b) (le_value a)) entries
  /\ Forall (shows metric db) entries.
Proof.
  intros Hlimit. unfold leaderboard.
  destruct (negb _); [discriminate |]. intros [= <-].
  unfold get_leaderboard, sql_limit.
  destruct (Z.ltb_spec (Z.min limit 100) 0) as [Hneg | _]; [lia |].
  set (col := col_map metric).
  set (sorted := merge_sort (by_col_desc col) (map_to_list (agent_stats db))).
  assert (Hlen : length sorted = size (agent_stats db)).
  { unfold sorted. rewrite merge_sort_Permutation. by rewrite length_map_to_list. }
  assert (Hs : StronglySorted (by_col_desc col) sorted).
  { unfold sorted. apply StronglySorted_merge_sort; apply _. }
  assert (Hl : length (ranked col 0 (take (Z.to_nat (Z.min limit 100)) sorted))
               = Nat.min (Z.to_nat (Z.min limit 100)) (size (agent_stats db))).
  { by rewrite ranked_length, length_take, Hlen. }
  split; [exact Hl |]. split; [rewrite Hl; lia |]. split; [| split].
  - rewrite ranked_ranks, ranked_length. reflexivity.
  - apply ranked_sorted.
    rewrite <- (take_drop (Z.to_nat (Z.min limit 100)) sorted) in Hs.
    by apply StronglySorted_app_1_l in Hs.
  - apply ranked_Forall. intros j [m s] Hr.
    eapply elem_of_sublist in Hr; [| apply sublist_take].
    unfold sorted in Hr. rewrite merge_sort_Permutation in Hr.
    apply elem_of_map_to_list in Hr.
    exists s. cbn. by repeat split.
Qed.

Lemma leaderboard_is_ranked_witness :
  let db := replay [award_A1; award_legend] empty_db in
  let entries := get_leaderboard "xp" (Z.min 20 100) db in
  length entries = Nat.min (Z.to_nat (Z.min 20 100)) (size (agent_stats db))
  /\ (length entries <= 100)%nat
  /\ le_rank <$> entries = seqZ 1 (Z.of_nat (length entries))
  /\ StronglySorted (fun a b => value_le (le_value b) (le_value a)) entries
  /\ Forall (shows "xp" db) entries.
Proof.
  apply (leaderboard_is_ranked "xp" 20 (replay [award_A1; award_legend] empty_db)).
  - lia.
  - reflexivity.
Defined.

(** ** Reading the dungeons *)

Lemma overview_fold ledger (all : list DungeonInfo) :
  forall w wd ip tl,
    let '(w', wd', ip', tl') := foldl (overview_step ledger) (w, wd, ip, tl) all in
    w <= w' /\ wd <= wd' /\ ip <= ip'
    /\ (w' - w) + (wd' - wd) + (ip' - ip)
       <= Z.of_nat (length (filter (fun d => 0 < di_current_session_id d) all))
    /\ tl' = tl + foldr Z.add 0 (di_loot_pool <$> all).
Proof.
  induction all as [|d all IH]; intros w wd ip tl.
  - cbn. repeat split; lia.
  - cbn [foldl].
    assert (Hstep : exists a b c,
              overview_step ledger (w, wd, ip, tl) d = (a, b, c, tl + di_loot_pool d)
              /\ w <= a /\ wd <= b /\ ip <= c
              /\ (a - w) + (b - wd) + (c - ip)
                 <= Z.of_nat (length (filter (fun d => 0 < di_current_session_id d) [d]))).
    { unfold overview_step.
      destruct (Z.ltb_spec 0 (di_current_session_id d)) as [Hpos | Hnpos].
      - rewrite filter_cons_True by exact Hpos. cbn [length filter list_filter].
        destruct (get_session_info ledger (di_current_session_id d)) as [session|].
        + destruct (si_state session =? 0);
            [| destruct (si_state session =? 1); [| destruct (si_state session =? 2)]].
          all: do 3 eexists; split; [reflexivity |]; cbn; lia.
        + do 3 eexists. split; [reflexivity |]. cbn. lia.
      - do 3 eexists. split; [reflexivity |]. cbn. lia. }
    destruct Hstep as (a & b & c & -> & Ha & Hb & Hc & Hsum).
    pose proof (IH a b c (tl + di_loot_pool d)) as IH'. revert IH'.
    destruct (foldl (overview_step ledger) (a, b, c, tl + di_loot_pool d) all)
      as [[[w' wd'] ip'] tl'].
    intros (? & ? & ? & ? & ?).
    change (d :: all) with ([d] ++ all)%list. rewrite filter_app, length_app.
    cbn [fmap list_fmap foldr app]. repeat split; lia.
Qed.

Lemma omap_length_le {A B} (f : A -> option B) (l : list A) :
  (length (omap f l) <= length l)%nat.
Proof.
  induction l as [|x l IH]; [done |]. cbn. destruct (f x); cbn; lia.
Qed.

(** X27: in the overview of the dungeons, the three session counters are
    not negative and together do not exceed the number of dungeons that
    could be read; neither does the number of staked dungeons; the number
    of dungeons read does not exceed the count the contract reports; and
    the loot total is the sum of the loot pools of the dungeons read. *)
Theorem overview_counts_are_consistent (chain : DungeonChain) (ledger : Ledger) :
  let o := get_dungeons_overview chain ledger in
  0 <= awaiting_players o /\ 0 <= awaiting_dm o /\ 0 <= in_progress o
  /\ awaiting_players o + awaiting_dm o + in_progress o <= total_dungeons o
  /\ 0 <= staked_dungeons o <= total_dungeons o
  /\ total_dungeons o <= Z.max 0 (get_dungeon_count chain)
  /\ total_loot_pool o = foldr Z.add 0 (di_loot_pool <$> get_all_dungeons chain).
Proof.
  intros o. unfold o, get_dungeons_overview.
  pose proof (overview_fold ledger (get_all_dungeons chain) 0 0 0 0) as H.
  destruct (foldl _ _ (get_all_dungeons chain)) as [[[w wd] ip] tl].
  destruct H as (Hw & Hwd & Hip & Hsum & Htl). cbn.
  pose proof (length_filter (fun d => 0 < di_current_session_id d)
                (get_all_dungeons chain)) as Hf1.
  pose proof (length_filter (fun d => di_active d = true) (get_all_dungeons chain)) as Hf2.
  assert (Hall : (length (get_all_dungeons chain)
                  <= Z.to_nat (get_dungeon_count chain))%nat).
  { unfold get_all_dungeons.
    etransitivity; [apply omap_length_le |]. by rewrite length_seqZ. }
  repeat split; lia.
Qed.
